(** * CSV ingestion and time-series aggregation: a shallow embedding

    The development follows [utils/csvParser.ts] (line tokenizer, format
    detector, the two row parsers, header normalizer, entry point
    [parseCSV], metric categories), the chart component ([processedData],
    the date-column test, [toggleYAxis], [metricGroups]), the fallback
    parser of the server and the search of the data table.

    Conventions of the embedding.
    - A JavaScript string is a [string]: a sequence of code units, here
      restricted to the code units below 256.
    - A JavaScript number is a [JsNumber]: the exact rational value of a
      finite binary64 number, one of the two infinities, or NaN.  The
      arithmetic rounds to the nearest binary64 number ([roundDouble]); the
      sign of zero is not represented.
    - A plain object used as a record ([Record<string, any>]) is a
      [gmap string JsValue] of its own properties; a missing key reads as
      [undefined] ([None]).  Under a name of [Object.prototype] a read of a
      missing key gives the inherited function or object instead: it is no
      string and no number, and [Date] makes no valid date of it, so the
      code takes the branches it takes for [undefined].  An assignment
      [obj[key] = v] is [setProp]: the name [__proto__] is an accessor
      inherited from [Object.prototype] whose setter ignores a string or a
      number, so the assignment gives the object no property of that
      name.
    - A [throw] is the [Throw] constructor of [outcome]. *)

From Stdlib Require Import String Ascii List ZArith QArith Qabs Qcanon Qround Lia.
From Stdlib Require Import DecimalString DecimalNat Sorted Permutation.
From stdpp Require Import base option list strings gmap fin_maps.

Import ListNotations.
Local Open Scope string_scope.
Local Open Scope list_scope.

(** ** JavaScript string primitives *)

Module JsString.

(** Code units that [String.prototype.trim] removes and that [\s] matches:
    TAB, LF, VT, FF, CR, SPACE and NBSP (the ones below 256). *)
Definition is_ws (c : ascii) : bool :=
  match nat_of_ascii c with
  | 9 | 10 | 11 | 12 | 13 | 32 | 160 => true
  | _ => false
  end.

(** [\d] *)
Definition is_digit (c : ascii) : bool :=
  let n := nat_of_ascii c in (48 <=? n)%nat && (n <=? 57)%nat.

Definition is_empty (s : string) : bool :=
  match s with "" => true | _ => false end.

Fixpoint trimStart (s : string) : string :=
  match s with
  | "" => ""
  | String c r => if is_ws c then trimStart r else s
  end.

Fixpoint trimEnd (s : string) : string :=
  match s with
  | "" => ""
  | String c r =>
      let r' := trimEnd r in
      if is_ws c && is_empty r' then "" else String c r'
  end.

(** [s.trim()] *)
Definition trim (s : string) : string := trimEnd (trimStart s).

(** [s.includes(c)] for a one-character needle. *)
Fixpoint includes (c : ascii) (s : string) : bool :=
  match s with
  | "" => false
  | String d r => if Ascii.eqb d c then true else includes c r
  end.

(** [s.split(c)] for a one-character separator: never the empty list. *)
Fixpoint split (sep : ascii) (s : string) : list string :=
  match s with
  | "" => [""]
  | String c r =>
      if Ascii.eqb c sep then "" :: split sep r
      else match split sep r with
           | [] => [String c ""]
           | cell :: cells => String c cell :: cells
           end
  end.

Definition dquote : ascii := "034"%char.

(** [s.replace(/^"|"$/g, '')]: the two alternatives match at most once
    each and never on the same code unit. *)
Definition dropLeadingQuote (s : string) : string :=
  match s with
  | String c r => if Ascii.eqb c dquote then r else s
  | "" => ""
  end.

Fixpoint dropTrailingQuote (s : string) : string :=
  match s with
  | "" => ""
  | String c "" => if Ascii.eqb c dquote then "" else s
  | String c r => String c (dropTrailingQuote r)
  end.

Definition stripQuotes (s : string) : string :=
  dropTrailingQuote (dropLeadingQuote s).

Fixpoint all_chars (p : ascii -> bool) (s : string) : bool :=
  match s with
  | "" => true
  | String c r => p c && all_chars p r
  end.

Fixpoint prefix_of (p s : string) : option string :=
  match p, s with
  | "", _ => Some s
  | String a p', String b s' => if Ascii.eqb a b then prefix_of p' s' else None
  | _, "" => None
  end.

(** The longest prefix whose code units satisfy [p], and the rest. *)
Fixpoint span (p : ascii -> bool) (s : string) : string * string :=
  match s with
  | "" => ("", "")
  | String c r =>
      if p c then let '(a, b) := span p r in (String c a, b) else ("", s)
  end.

End JsString.

Import JsString.

(** ** Values *)

Inductive JsNumber : Type :=
| NFin (q : Qc)
| NInf (negative : bool)
| NNaN.

Inductive JsValue : Type :=
| VStr (s : string)
| VNum (n : JsNumber).

Inductive outcome (A : Type) : Type :=
| Ok (a : A)
| Throw (message : string).
Arguments Ok {A} a.
Arguments Throw {A} message.

(** [isNaN(n)] *)
Definition isNaN (n : JsNumber) : bool :=
  match n with NNaN => true | _ => false end.

Definition jsZero : JsNumber := NFin (Q2Qc 0).

(** ** Rounding to binary64

    [roundDouble q] is the Number value for the real [q]: the binary64
    number nearest to [q], the one with the even significand of two equally
    near, and an infinity from [2^1024 - 2^970] on. *)

Module Double.

(** [d * 2^e <= n] *)
Definition scaledLe (d e n : Z) : bool :=
  if (0 <=? e)%Z then (d * 2 ^ e <=? n)%Z else (d <=? n * 2 ^ (- e))%Z.

(** The exponent [e] with [2^e <= n/d < 2^(e+1)], for positive [n], [d]. *)
Definition binade (n d : Z) : Z :=
  let e := (Z.log2 n - Z.log2 d)%Z in
  if scaledLe d e n then e else (e - 1)%Z.

(** The nearest number as [m * 2^ex]: [ex] is the exponent of the last place,
    52 below the binade and -1074 at least; [m] is [n / (d * 2^ex)] rounded
    to the nearest integer, to the even one of two equally near. *)
Definition nearest (n d : Z) : Z * Z :=
  let ex := Z.max (binade n d - 52) (-1074) in
  let N := (n * 2 ^ Z.max 0 (- ex))%Z in
  let D := (d * 2 ^ Z.max 0 ex)%Z in
  let m := (N / D)%Z in
  let r := (N mod D)%Z in
  let up :=
    if (2 * r <? D)%Z then false
    else if (D <? 2 * r)%Z then true
    else Z.odd m in
  ((if up then m + 1 else m)%Z, ex).

Definition roundPos (negative : bool) (n d : Z) : JsNumber :=
  let '(m, ex) := nearest n d in
  if (2 ^ 1024 * 2 ^ Z.max 0 (- ex) <=? m * 2 ^ Z.max 0 ex)%Z
  then NInf negative
  else
    let v := Qmake (m * 2 ^ Z.max 0 ex) (Z.to_pos (2 ^ Z.max 0 (- ex))) in
    NFin (Q2Qc (Qred (if negative then Qopp v else v))).

Definition roundDouble (q : Q) : JsNumber :=
  let r := Qred q in
  match Qnum r with
  | Z0 => jsZero
  | Zpos n => roundPos false (Zpos n) (Zpos (Qden r))
  | Zneg n => roundPos true (Zpos n) (Zpos (Qden r))
  end.

End Double.

Import Double.

Module ParseFloat.

Definition digit_val (c : ascii) : Z := Z.of_nat (nat_of_ascii c) - 48.

Fixpoint digits_val (acc : Z) (s : string) : Z :=
  match s with
  | "" => acc
  | String c r => digits_val (10 * acc + digit_val c) r
  end.

(** An optional sign: [true] for a minus. *)
Definition sign (s : string) : bool * string :=
  match s with
  | String "-" r => (true, r)
  | String "+" r => (false, r)
  | _ => (false, s)
  end.

(** ExponentPart: e or E, an optional sign, one digit at least; 0 when the
    text does not continue with a complete exponent part. *)
Definition exponent (s : string) : Z :=
  match s with
  | String c r =>
      if Ascii.eqb c "e" || Ascii.eqb c "E" then
        let '(neg, r1) := sign r in
        let '(ds, _) := span is_digit r1 in
        if is_empty ds then 0%Z
        else if neg then (- digits_val 0 ds)%Z else digits_val 0 ds
      else 0%Z
  | "" => 0%Z
  end.

(** [m * 10^e] as a rational. *)
Definition scale10 (m e : Z) : Q :=
  if (0 <=? e)%Z then inject_Z (m * 10 ^ e)
  else Qmake m (Z.to_pos (10 ^ (- e))).

(** [parseFloat(s)]: skip leading white space, then read the longest prefix
    that is a StrDecimalLiteral, and round its value; NaN when there is
    none. *)
Definition parseFloat (s : string) : JsNumber :=
  let '(neg, s1) := sign (trimStart s) in
  match prefix_of "Infinity" s1 with
  | Some _ => NInf neg
  | None =>
      let '(ip, s2) := span is_digit s1 in
      let '(fp, s3) :=
        match s2 with
        | String "." r => span is_digit r
        | _ => ("", s2)
        end in
      if is_empty ip && is_empty fp then NNaN
      else
        let m := digits_val 0 (ip +:+ fp) in
        let e := (exponent s3 - Z.of_nat (String.length fp))%Z in
        roundDouble (scale10 (if neg then (- m)%Z else m) e)
  end.

End ParseFloat.

Import ParseFloat.

(** ** The parser module, [utils/csvParser.ts] *)

Record ParsedCSVResult : Type := {
  headers : list string;
  data : list (gmap string JsValue);
  isMultiMetric : bool;
  originalFormat : string
}.

(** [firstRow.match(/^[^,]*;[^,]*/)] is not null: reading from the start,
    a semicolon is met before any comma. *)
Fixpoint matches_cell_with_semicolon (s : string) : bool :=
  match s with
  | "" => false
  | String c r =>
      if Ascii.eqb c ";" then true
      else if Ascii.eqb c "," then false
      else matches_cell_with_semicolon r
  end.

Definition detectCompoundFormat (firstRow secondRow : string) : bool :=
  matches_cell_with_semicolon firstRow && matches_cell_with_semicolon secondRow.

(** The loop of [parseCSVLine]: [result], [current] and [inQuotes] are the
    three locals; the final [result.push(current)] is the base case. *)
Fixpoint parseCSVLine_loop (line : string) (result : list string)
    (current : string) (inQuotes : bool) : list string :=
  match line with
  | "" => result ++ [current]
  | String char rest =>
      if Ascii.eqb char dquote then
        parseCSVLine_loop rest result current (negb inQuotes)
      else if Ascii.eqb char "," && negb inQuotes then
        parseCSVLine_loop rest (result ++ [current]) "" inQuotes
      else
        parseCSVLine_loop rest result (current +:+ String char "") inQuotes
  end.

Definition parseCSVLine (line : string) : list string :=
  map (fun cell => trim (stripQuotes cell)) (parseCSVLine_loop line [] "" false).

(** [`${count}`] for a counter. *)
Definition string_of_nat (n : nat) : string :=
  NilEmpty.string_of_uint (Nat.to_uint n).

(** [cleanHeader.replace(/^IOITSecure\d+\s*>\s*/g, '')]: the literal tag,
    one digit at least, optional white space, the separator, optional white
    space.  The three character classes are disjoint, so the greedy match is
    the only one. *)
Definition stripDevicePrefix (s : string) : string :=
  match prefix_of "IOITSecure" s with
  | Some r =>
      let '(ds, r1) := span is_digit r in
      if is_empty ds then s
      else
        match snd (span is_ws r1) with
        | String ">" r2 => snd (span is_ws r2)
        | _ => s
        end
  | None => s
  end.

(** One turn of the [forEach] of [cleanHeaders], on the two locals
    [cleaned] and [seen]. *)
Definition cleanHeaders_step (st : list string * gmap string nat)
    (header : string) : list string * gmap string nat :=
  let '(cleaned, seen) := st in
  let cleanHeader := stripDevicePrefix (trim header) in
  match seen !! cleanHeader with
  | Some n =>
      let count := (n + 1)%nat in
      (cleaned ++ [cleanHeader +:+ " " +:+ string_of_nat count],
       <[cleanHeader := count]> seen)
  | None => (cleaned ++ [cleanHeader], <[cleanHeader := 1%nat]> seen)
  end.

Definition cleanHeaders (headers : list string) : list string :=
  fst (fold_left cleanHeaders_step headers ([], ∅)).

(** [obj[key] = v] on a plain object, for a string or a number [v].  The
    name [__proto__] is inherited from [Object.prototype] as an accessor,
    and its setter ignores a value that is no object: the assignment leaves
    the object as it is, unless the object has a property of its own under
    that name (which an assignment never gives it; a computed key of an
    object literal, a spread or [JSON.parse] does). *)
Definition setProp (obj : gmap string JsValue) (key : string) (v : JsValue)
    : gmap string JsValue :=
  match obj !! key with
  | None => if String.eqb key "__proto__" then obj else <[key := v]> obj
  | Some _ => <[key := v]> obj
  end.

(** [isNaN(numValue) ? value : numValue] with [numValue = parseFloat(value)]. *)
Definition coerce (value : string) : JsValue :=
  let numValue := parseFloat value in
  if isNaN numValue then VStr value else VNum numValue.

(** The [headers.forEach((header, i) => ...)] of [parseStandardCSV]:
    [values !! i] is [Some] exactly when [i < values.length]. *)
Fixpoint standardRow_loop (headers : list string) (i : nat)
    (values : list string) (row : gmap string JsValue) : gmap string JsValue :=
  match headers with
  | [] => row
  | header :: rest =>
      standardRow_loop rest (S i) values
        match values !! i with
        | Some value => setProp row header (coerce value)
        | None => row
        end
  end.

Definition standardRow (headers values : list string) : gmap string JsValue :=
  standardRow_loop headers 0 values ∅.

(** [Object.keys(row).length > 0] *)
Definition hasKeys (row : gmap string JsValue) : bool :=
  (0 <? size row)%nat.

Definition textLines (csvText : string) : list string :=
  split "010"%char (trim csvText).

Definition parseStandardCSV (csvText : string) : ParsedCSVResult :=
  let lines := textLines csvText in
  let headers :=
    map (fun h => stripQuotes (trim h)) (split "," (hd "" lines)) in
  let data :=
    List.filter hasKeys
      (map (fun line => standardRow headers (parseCSVLine line)) (tl lines)) in
  {| headers := headers; data := data;
     isMultiMetric := false; originalFormat := "standard" |}.

(** [row[headers[headerIndex]] = v; headerIndex++] under the guard
    [headerIndex < headers.length]. *)
Definition assignSlot (headers : list string)
    (st : gmap string JsValue * nat) (v : JsValue) : gmap string JsValue * nat :=
  let '(row, headerIndex) := st in
  match headers !! headerIndex with
  | Some header => (setProp row header v, S headerIndex)
  | None => st
  end.

Definition hasDateSeparator (value : string) : bool :=
  includes "/" value || includes ":" value || includes "-" value.

(** The body of [cells.forEach((cell, cellIndex) => ...)]. *)
Definition compoundCell (headers : list string)
    (st : gmap string JsValue * nat) (cellIndex : nat) (cell : string)
    : gmap string JsValue * nat :=
  if includes ";" cell then
    fold_left (fun st value => assignSlot headers st (coerce value))
      (map trim (split ";" cell)) st
  else
    let value := trim cell in
    assignSlot headers st
      (if Nat.eqb cellIndex 0 && hasDateSeparator value then VStr value
       else coerce value).

Fixpoint compoundRow_loop (headers : list string) (cells : list string)
    (cellIndex : nat) (st : gmap string JsValue * nat)
    : gmap string JsValue * nat :=
  match cells with
  | [] => st
  | cell :: rest =>
      compoundRow_loop headers rest (S cellIndex)
        (compoundCell headers st cellIndex cell)
  end.

Definition compoundRow (headers cells : list string) : gmap string JsValue :=
  fst (compoundRow_loop headers cells 0 (∅, 0%nat)).

Definition compoundHeaders (firstRow : list string) : list string :=
  flat_map (fun cell =>
              if includes ";" cell then map trim (split ";" cell)
              else [trim cell]) firstRow.

(** The [for] loop over the data lines: blank lines are skipped, a row with
    no key is not pushed. *)
Fixpoint compoundData (headers : list string) (lines : list string)
    : list (gmap string JsValue) :=
  match lines with
  | [] => []
  | l :: rest =>
      let line := trim l in
      if is_empty line then compoundData headers rest
      else
        let row := compoundRow headers (parseCSVLine line) in
        if hasKeys row then row :: compoundData headers rest
        else compoundData headers rest
  end.

Definition parseCompoundCSV (csvText : string) : outcome ParsedCSVResult :=
  let lines := textLines csvText in
  if (length lines <? 2)%nat then Throw "Invalid CSV format: Not enough rows"
  else
    let headers := cleanHeaders (compoundHeaders (parseCSVLine (hd "" lines))) in
    Ok {| headers := headers; data := compoundData headers (tl lines);
          isMultiMetric := true; originalFormat := "compound" |}.

Definition EmptyInputError : string := "Empty CSV content".
Definition InsufficientRowsError : string :=
  "CSV must have at least a header row and one data row".

Definition parseCSV (csvText : string) : outcome ParsedCSVResult :=
  if is_empty csvText || (String.length (trim csvText) =? 0)%nat then
    Throw EmptyInputError
  else
    let lines := textLines csvText in
    if (length lines <? 2)%nat then Throw InsufficientRowsError
    else
      let isCompound :=
        detectCompoundFormat (nth 0 lines "") (nth 1 lines "") in
      let attempt :=
        if isCompound then parseCompoundCSV csvText
        else Ok (parseStandardCSV csvText) in
      match attempt with
      | Ok r => Ok r
      | Throw message => Throw ("Failed to parse CSV: " +:+ message)
      end.

Definition nl : string := String "010"%char "".

(** The first comma-delimited cell of a line, [line.split(',')[0]]. *)
Definition firstCommaCell (line : string) : string :=
  hd "" (split "," line).

(** ** The aggregation of the chart component, [processedData]

    The [Date] objects belong to the runtime.  What the component asks of
    them is gathered in [DateRuntime]: [newDate v] is [new Date(v)], with
    [None] for an invalid date (one whose [getTime()] is NaN); the getters
    read the local calendar fields; [dateUTC], [utcDay] and [utcFullYear]
    are [Date.UTC] and the UTC getters on a time value in milliseconds;
    [localeCompare] is the string collation of the runtime. *)

Class DateRuntime : Type := {
  Date : Type;
  newDate : JsValue -> option Date;
  getFullYear : Date -> Z;
  getMonth : Date -> nat;
  getDate : Date -> nat;
  getDay : Date -> nat;
  getHours : Date -> nat;
  getMinutes : Date -> nat;
  getSeconds : Date -> nat;
  dateUTC : Z -> nat -> nat -> Z;
  utcDay : Z -> nat;
  utcFullYear : Z -> Z;
  localeCompare : string -> string -> Z
}.

Inductive TimeGrouping : Type := none | days | weeks | months.
Inductive AggregationMethod : Type := sum | average | count.
Inductive ViewMode : Type := single | multi.

Definition DAY_ABBR : list string :=
  ["Sun"; "Mon"; "Tue"; "Wed"; "Thu"; "Fri"; "Sat"].
Definition MONTH_ABBR : list string :=
  ["Jan"; "Feb"; "Mar"; "Apr"; "May"; "Jun";
   "Jul"; "Aug"; "Sep"; "Oct"; "Nov"; "Dec"].

(** *** Arithmetic on numbers *)

Definition jsAdd (a b : JsNumber) : JsNumber :=
  match a, b with
  | NNaN, _ | _, NNaN => NNaN
  | NInf s, NInf t => if Bool.eqb s t then NInf s else NNaN
  | NInf s, NFin _ | NFin _, NInf s => NInf s
  | NFin x, NFin y => roundDouble (this x + this y)
  end.

(** [values.reduce((a, b) => a + b, 0)] *)
Definition jsSum (values : list JsNumber) : JsNumber :=
  fold_left jsAdd values jsZero.

(** Division by the positive length of an array. *)
Definition jsDivLength (a : JsNumber) (n : nat) : JsNumber :=
  match a with
  | NFin x => roundDouble (this x / inject_Z (Z.of_nat n))
  | other => other
  end.

(** [x.toFixed(2)] as a value, below 10^21 in magnitude: the nearest
    multiple of 1/100, the larger in magnitude of two equally near ones. *)
Definition round2 (x : Q) : Q :=
  let n := Qfloor (Qabs x * inject_Z 100 + (1 # 2)) in
  Qmake (if Qle_bool 0 x then n else (- n)%Z) 100.

(** [parseFloat(x.toFixed(2))]: [parseFloat] rounds the decimal that
    [toFixed] prints; from 10^21 on [toFixed] prints the number itself, which
    [parseFloat] reads back; the infinities and NaN print as their names,
    which [parseFloat] reads back too. *)
Definition toFixed2 (a : JsNumber) : JsNumber :=
  match a with
  | NFin x =>
      if Qle_bool (inject_Z (10 ^ 21)) (Qabs (this x)) then a
      else roundDouble (round2 (this x))
  | other => other
  end.

(** [!value] on what a row can hold; a missing key reads [undefined]. *)
Definition falsy (value : option JsValue) : bool :=
  match value with
  | None => true
  | Some (VStr s) => is_empty s
  | Some (VNum (NFin x)) => Qeq_bool (this x) 0
  | Some (VNum NNaN) => true
  | Some (VNum (NInf _)) => false
  end.

Definition string_of_Z (z : Z) : string :=
  NilEmpty.string_of_int (Z.to_int z).

(** [s.padStart(2, '0')] *)
Definition padStart2 (s : string) : string :=
  match s with
  | "" => "00"
  | String c "" => String "0" s
  | _ => s
  end.

(** [/\d{4}/] and [/\d{1,2}\/\d{1,2}\/\d{2,4}/] match somewhere in [s]. *)
Fixpoint digitsAhead (n : nat) (s : string) : bool :=
  match n, s with
  | O, _ => true
  | S n', String c r => is_digit c && digitsAhead n' r
  | S _, "" => false
  end.

Fixpoint hasFourDigits (s : string) : bool :=
  match s with
  | "" => false
  | String _ r => digitsAhead 4 s || hasFourDigits r
  end.

(** One or two digits, then a slash; the rest after the slash. *)
Definition digitsThenSlash (s : string) : option string :=
  match s with
  | String a (String "/" r) => if is_digit a then Some r else None
  | String a (String b (String "/" r)) =>
      if is_digit a && is_digit b then Some r else None
  | _ => None
  end.

Definition slashDateHere (s : string) : bool :=
  match digitsThenSlash s with
  | Some r1 =>
      match digitsThenSlash r1 with
      | Some r2 => digitsAhead 2 r2
      | None => false
      end
  | None => false
  end.

Fixpoint hasSlashDate (s : string) : bool :=
  match s with
  | "" => false
  | String _ r => slashDateHere s || hasSlashDate r
  end.

Section aggregation.

Context {runtime : DateRuntime}.

(** [parseDate] *)
Definition parseDate (value : option JsValue) : option Date :=
  if falsy value then None
  else match value with
       | Some v => newDate v
       | None => None
       end.

(** [formatDateWithSeconds] *)
Definition formatDateWithSeconds (date : Date) : string :=
  let hours := padStart2 (string_of_nat (getHours date)) in
  let minutes := padStart2 (string_of_nat (getMinutes date)) in
  let seconds := padStart2 (string_of_nat (getSeconds date)) in
  let month := padStart2 (string_of_nat (getMonth date + 1)) in
  let day := padStart2 (string_of_nat (getDate date)) in
  month +:+ "/" +:+ day +:+ " " +:+ hours +:+ ":" +:+ minutes +:+ ":"
    +:+ seconds.

(** [getWeekNumber].  [setUTCDate(getUTCDate() + k)] moves a UTC time value
    by [k] days of 86400000 ms; both time values are UTC midnights, so the
    quotient by the day length is exact, and [Math.ceil] of a quotient by 7
    is the integer ceiling. *)
Definition getWeekNumber (date : Date) : Z :=
  let d0 := dateUTC (getFullYear date) (getMonth date) (getDate date) in
  let dayNum := if Nat.eqb (utcDay d0) 0 then 7%Z else Z.of_nat (utcDay d0) in
  let d := (d0 + (4 - dayNum) * 86400000)%Z in
  let yearStart := dateUTC (utcFullYear d) 0 1 in
  let dayOfYear := ((d - yearStart) / 86400000 + 1)%Z in
  (- ((- dayOfYear) / 7))%Z.

(** The test of [dateHeaders] on one row: the value is truthy, it makes a
    valid date, and it is a string with a separator or a run of digits. *)
Definition looksLikeDate (value : option JsValue) : bool :=
  if falsy value then false
  else match value with
       | Some v =>
           match newDate v with
           | Some _ =>
               match v with
               | VStr s =>
                   includes "-" s || includes "/" s || includes ":" s
                   || hasFourDigits s || hasSlashDate s
               | VNum _ => false
               end
           | None => false
           end
       | None => false
       end.

Definition dateHeaders (data : list (gmap string JsValue))
    (headers : list string) : list string :=
  List.filter
    (fun header => existsb (fun row => looksLikeDate (row !! header))
                     (take 10 data))
    headers.

(** [dateHeaders.includes(xAxis)] *)
Definition isDateAxis (data : list (gmap string JsValue))
    (headers : list string) (xAxis : string) : bool :=
  existsb (String.eqb xAxis) (dateHeaders data headers).

(** One entry of the [grouped] map; [rowCount] is its [count] field. *)
Record Group : Type := {
  values : gmap string (list JsNumber);
  rowCount : nat;
  label : string
}.

(** The [switch (timeGrouping)] that names the bucket of a date. *)
Definition groupKeyLabel (timeGrouping : TimeGrouping) (date : Date)
    : string * string :=
  match timeGrouping with
  | days =>
      (string_of_nat (getDay date), nth (getDay date) DAY_ABBR "")
  | weeks =>
      let weekNum := getWeekNumber date in
      (string_of_Z (getFullYear date) +:+ "-W" +:+ string_of_Z weekNum,
       "Week " +:+ string_of_Z weekNum)
  | months =>
      (string_of_Z (getFullYear date) +:+ "-" +:+ string_of_nat (getMonth date),
       nth (getMonth date) MONTH_ABBR "")
  | none => ("", "")
  end.

(** [grouped] is a [Map]: its entries keep their insertion order, and an
    entry is updated in place. *)
Definition hasGroup (key : string) (grouped : list (string * Group)) : bool :=
  existsb (fun entry => String.eqb entry.1 key) grouped.

Fixpoint updateGroup (key : string) (f : Group -> Group)
    (grouped : list (string * Group)) : list (string * Group) :=
  match grouped with
  | [] => []
  | (k, group) :: rest =>
      if String.eqb k key then (k, f group) :: rest
      else (k, group) :: updateGroup key f rest
  end.

(** [viewMode === 'multi' ? selectedYAxes : [yAxis]] *)
Definition yAxesToAggregate (viewMode : ViewMode) (yAxis : string)
    (selectedYAxes : list string) : list string :=
  match viewMode with
  | multi => selectedYAxes
  | single => [yAxis]
  end.

(** [group.values.get(yAxisKey) || []] *)
Definition valuesOf (group : Group) (yAxisKey : string) : list JsNumber :=
  default [] (values group !! yAxisKey).

(** The inner [forEach] over the value columns: a numeric value of the row
    is pushed on the array of its column. *)
Definition pushValues (row : gmap string JsValue) (yAxes : list string)
    (vals : gmap string (list JsNumber)) : gmap string (list JsNumber) :=
  fold_left
    (fun vals yAxisKey =>
       match row !! yAxisKey with
       | Some (VNum yValue) =>
           <[yAxisKey := default [] (vals !! yAxisKey) ++ [yValue]]> vals
       | _ => vals
       end)
    yAxes vals.

(** The body of [data.forEach(row => ...)]. *)
Definition addRow (xAxis : string) (yAxes : list string)
    (timeGrouping : TimeGrouping) (grouped : list (string * Group))
    (row : gmap string JsValue) : list (string * Group) :=
  match parseDate (row !! xAxis) with
  | None => grouped
  | Some date =>
      let '(groupKey, groupLabel) := groupKeyLabel timeGrouping date in
      let grouped1 :=
        if hasGroup groupKey grouped then grouped
        else grouped ++
             [(groupKey, {| values := ∅; rowCount := 0; label := groupLabel |})]
      in
      updateGroup groupKey
        (fun group =>
           {| values := pushValues row yAxes (values group);
              rowCount := S (rowCount group);
              label := label group |})
        grouped1
  end.

Definition groupRows (xAxis : string) (yAxes : list string)
    (timeGrouping : TimeGrouping) (data : list (gmap string JsValue))
    : list (string * Group) :=
  fold_left (addRow xAxis yAxes timeGrouping) data [].

(** The aggregate of one column in one group, before rounding. *)
Definition aggregatedValue (method : AggregationMethod) (group : Group)
    (yAxisKey : string) : JsNumber :=
  let vs := valuesOf group yAxisKey in
  if (0 <? length vs)%nat then
    match method with
    | sum => jsSum vs
    | average => jsDivLength (jsSum vs) (length vs)
    | count => NFin (Q2Qc (inject_Z (Z.of_nat (rowCount group))))
    end
  else jsZero.

(** The output row of one entry of [grouped]: an object literal with the
    computed key [[xAxis]] and the key [_originalKey], which are properties
    of its own under any name, and then one assignment per value column. *)
Definition aggregatedRow (xAxis : string) (yAxes : list string)
    (method : AggregationMethod) (entry : string * Group)
    : gmap string JsValue :=
  let '(key, group) := entry in
  fold_left
    (fun aggregatedRow yAxisKey =>
       setProp aggregatedRow yAxisKey
         (VNum (toFixed2 (aggregatedValue method group yAxisKey))))
    yAxes
    (<["_originalKey" := VStr key]> {[ xAxis := VStr (label group) ]}).

(** [Array.prototype.sort] with a comparator: stable. *)
Fixpoint insertBy {A} (cmp : A -> A -> Z) (x : A) (l : list A) : list A :=
  match l with
  | [] => [x]
  | y :: r => if (cmp x y <=? 0)%Z then x :: l else y :: insertBy cmp x r
  end.

Definition sortBy {A} (cmp : A -> A -> Z) (l : list A) : list A :=
  fold_right (insertBy cmp) [] l.

(** [ABBR.indexOf(a[xAxis])] *)
Fixpoint indexOfFrom (i : Z) (names : list string) (s : string) : Z :=
  match names with
  | [] => (-1)%Z
  | n :: r => if String.eqb n s then i else indexOfFrom (i + 1)%Z r s
  end.

Definition indexOf (names : list string) (value : option JsValue) : Z :=
  match value with
  | Some (VStr s) => indexOfFrom 0 names s
  | _ => (-1)%Z
  end.

(** [a._originalKey.localeCompare(b._originalKey)]: the argument is turned
    into a string; a receiver that is a number has no such method. *)
Definition keyText (value : option JsValue) : string :=
  match value with
  | Some (VStr s) => s
  | _ => ""
  end.

Definition sortResult (xAxis : string) (yAxes : list string)
    (timeGrouping : TimeGrouping) (result : list (gmap string JsValue))
    : outcome (list (gmap string JsValue)) :=
  match timeGrouping with
  | days =>
      Ok (sortBy (fun a b => (indexOf DAY_ABBR (a !! xAxis)
                              - indexOf DAY_ABBR (b !! xAxis))%Z) result)
  | weeks =>
      if existsb (String.eqb "_originalKey") yAxes
         && (2 <=? length result)%nat
      then Throw "TypeError: a._originalKey.localeCompare is not a function"
      else
        Ok (sortBy (fun a b => localeCompare (keyText (a !! "_originalKey"))
                                 (keyText (b !! "_originalKey"))) result)
  | months =>
      Ok (sortBy (fun a b => (indexOf MONTH_ABBR (a !! xAxis)
                              - indexOf MONTH_ABBR (b !! xAxis))%Z) result)
  | none => Ok result
  end.

Definition processedData (data : list (gmap string JsValue))
    (headers : list string) (xAxis yAxis : string)
    (selectedYAxes : list string) (viewMode : ViewMode)
    (timeGrouping : TimeGrouping) (aggregationMethod : AggregationMethod)
    : outcome (list (gmap string JsValue)) :=
  match timeGrouping with
  | none =>
      Ok (map (fun row =>
                 if isDateAxis data headers xAxis then
                   match parseDate (row !! xAxis), row !! xAxis with
                   | Some date, Some dateValue =>
                       <["_originalTimestamp" := dateValue]>
                         (<[xAxis := VStr (formatDateWithSeconds date)]> row)
                   | _, _ => row
                   end
                 else row) data)
  | _ =>
      if negb (isDateAxis data headers xAxis) then Ok (take 50 data)
      else
        let yAxes := yAxesToAggregate viewMode yAxis selectedYAxes in
        let grouped := groupRows xAxis yAxes timeGrouping data in
        sortResult xAxis yAxes timeGrouping
          (map (aggregatedRow xAxis yAxes aggregationMethod) grouped)
  end.

End aggregation.

(** ** Reference definitions for the tokenizer contract

    These follow the wording of the contract, not the code: the line is cut
    at the commas met outside quotes, a double quote toggles the in-quotes
    state, and every code unit of the line, the quotes included, stays in the
    text of its cell. *)

Definition onHead (f : string -> string) (cells : list string) : list string :=
  match cells with
  | [] => [f ""]
  | cell :: rest => f cell :: rest
  end.

Fixpoint rawCells (inQuotes : bool) (line : string) : list string :=
  match line with
  | "" => [""]
  | String c rest =>
      if Ascii.eqb c dquote then
        onHead (String c) (rawCells (negb inQuotes) rest)
      else if Ascii.eqb c "," && negb inQuotes then
        "" :: rawCells inQuotes rest
      else onHead (String c) (rawCells inQuotes rest)
  end.

(** One pair of enclosing double quotes, when the text has one. *)
Definition stripEnclosingPair (s : string) : string :=
  match s with
  | String c r =>
      if Ascii.eqb c dquote && negb (is_empty r)
         && negb (String.eqb (dropTrailingQuote r) r)
      then dropTrailingQuote r else s
  | "" => ""
  end.

(** The text with every double quote taken out. *)
Fixpoint removeQuotes (s : string) : string :=
  match s with
  | "" => ""
  | String c r =>
      if Ascii.eqb c dquote then removeQuotes r else String c (removeQuotes r)
  end.

Definition dq : string := String dquote "".

(** ** Reference definitions for the failure conditions

    A text has no content when it holds white space only; a line counts when
    it holds a code unit that is not white space. *)

Definition isBlank (s : string) : bool := all_chars is_ws s.

Definition nonBlank (s : string) : bool := negb (isBlank s).

Definition nonBlankLines (text : string) : nat :=
  length (List.filter nonBlank (split "010"%char text)).

(** ** Reference definitions for the format selection

    The lines of the text as it is given are its pieces between line feeds.
    The two lines the selection looks at are the first line that is not
    blank and the line that follows it, whatever it holds. *)

Fixpoint dropBlank (lines : list string) : list string :=
  match lines with
  | [] => []
  | l :: rest => if isBlank l then dropBlank rest else lines
  end.

Definition fromFirstLine (text : string) : list string :=
  dropBlank (split "010"%char text).

Definition hasSemicolonCell (line : string) : bool :=
  includes ";" (hd "" (split "," line)).

(** ** Reference definitions for header normalization

    These follow the wording of the contract: a name is cleaned, and its
    k-th occurrence among the cleaned names is rendered unchanged for
    [k = 1] and with a space and [k] appended for [k >= 2]. *)

Definition cleanName (header : string) : string :=
  stripDevicePrefix (trim header).

(** A name that starts with the device prefix: the tag [IOITSecure], one
    digit at least, optional white space and the separator; [rest] is what
    follows the separator. *)
Definition hasDevicePrefix (name rest : string) : Prop :=
  exists ds ws1,
    ds <> "" /\ all_chars is_digit ds = true /\ all_chars is_ws ws1 = true /\
    name = "IOITSecure" +:+ ds +:+ ws1 +:+ ">" +:+ rest.

Fixpoint occurrences (x : string) (l : list string) : nat :=
  match l with
  | [] => 0
  | y :: r => ((if String.eqb y x then 1 else 0) + occurrences x r)%nat
  end.

Definition render (name : string) (k : nat) : string :=
  if (k =? 1)%nat then name else name +:+ " " +:+ string_of_nat k.

Fixpoint dedupe_from (earlier names : list string) : list string :=
  match names with
  | [] => []
  | name :: rest =>
      render name (S (occurrences name earlier))
        :: dedupe_from (earlier ++ [name]) rest
  end.

Definition normalizeSpec (headers : list string) : list string :=
  dedupe_from [] (map cleanName headers).

(** No cleaned name is another cleaned name followed by a space and a count
    of two or more. *)
Definition noCollision (names : list string) : Prop :=
  forall a b k, In a names -> In b names -> (2 <= k)%nat ->
    a <> b +:+ " " +:+ string_of_nat k.

(** ** Reference definitions for the typed values

    [coerceFinite] is the coercion rule as the contract words it: the
    number when the parse succeeds and is finite, the text otherwise.
    [typedFrom cellIndex cell x] says that [x] is a value the compound parser
    derives from the comma-delimited cell [cell] at index [cellIndex]. *)

Definition coerceFinite (text : string) : JsValue :=
  match parseFloat text with
  | NFin x => VNum (NFin x)
  | _ => VStr text
  end.

Definition typedFrom (cellIndex : nat) (cell : string) (x : JsValue) : Prop :=
  (includes ";" cell = true /\
   exists value, In value (map trim (split ";" cell)) /\ x = coerce value) \/
  (includes ";" cell = false /\
   x = if Nat.eqb cellIndex 0 && hasDateSeparator (trim cell)
       then VStr (trim cell) else coerce (trim cell)).

(** ** Reference definitions for the aggregation laws *)

(** The numeric observation a row holds for a column, if any. *)
Definition observation (row : gmap string JsValue) (column : string)
    : list JsNumber :=
  match row !! column with
  | Some (VNum v) => [v]
  | _ => []
  end.

(** Whether the time value of a row parses as a date. *)
Definition timeParses `{DateRuntime} (xAxis : string)
    (row : gmap string JsValue) : bool :=
  match parseDate (row !! xAxis) with
  | Some _ => true
  | None => false
  end.

(** The numeric observations of a column across the rows whose time value
    parses as a date. *)
Definition observations `{DateRuntime} (xAxis column : string)
    (data : list (gmap string JsValue)) : list JsNumber :=
  flat_map (fun row => if timeParses xAxis row then observation row column
                       else [])
    data.

(** Whether a row holds a number under a column. *)
Definition holdsNumber (column : string) (row : gmap string JsValue) : bool :=
  match row !! column with
  | Some (VNum _) => true
  | _ => false
  end.

(** An assignment to the output row under [column] is ignored: the name is
    [__proto__] and the object literal has not given the row a property of
    that name. *)
Definition ignoredColumn (xAxis column : string) : bool :=
  String.eqb column "__proto__" && negb (String.eqb xAxis "__proto__").

(** A number that stands for a row count. *)
Definition countValue (n : nat) : JsValue :=
  VNum (NFin (Q2Qc (inject_Z (Z.of_nat n)))).

(** What one row pushes on the array of a column: its observation, once
    for each time the column stands among the value columns. *)
Definition pushed (yAxes : list string) (column : string)
    (row : gmap string JsValue) : list JsNumber :=
  flat_map (fun y => if String.eqb y column then observation row y else [])
    yAxes.

(** All the values the groups hold for a column, and all their row counts. *)
Definition allValues `{DateRuntime} (column : string)
    (grouped : list (string * Group)) : list JsNumber :=
  flat_map (fun entry => valuesOf entry.2 column) grouped.

Definition totalCount `{DateRuntime} (grouped : list (string * Group)) : nat :=
  sum_list_with (fun entry => rowCount entry.2) grouped.

(** The bucket a row falls in, if its time value parses. *)
Definition rowKey `{DateRuntime} (xAxis : string) (timeGrouping : TimeGrouping)
    (row : gmap string JsValue) : option string :=
  match parseDate (row !! xAxis) with
  | Some date => Some (groupKeyLabel timeGrouping date).1
  | None => None
  end.

(** The rows that fall in the bucket of a key, in the order of the data. *)
Definition contributing `{DateRuntime} (xAxis : string)
    (timeGrouping : TimeGrouping) (key : string)
    (data : list (gmap string JsValue)) : list (gmap string JsValue) :=
  List.filter
    (fun row => match rowKey xAxis timeGrouping row with
                | Some k => String.eqb k key
                | None => false
                end)
    data.

(** ** A sample of the runtime

    The runtime on the local noons of January 2025, written as ISO local
    date-times: the argument of [Date] is the day of the month.  1 January
    2025 was a Wednesday, and its UTC midnight is 1735689600000 ms.  Only
    time values that are strings of this form are dates here; the sample
    data below hold no other dates. *)

Definition sampleNewDate (v : JsValue) : option nat :=
  match v with
  | VStr s =>
      if String.eqb s "2025-01-06T12:00:00" then Some 6%nat
      else if String.eqb s "2025-01-07T12:00:00" then Some 7%nat
      else if String.eqb s "2025-01-13T12:00:00" then Some 13%nat
      else None
  | VNum _ => None
  end.

Definition sampleRuntime : DateRuntime := {|
  Date := nat;
  newDate := sampleNewDate;
  getFullYear := fun _ => 2025%Z;
  getMonth := fun _ => 0%nat;
  getDate := fun d => d;
  getDay := fun d => ((d + 2) mod 7)%nat;
  getHours := fun _ => 12%nat;
  getMinutes := fun _ => 0%nat;
  getSeconds := fun _ => 0%nat;
  dateUTC := fun _ _ d => (1735689600000 + (Z.of_nat d - 1) * 86400000)%Z;
  utcDay := fun t => Z.to_nat ((t / 86400000 + 4) mod 7);
  utcFullYear := fun _ => 2025%Z;
  localeCompare := fun a b =>
    match String.compare a b with Lt => (-1)%Z | Eq => 0%Z | Gt => 1%Z end
|}.

Definition monday : string := "2025-01-06T12:00:00".
Definition tuesday : string := "2025-01-07T12:00:00".

(** 1/256 = 0.00390625, a binary64 number. *)
Definition oneOver256 : JsNumber := NFin (Q2Qc (1 # 256)).

(** Two rows, a Monday and a Tuesday, each with the value 1/256. *)
Definition smallValues : list (gmap string JsValue) :=
  [ <["v" := VNum oneOver256]> {[ "t" := VStr monday ]};
    <["v" := VNum oneOver256]> {[ "t" := VStr tuesday ]} ].

(** 2^53, a binary64 number whose successor is 2^53 + 2. *)
Definition twoTo53 : JsNumber := NFin (Q2Qc 9007199254740992).

(** A Monday row with the value 2^53 and two Tuesday rows with the
    value 1. *)
Definition largeValues : list (gmap string JsValue) :=
  [ <["v" := VNum twoTo53]> {[ "t" := VStr monday ]};
    <["v" := VNum (NFin (Q2Qc 1))]> {[ "t" := VStr tuesday ]};
    <["v" := VNum (NFin (Q2Qc 1))]> {[ "t" := VStr tuesday ]} ].

(** One Monday row whose value column holds a text. *)
Definition textValue : list (gmap string JsValue) :=
  [ <["v" := VStr "n/a"]> {[ "t" := VStr monday ]} ].

(** Two Monday rows and one Tuesday row with the values 10, 20 and 5, and a
    row whose time value is no date. *)
Definition weekdayRows : list (gmap string JsValue) :=
  [ <["v" := VNum (NFin (Q2Qc 10))]> {[ "t" := VStr monday ]};
    <["v" := VNum (NFin (Q2Qc 20))]> {[ "t" := VStr monday ]};
    <["v" := VNum (NFin (Q2Qc 7))]> {[ "t" := VStr "soon" ]};
    <["v" := VNum (NFin (Q2Qc 5))]> {[ "t" := VStr tuesday ]} ].

(** ** Invariants used in the proofs *)

(** A string that is empty or starts with a code unit outside [p]. *)
Definition stops (p : ascii -> bool) (s : string) : Prop :=
  match s with
  | "" => True
  | String c _ => p c = false
  end.

(** The [seen] map of [cleanHeaders] counts the occurrences among the names
    met so far. *)
Definition seen_counts (seen : gmap string nat) (earlier : list string)
    : Prop :=
  forall x, seen !! x =
    if (occurrences x earlier =? 0)%nat then None
    else Some (occurrences x earlier).

(** The assignments [row[h] = v] for the pairs of a list, in order. *)
Definition assignPairs (row : gmap string JsValue)
    (pairs : list (string * JsValue)) : gmap string JsValue :=
  fold_left (fun row hv => setProp row hv.1 hv.2) pairs row.

(** What the groups hold after the rows of [data] have been added: one
    group per key met, counting the rows of its bucket and holding their
    pushed values in the order of the data. *)
Definition groups_of `{DateRuntime} (xAxis : string) (yAxes : list string)
    (timeGrouping : TimeGrouping) (data : list (gmap string JsValue))
    (grouped : list (string * Group)) : Prop :=
  List.NoDup (map fst grouped) /\
  (forall k g, In (k, g) grouped ->
     rowCount g = length (contributing xAxis timeGrouping k data) /\
     forall column,
       valuesOf g column =
       flat_map (pushed yAxes column) (contributing xAxis timeGrouping k data)) /\
  (forall k, hasGroup k grouped = false ->
     contributing xAxis timeGrouping k data = []).

(** ** Further reference definitions for the parser *)

(** The number of occurrences of a code unit in a string. *)
Fixpoint countChar (c : ascii) (s : string) : nat :=
  match s with
  | "" => 0
  | String d r => ((if Ascii.eqb d c then 1 else 0) + countChar c r)%nat
  end.

(** The typed values a comma-delimited cell of a compound data line yields,
    in order: one per semicolon-separated part, or one for the whole cell. *)
Definition cellValues (cellIndex : nat) (cell : string) : list JsValue :=
  if includes ";" cell then map coerce (map trim (split ";" cell))
  else [if Nat.eqb cellIndex 0 && hasDateSeparator (trim cell)
        then VStr (trim cell) else coerce (trim cell)].

Fixpoint lineValues (cellIndex : nat) (cells : list string) : list JsValue :=
  match cells with
  | [] => []
  | cell :: rest => cellValues cellIndex cell ++ lineValues (S cellIndex) rest
  end.

(** ** More of the chart component and of the parser module *)

(** [toggleYAxis]: the update of the selected value columns
    ([setSelectedYAxes(prev => ...)]); the two notifications are left out. *)
Definition toggleYAxis (prev : list string) (axis : string) : list string :=
  if existsb (String.eqb axis) prev then
    if (length prev =? 1)%nat then prev
    else List.filter (fun a => negb (String.eqb a axis)) prev
  else
    if (8 <=? length prev)%nat then prev
    else prev ++ [axis].

(** [s.includes(needle)] for a string needle. *)
Fixpoint includesStr (needle s : string) : bool :=
  match prefix_of needle s with
  | Some _ => true
  | None =>
      match s with
      | "" => false
      | String _ r => includesStr needle r
      end
  end.

(** [toLowerCase] on the code units below 256: the capital letters A-Z and
    the capital letters of Latin-1 (U+00C0-U+00DE but the multiplication
    sign) move up by 32. *)
Definition lowerChar (c : ascii) : ascii :=
  let n := nat_of_ascii c in
  if ((65 <=? n) && (n <=? 90))%nat
     || ((192 <=? n) && (n <=? 222) && negb (n =? 215))%nat
  then ascii_of_nat (n + 32) else c.

Fixpoint toLowerCase (s : string) : string :=
  match s with
  | "" => ""
  | String c r => String (lowerChar c) (toLowerCase r)
  end.

(** A [Map<string, string[]>] filled by
    [if (!groups.has(category)) groups.set(category, []);
     groups.get(category)!.push(header)]:
    the entries keep their insertion order. *)
Fixpoint pushHeader (category header : string)
    (groups : list (string * list string)) : list (string * list string) :=
  match groups with
  | [] => [(category, [header])]
  | (c, hs) :: rest =>
      if String.eqb c category then (c, hs ++ [header]) :: rest
      else (c, hs) :: pushHeader category header rest
  end.

Definition groupByCategory (category : string -> string)
    (headers : list string) : list (string * list string) :=
  fold_left (fun groups header => pushHeader (category header) header groups)
    headers [].

(** The category of [groupMetricsByCategory] (parser module): case-sensitive
    tests, the first that holds wins. *)
Definition categoryOf (header : string) : string :=
  if includesStr "Voltage" header then "Voltage"
  else if includesStr "PF" header || includesStr "Power Factor" header
  then "Power Factor"
  else if includesStr "Current" header then "Current"
  else if includesStr "Power" header then "Power"
  else if includesStr "TIME" header || includesStr "Time" header then "Time"
  else "Other".

Definition groupMetricsByCategory (headers : list string)
    : list (string * list string) :=
  groupByCategory categoryOf headers.

(** The category of [metricGroups] (chart component): tests on the
    lower-cased header. *)
Definition metricCategory (header : string) : string :=
  let lower := toLowerCase header in
  if includesStr "voltage" lower then "Voltage"
  else if includesStr "pf" lower || includesStr "power factor" lower
  then "Power Factor"
  else if includesStr "current" lower then "Current"
  else if includesStr "power" lower && negb (includesStr "factor" lower)
  then "Power"
  else if includesStr "time" lower || includesStr "timestamp" lower
  then "Time"
  else if includesStr "frequency" lower then "Frequency"
  else "Other".

Definition metricGroups (headers : list string)
    : list (string * list string) :=
  groupByCategory metricCategory headers.

(** ** The fallback parser of the server, [/parse-csv]

    The part of the handler that works on the text: the authorization and
    the transport are left out. *)

Module ToNumber.

(** The rest of a StrDecimalLiteral after the mantissa: nothing, or an
    exponent part and nothing more. *)
Definition exponentAll (s : string) : option Z :=
  match s with
  | "" => Some 0%Z
  | String c r =>
      if Ascii.eqb c "e" || Ascii.eqb c "E" then
        let '(neg, r1) := sign r in
        let '(ds, rest) := span is_digit r1 in
        if is_empty ds || negb (is_empty rest) then None
        else Some (if neg then (- digits_val 0 ds)%Z else digits_val 0 ds)
      else None
  end.

(** The whole text is a StrDecimalLiteral. *)
Definition decimalLiteral (s : string) : JsNumber :=
  let '(neg, s1) := sign s in
  if String.eqb s1 "Infinity" then NInf neg
  else
    let '(ip, s2) := span is_digit s1 in
    let '(fp, s3) :=
      match s2 with
      | String "." r => span is_digit r
      | _ => ("", s2)
      end in
    if is_empty ip && is_empty fp then NNaN
    else
      match exponentAll s3 with
      | Some e =>
          let m := digits_val 0 (ip +:+ fp) in
          roundDouble (scale10 (if neg then (- m)%Z else m)
                         (e - Z.of_nat (String.length fp)))
      | None => NNaN
      end.

Definition hexVal (c : ascii) : option Z :=
  let n := nat_of_ascii c in
  if is_digit c then Some (Z.of_nat n - 48)%Z
  else if ((97 <=? n) && (n <=? 102))%nat then Some (Z.of_nat n - 87)%Z
  else if ((65 <=? n) && (n <=? 70))%nat then Some (Z.of_nat n - 55)%Z
  else None.

(** The digits of a literal in base [base], one at least. *)
Fixpoint baseVal (base : Z) (acc : Z) (s : string) : option Z :=
  match s with
  | "" => Some acc
  | String c r =>
      match hexVal c with
      | Some d => if (d <? base)%Z then baseVal base (base * acc + d) r
                  else None
      | None => None
      end
  end.

(** NonDecimalIntegerLiteral: [0x], [0o] or [0b] (either case) and digits. *)
Definition nonDecimalLiteral (s : string) : option JsNumber :=
  match s with
  | String "0" (String p r) =>
      let base :=
        if Ascii.eqb p "x" || Ascii.eqb p "X" then Some 16%Z
        else if Ascii.eqb p "o" || Ascii.eqb p "O" then Some 8%Z
        else if Ascii.eqb p "b" || Ascii.eqb p "B" then Some 2%Z
        else None in
      match base with
      | Some b =>
          Some (if is_empty r then NNaN
                else match baseVal b 0 r with
                     | Some v => roundDouble (inject_Z v)
                     | None => NNaN
                     end)
      | None => None
      end
  | _ => None
  end.

(** [Number(s)] on a string: white space around the literal is ignored, the
    empty text is 0, and the whole rest must be one numeric literal. *)
Definition toNumber (s : string) : JsNumber :=
  let t := trim s in
  if is_empty t then jsZero
  else match nonDecimalLiteral t with
       | Some n => n
       | None => decimalLiteral t
       end.

End ToNumber.

Import ToNumber.

(** [isNaN(Number(value)) ? value : Number(value)] *)
Definition serverCoerce (value : string) : JsValue :=
  if isNaN (toNumber value) then VStr value else VNum (toNumber value).

(** [headers.forEach((header, index) => ...)] with
    [value = values[index] || ''], which is the empty string for a missing
    cell and for an empty one. *)
Fixpoint serverRow_loop (headers : list string) (index : nat)
    (values : list string) (row : gmap string JsValue) : gmap string JsValue :=
  match headers with
  | [] => row
  | header :: rest =>
      let value := default "" (values !! index) in
      serverRow_loop rest (S index) values
        (setProp row header (serverCoerce value))
  end.

Definition serverCells (line : string) : list string :=
  map (fun v => stripQuotes (trim v)) (split "," line).

Record ServerResult : Type := {
  serverHeaders : list string;
  serverData : list (gmap string JsValue);
  serverRowCount : nat
}.

Definition serverParse (csvContent : string) : outcome ServerResult :=
  if is_empty csvContent then Throw "No CSV content provided"
  else
    let lines := textLines csvContent in
    if (length lines =? 0)%nat then Throw "Empty CSV file"
    else
      let headers := serverCells (hd "" lines) in
      let rows :=
        map (fun line => serverRow_loop headers 0 (serverCells line) ∅)
            (tl lines) in
      Ok {| serverHeaders := headers; serverData := rows;
            serverRowCount := length rows |}.

(** ** The search of the data table, [filteredData]

    [String(value)] is the string itself for a string; the text of a number
    is the runtime's, a parameter here. *)
Definition filteredData (numberToString : JsNumber -> string)
    (data : list (gmap string JsValue)) (searchTerm : string)
    : list (gmap string JsValue) :=
  List.filter
    (fun row =>
       existsb
         (fun value =>
            includesStr (toLowerCase searchTerm)
              (toLowerCase match value with
                           | VStr s => s
                           | VNum n => numberToString n
                           end))
         (map snd (map_to_list row)))
    data.

(** ** The fraction digits of a numeral

    The step that [parseFloat] and [Number] share after the integer digits:
    a point and the digits that follow it, or nothing. *)
Definition fractionPart (s2 : string) : string * string :=
  match s2 with
  | String "." r => span is_digit r
  | _ => ("", s2)
  end.

(** * Properties *)

(** ** Basic facts on the string primitives *)

Section string_facts.

Lemma split_nonempty sep s : split sep s <> [].
Proof.
  destruct s as [|c r]; simpl; [discriminate|].
  destruct (Ascii.eqb c sep); [discriminate|].
  destruct (split sep r); discriminate.
Qed.

Lemma split_cons sep c r :
  split sep (String c r) =
    if Ascii.eqb c sep then "" :: split sep r
    else String c (hd "" (split sep r)) :: tl (split sep r).
Proof.
  simpl. destruct (Ascii.eqb c sep); [reflexivity|].
  pose proof (split_nonempty sep r) as Hne.
  destruct (split sep r); [contradiction|reflexivity].
Qed.

Lemma is_empty_true s : is_empty s = true <-> s = "".
Proof. destruct s; simpl; split; congruence. Qed.

Lemma length_zero_empty s : (String.length s =? 0)%nat = is_empty s.
Proof. destruct s; reflexivity. Qed.

Lemma matches_cell_first_cell s :
  matches_cell_with_semicolon s = includes ";" (firstCommaCell s).
Proof.
  unfold firstCommaCell.
  induction s as [|c r IH]; [reflexivity|].
  rewrite split_cons. simpl.
  destruct (Ascii.eqb_spec c ";") as [->|Hsemi]; [reflexivity|].
  destruct (Ascii.eqb_spec c ",") as [->|Hcomma]; simpl.
  - reflexivity.
  - destruct (Ascii.eqb_spec c ";"); [contradiction|]. exact IH.
Qed.

End string_facts.

(** ** Format detection *)

Lemma parseCompoundCSV_two_lines csvText :
  (2 <= length (textLines csvText))%nat ->
  exists r, parseCompoundCSV csvText = Ok r /\ originalFormat r = "compound"
            /\ isMultiMetric r = true.
Proof.
  intros Hlen. unfold parseCompoundCSV.
  destruct (Nat.ltb_spec (length (textLines csvText)) 2) as [Hlt|_]; [lia|].
  eexists; repeat split.
Qed.

Lemma textLines_two_not_blank csvText :
  (2 <= length (textLines csvText))%nat ->
  is_empty csvText || (String.length (trim csvText) =? 0)%nat = false.
Proof.
  intros Hlen. unfold textLines in Hlen.
  destruct csvText as [|c r]; [simpl in Hlen; lia|].
  cbn [is_empty orb]. rewrite length_zero_empty.
  destruct (trim (String c r)); [simpl in Hlen; lia|reflexivity].
Qed.

(** ** The compound scenario *)

(** C1.  On the two-line text of the scenario the detector answers
    "standard": the first comma-delimited cell of the second line is the
    timestamp, which holds no semicolon.  The standard parser then takes the
    whole first line as one header and reads the timestamp by its numeric
    prefix. *)
Theorem C1_compound_scenario :
  parseCSV ("TIME;V1;V2" +:+ nl +:+ "2025-01-01 00:00:00,10;20") =
  Ok {| headers := ["TIME;V1;V2"];
        data := [ {[ "TIME;V1;V2" := VNum (NFin (Q2Qc 2025)) ]} ];
        isMultiMetric := false;
        originalFormat := "standard" |}.
Proof. vm_compute. reflexivity. Qed.

(** The compound parser, had it been selected, returns the rows of the
    scenario. *)
Lemma compound_parser_on_scenario :
  parseCompoundCSV ("TIME;V1;V2" +:+ nl +:+ "2025-01-01 00:00:00,10;20") =
  Ok {| headers := ["TIME"; "V1"; "V2"];
        data := [ <["V2" := VNum (NFin (Q2Qc 20))]>
                    (<["V1" := VNum (NFin (Q2Qc 10))]>
                       {[ "TIME" := VStr "2025-01-01 00:00:00" ]}) ];
        isMultiMetric := true;
        originalFormat := "compound" |} /\
  detectCompoundFormat "TIME;V1;V2" "2025-01-01 00:00:00,10;20" = false.
Proof. split; vm_compute; reflexivity. Qed.

(** ** Trimming and spans *)

Section trim_facts.

Lemma ws_not_digit c : is_ws c = true -> is_digit c = false.
Proof.
  destruct c as [[] [] [] [] [] [] [] []]; vm_compute; congruence.
Qed.

Lemma append_nil (b : string) : "" +:+ b = b.
Proof. reflexivity. Qed.

Lemma append_cons c (a b : string) : String c a +:+ b = String c (a +:+ b).
Proof. reflexivity. Qed.

Lemma append_assoc (a b c : string) : (a +:+ b) +:+ c = a +:+ b +:+ c.
Proof.
  induction a as [|x a IH]; [reflexivity|].
  now rewrite !append_cons, IH.
Qed.

Lemma append_empty_r (a : string) : a +:+ "" = a.
Proof.
  induction a as [|x a IH]; [reflexivity|]. now rewrite append_cons, IH.
Qed.

Lemma trimEnd_all_ws w : all_chars is_ws w = true -> trimEnd w = "".
Proof.
  induction w as [|c r IH]; simpl; [reflexivity|].
  intros [Hc Hr]%andb_prop. rewrite (IH Hr), Hc. reflexivity.
Qed.

Lemma trimEnd_empty_all_ws w : trimEnd w = "" -> all_chars is_ws w = true.
Proof.
  induction w as [|c r IH]; simpl; [reflexivity|].
  destruct (is_ws c); simpl; [|discriminate].
  destruct (trimEnd r); simpl; [auto|discriminate].
Qed.

Lemma trimStart_all_ws w : all_chars is_ws w = true -> trimStart w = "".
Proof.
  induction w as [|c r IH]; simpl; [reflexivity|].
  intros [Hc Hr]%andb_prop. rewrite Hc. auto.
Qed.

Lemma all_ws_trimStart w :
  all_chars is_ws w = all_chars is_ws (trimStart w).
Proof.
  induction w as [|c r IH]; simpl; [reflexivity|].
  destruct (is_ws c) eqn:Hc; simpl; [exact IH|now rewrite Hc].
Qed.

Lemma trim_empty_iff s : trim s = "" <-> all_chars is_ws s = true.
Proof.
  unfold trim. rewrite all_ws_trimStart. split.
  - apply trimEnd_empty_all_ws.
  - apply trimEnd_all_ws.
Qed.

Lemma trimEnd_app x y :
  trimEnd y <> "" -> trimEnd (x +:+ y) = x +:+ trimEnd y.
Proof.
  intros Hy. induction x as [|c x IH]; [reflexivity|].
  rewrite !append_cons. cbn [trimEnd].
  rewrite IH. destruct (x +:+ trimEnd y) eqn:E.
  - destruct x; [rewrite append_nil in E; contradiction|discriminate].
  - cbn [is_empty]. now rewrite andb_false_r.
Qed.

Lemma trimEnd_app_ws x w :
  all_chars is_ws w = true -> trimEnd (x +:+ w) = trimEnd x.
Proof.
  intros Hw. induction x as [|c x IH].
  - rewrite append_nil. now apply trimEnd_all_ws.
  - rewrite append_cons. cbn [trimEnd]. now rewrite IH.
Qed.

Lemma prefix_of_app p s : prefix_of p (p +:+ s) = Some s.
Proof.
  induction p as [|c p IH]; [now destruct s|].
  rewrite append_cons. cbn [prefix_of]. now rewrite Ascii.eqb_refl.
Qed.

Lemma span_app p a r :
  all_chars p a = true -> stops p r -> span p (a +:+ r) = (a, r).
Proof.
  intros Ha Hr. induction a as [|c a IH].
  - rewrite append_nil.
    destruct r as [|d r]; [reflexivity|]. simpl in *. now rewrite Hr.
  - simpl in Ha. apply andb_prop in Ha as [Hc Ha].
    rewrite append_cons. cbn [span]. rewrite Hc, (IH Ha). reflexivity.
Qed.

Lemma stops_app p a r :
  stops p r -> (a <> "" -> stops p a) -> stops p (a +:+ r).
Proof.
  intros Hr Ha. destruct a as [|c a]; [exact Hr|].
  rewrite append_cons. apply Ha. discriminate.
Qed.

Lemma trimStart_fixed_stops s : trimStart s = s -> stops is_ws s.
Proof.
  destruct s as [|c r]; simpl; [trivial|].
  destruct (is_ws c) eqn:Hc; [|trivial].
  intros E. exfalso.
  assert (Hlen : forall t, (String.length (trimStart t) <= String.length t)%nat).
  { induction t as [|d t IH]; simpl; [lia|].
    destruct (is_ws d); simpl; lia. }
  pose proof (Hlen r) as H. rewrite E in H. simpl in H. lia.
Qed.

Lemma trimStart_stops s : stops is_ws s -> trimStart s = s.
Proof. destruct s as [|c r]; simpl; [trivial|]. now intros ->. Qed.

Lemma trimStart_trimEnd s : trimStart (trimEnd s) = trimEnd (trimStart s).
Proof.
  induction s as [|c r IH]; [reflexivity|].
  cbn [trimStart]. destruct (is_ws c) eqn:Hc.
  - cbn [trimEnd]. rewrite Hc. cbn [andb].
    destruct (trimEnd r) eqn:E; cbn [is_empty].
    + rewrite <- IH. reflexivity.
    + cbn [trimStart]. rewrite Hc. rewrite <- IH. reflexivity.
  - cbn [trimEnd]. rewrite Hc. cbn [andb trimStart]. now rewrite Hc.
Qed.

Lemma trimStart_idem s : trimStart (trimStart s) = trimStart s.
Proof.
  induction s as [|c r IH]; [reflexivity|].
  simpl. destruct (is_ws c) eqn:Hc; [exact IH|]. simpl. now rewrite Hc.
Qed.

Lemma trim_fixed_stops s : trim s = s -> stops is_ws s.
Proof.
  intros E. apply trimStart_fixed_stops.
  rewrite <- E at 1. unfold trim.
  rewrite trimStart_trimEnd, trimStart_idem. exact E.
Qed.

Lemma trim_fixed_trimEnd s : trim s = s -> trimEnd s = s.
Proof.
  intros E. pose proof (trim_fixed_stops s E) as Hs.
  unfold trim in E. now rewrite (trimStart_stops s Hs) in E.
Qed.

End trim_facts.

(** ** Header cleaning *)

Lemma cleanHeaders_singleton h :
  cleanHeaders [h] = [stripDevicePrefix (trim h)].
Proof.
  unfold cleanHeaders. cbn [fold_left cleanHeaders_step].
  rewrite lookup_empty. reflexivity.
Qed.

Lemma stripDevicePrefix_tagged ds ws1 rest :
  ds <> "" -> all_chars is_digit ds = true -> all_chars is_ws ws1 = true ->
  stripDevicePrefix ("IOITSecure" +:+ ds +:+ ws1 +:+ ">" +:+ rest) =
  snd (span is_ws rest).
Proof.
  intros Hne Hds Hws1. unfold stripDevicePrefix.
  rewrite prefix_of_app.
  rewrite (span_app is_digit ds (ws1 +:+ ">" +:+ rest) Hds).
  - destruct ds as [|d ds]; [contradiction|]. cbn [is_empty].
    rewrite (span_app is_ws ws1 (">" +:+ rest) Hws1); [|reflexivity].
    reflexivity.
  - apply stops_app; [reflexivity|].
    destruct ws1 as [|c w]; [contradiction|]. intros _.
    simpl in Hws1. apply andb_prop in Hws1 as [Hc _].
    now apply ws_not_digit.
Qed.

Lemma prefix_of_Some p s q : prefix_of p s = Some q -> s = p +:+ q.
Proof.
  revert s. induction p as [|a p IH]; intros s.
  - destruct s; now intros [= <-].
  - destruct s as [|b s]; [discriminate|]. cbn [prefix_of].
    destruct (Ascii.eqb_spec a b) as [<-|]; [|discriminate].
    intros H. rewrite append_cons. now rewrite <- (IH _ H).
Qed.

Lemma span_decomp p s :
  s = (span p s).1 +:+ (span p s).2 /\ all_chars p (span p s).1 = true.
Proof.
  induction s as [|c r [IH1 IH2]]; [split; reflexivity|]. cbn [span].
  destruct (p c) eqn:Hc; [|split; reflexivity].
  destruct (span p r) as [a b]. cbn [fst snd] in *. split.
  - now rewrite append_cons, <- IH1.
  - cbn [all_chars]. now rewrite Hc.
Qed.

Lemma span_ws_trimStart s : (span is_ws s).2 = trimStart s.
Proof.
  induction s as [|c r IH]; [reflexivity|]. cbn [span trimStart].
  destruct (is_ws c); [|reflexivity].
  destruct (span is_ws r). exact IH.
Qed.

Lemma ascii_match_gt {T} (X Y : T) (c : ascii) :
  match c with ">"%char => X | _ => Y end = if Ascii.eqb c ">" then X else Y.
Proof. destruct c as [[] [] [] [] [] [] [] []]; reflexivity. Qed.

Lemma stripDevicePrefix_eq s :
  stripDevicePrefix s =
  match prefix_of "IOITSecure" s with
  | Some r =>
      let '(ds, r1) := span is_digit r in
      if is_empty ds then s
      else
        match (span is_ws r1).2 with
        | String c r2 => if Ascii.eqb c ">" then (span is_ws r2).2 else s
        | "" => s
        end
  | None => s
  end.
Proof.
  unfold stripDevicePrefix. destruct (prefix_of "IOITSecure" s); [|reflexivity].
  destruct (span is_digit s0) as [ds r1]. destruct (is_empty ds); [reflexivity|].
  destruct (span is_ws r1).2 as [|c r2]; [reflexivity|].
  apply ascii_match_gt.
Qed.

(** A name without the device prefix is left as it is. *)
Lemma stripDevicePrefix_other s :
  (forall rest, ~ hasDevicePrefix s rest) -> stripDevicePrefix s = s.
Proof.
  intros Hno. rewrite stripDevicePrefix_eq.
  destruct (prefix_of "IOITSecure" s) as [r|] eqn:Ep; [|reflexivity].
  apply prefix_of_Some in Ep.
  destruct (span_decomp is_digit r) as [Er Hds].
  destruct (span is_digit r) as [ds r1]. cbn [fst snd] in *.
  destruct (is_empty ds) eqn:Hne; [reflexivity|].
  destruct (span_decomp is_ws r1) as [Er1 Hws].
  destruct (span is_ws r1) as [w r2]. cbn [fst snd] in *.
  destruct r2 as [|c r3]; [reflexivity|].
  destruct (Ascii.eqb_spec c ">") as [->|_]; [|reflexivity].
  exfalso. apply (Hno r3). exists ds, w. repeat split; try assumption.
  - intros ->. discriminate.
  - rewrite Ep, Er, Er1. reflexivity.
Qed.

(** C9 (as the code has it).  The prefix that is stripped is the literal tag
    [IOITSecure] followed by one digit at least, optional white space, the
    separator [>] and optional white space; what follows it is the cleaned
    name.  A header that, once trimmed, does not start with this prefix is
    only trimmed. *)
Theorem C9_device_prefix (header : string) :
  (forall rest, hasDevicePrefix (trim header) rest ->
     cleanHeaders [header] = [trimStart rest]) /\
  ((forall rest, ~ hasDevicePrefix (trim header) rest) ->
     cleanHeaders [header] = [trim header]).
Proof.
  rewrite cleanHeaders_singleton. split.
  - intros rest (ds & ws1 & Hne & Hds & Hws & ->).
    rewrite stripDevicePrefix_tagged by assumption.
    now rewrite span_ws_trimStart.
  - intros Hno. now rewrite stripDevicePrefix_other.
Qed.

Lemma C9_device_prefix_witness :
  cleanHeaders ["IOITSecure447 > Voltage"] = ["Voltage"] /\
  cleanHeaders [" Sensor > IOITSecure447 > Voltage"] =
    ["Sensor > IOITSecure447 > Voltage"].
Proof.
  split.
  - apply (proj1 (C9_device_prefix "IOITSecure447 > Voltage") " Voltage").
    exists "447", " ". repeat split; (discriminate || reflexivity).
  - apply (proj2 (C9_device_prefix " Sensor > IOITSecure447 > Voltage")).
    intros rest (ds & ws1 & _ & _ & _ & E). vm_compute in E. discriminate E.
Defined.

(** C9 (as stated): a tag other than [IOITSecure] is not stripped. *)
Lemma C9_other_tag_kept :
  cleanHeaders ["Device123 > Voltage"] = ["Device123 > Voltage"] /\
  cleanHeaders ["Device123 > Voltage"] <> ["Voltage"].
Proof. split; [vm_compute; reflexivity|vm_compute; discriminate]. Qed.

(** ** The line tokenizer *)

Section tokenizer.

Lemma rawCells_nonempty b line : rawCells b line <> [].
Proof.
  revert b. induction line as [|c rest IH]; intros b; simpl; [discriminate|].
  destruct (Ascii.eqb c dquote).
  - specialize (IH (negb b)). destruct (rawCells (negb b) rest);
      [contradiction|discriminate].
  - destruct (Ascii.eqb c "," && negb b); [discriminate|].
    specialize (IH b). destruct (rawCells b rest); [contradiction|discriminate].
Qed.

Lemma removeQuotes_no_quote s : includes dquote (removeQuotes s) = false.
Proof.
  induction s as [|c r IH]; [reflexivity|]. simpl.
  destruct (Ascii.eqb c dquote) eqn:E; [exact IH|]. simpl. now rewrite E.
Qed.

Lemma dropTrailingQuote_no_quote s :
  includes dquote s = false -> dropTrailingQuote s = s.
Proof.
  induction s as [|c r IH]; [reflexivity|]. simpl.
  destruct (Ascii.eqb c dquote) eqn:E; [discriminate|].
  intros Hr. destruct r as [|d r]; [reflexivity|]. now rewrite (IH Hr).
Qed.

Lemma stripQuotes_no_quote s : includes dquote s = false -> stripQuotes s = s.
Proof.
  intros H. unfold stripQuotes.
  assert (dropLeadingQuote s = s) as ->.
  { destruct s as [|c r]; [reflexivity|]. simpl in *.
    now destruct (Ascii.eqb c dquote). }
  now apply dropTrailingQuote_no_quote.
Qed.

(** The loop, started in any state, in terms of the reference cells. *)
Lemma parseCSVLine_loop_rawCells line : forall result current inQuotes,
  parseCSVLine_loop line result current inQuotes =
  result ++ onHead (String.append current)
              (map removeQuotes (rawCells inQuotes line)).
Proof.
  induction line as [|c rest IH]; intros result current b.
  - simpl. now rewrite append_empty_r.
  - cbn [parseCSVLine_loop rawCells].
    destruct (Ascii.eqb c dquote) eqn:Eq.
    + rewrite IH. f_equal.
      pose proof (rawCells_nonempty (negb b) rest) as Hne.
      destruct (rawCells (negb b) rest) as [|h t]; [contradiction|].
      simpl. now rewrite Eq.
    + destruct (Ascii.eqb c "," && negb b) eqn:Ec.
      * rewrite IH, <- app_assoc. f_equal. simpl.
        rewrite append_empty_r.
        pose proof (rawCells_nonempty b rest) as Hne.
        destruct (rawCells b rest) as [|h t]; [contradiction|]. reflexivity.
      * rewrite IH. f_equal.
        pose proof (rawCells_nonempty b rest) as Hne.
        destruct (rawCells b rest) as [|h t]; [contradiction|].
        simpl. rewrite Eq. now rewrite append_assoc.
Qed.

End tokenizer.

(** C10 (as the code has it).  The tokenizer is a total function; it cuts the
    line at the commas met outside quotes, each double quote toggling the
    in-quotes state; and each returned cell is the text of its cell with every
    double quote removed, not only an enclosing pair, and then trimmed. *)
Theorem C10_tokenizer (line : string) :
  parseCSVLine line =
    map (fun cell => trim (removeQuotes cell)) (rawCells false line) /\
  length (parseCSVLine line) = length (rawCells false line) /\
  parseCSVLine line <> [].
Proof.
  assert (H : parseCSVLine line =
              map (fun cell => trim (removeQuotes cell)) (rawCells false line)).
  { unfold parseCSVLine. rewrite parseCSVLine_loop_rawCells.
    pose proof (rawCells_nonempty false line) as Hne.
    destruct (rawCells false line) as [|h t]; [contradiction|].
    cbn [app map onHead]. rewrite append_nil.
    rewrite stripQuotes_no_quote by apply removeQuotes_no_quote.
    f_equal. rewrite map_map. apply map_ext. intros cell.
    now rewrite stripQuotes_no_quote by apply removeQuotes_no_quote. }
  split; [exact H|]. split.
  - now rewrite H, length_map.
  - rewrite H. pose proof (rawCells_nonempty false line) as Hne.
    destruct (rawCells false line); [contradiction|discriminate].
Qed.

(** C10 (as stated): quotes inside a cell are removed too, so the cell is not
    its text with one enclosing pair of quotes stripped. *)
Lemma C10_inner_quotes_removed :
  let line := "a" +:+ dq +:+ "b" +:+ dq +:+ "c,d" in
  rawCells false line = ["a" +:+ dq +:+ "b" +:+ dq +:+ "c"; "d"] /\
  parseCSVLine line = ["abc"; "d"] /\
  parseCSVLine line <>
    map (fun cell => trim (stripEnclosingPair cell)) (rawCells false line).
Proof. vm_compute. repeat split; discriminate. Qed.

(** ** Lines and white space *)

Section line_facts.

Local Abbreviation LF := "010"%char.
Local Abbreviation count := (fun l => length (List.filter nonBlank l)).

Lemma count_cons_hd (l : list string) :
  l <> [] ->
  count l = ((if isBlank (hd "" l) then 0 else 1) + count (tl l))%nat.
Proof.
  destruct l as [|h t]; [contradiction|]. intros _. simpl.
  unfold nonBlank. destruct (isBlank h); reflexivity.
Qed.

Lemma nonBlankLines_cons_ws c r :
  is_ws c = true -> nonBlankLines (String c r) = nonBlankLines r.
Proof.
  intros Hc. unfold nonBlankLines. rewrite split_cons.
  destruct (Ascii.eqb c LF); [reflexivity|].
  rewrite (count_cons_hd (split LF r)) by apply split_nonempty.
  simpl. unfold nonBlank, isBlank. simpl. rewrite Hc. simpl.
  destruct (all_chars is_ws (hd "" (split LF r))); reflexivity.
Qed.

Lemma nonBlankLines_trimStart s : nonBlankLines (trimStart s) = nonBlankLines s.
Proof.
  induction s as [|c r IH]; [reflexivity|]. simpl.
  destruct (is_ws c) eqn:Hc; [|reflexivity].
  now rewrite nonBlankLines_cons_ws.
Qed.

Lemma all_ws_lines_blank w :
  all_chars is_ws w = true ->
  isBlank (hd "" (split LF w)) = true /\ count (tl (split LF w)) = 0%nat.
Proof.
  induction w as [|c r IH]; [now split|].
  intros [Hc Hr]%andb_prop. destruct (IH Hr) as [Hh Ht].
  rewrite split_cons. destruct (Ascii.eqb c LF).
  - split; [reflexivity|]. cbn [tl].
    rewrite (count_cons_hd (split LF r)) by apply split_nonempty.
    now rewrite Hh, Ht.
  - split; [|exact Ht]. cbn [hd]. unfold isBlank in *. simpl.
    now rewrite Hc, Hh.
Qed.

Lemma lines_app_ws x w :
  all_chars is_ws w = true ->
  isBlank (hd "" (split LF (x +:+ w))) = isBlank (hd "" (split LF x)) /\
  count (tl (split LF (x +:+ w))) = count (tl (split LF x)).
Proof.
  intros Hw. induction x as [|c x [IHh IHt]].
  - rewrite append_nil. destruct (all_ws_lines_blank w Hw) as [-> ->].
    now split.
  - rewrite append_cons, !split_cons. destruct (Ascii.eqb c LF).
    + split; [reflexivity|]. cbn [tl].
      rewrite (count_cons_hd (split LF (x +:+ w))) by apply split_nonempty.
      rewrite (count_cons_hd (split LF x)) by apply split_nonempty.
      now rewrite IHh, IHt.
    + split; [|exact IHt]. cbn [hd]. unfold isBlank in *. simpl.
      now rewrite IHh.
Qed.

Lemma trimEnd_decomp s :
  exists w, all_chars is_ws w = true /\ s = trimEnd s +:+ w.
Proof.
  induction s as [|c r (w & Hw & E)]; [now exists ""|].
  cbn [trimEnd]. destruct (is_ws c && is_empty (trimEnd r)) eqn:Hc.
  - apply andb_prop in Hc as [Hc He%is_empty_true].
    exists (String c r). split; [|reflexivity].
    simpl. rewrite Hc. now apply trimEnd_empty_all_ws.
  - exists w. split; [exact Hw|]. rewrite append_cons. now rewrite <- E.
Qed.

Lemma nonBlankLines_trimEnd s : nonBlankLines (trimEnd s) = nonBlankLines s.
Proof.
  destruct (trimEnd_decomp s) as (w & Hw & E).
  rewrite E at 2. unfold nonBlankLines.
  rewrite (count_cons_hd (split LF (trimEnd s))) by apply split_nonempty.
  rewrite (count_cons_hd (split LF (trimEnd s +:+ w))) by apply split_nonempty.
  destruct (lines_app_ws (trimEnd s) w Hw) as [-> ->]. reflexivity.
Qed.

Lemma nonBlankLines_trim s : nonBlankLines (trim s) = nonBlankLines s.
Proof.
  unfold trim. now rewrite nonBlankLines_trimEnd, nonBlankLines_trimStart.
Qed.

Lemma is_ws_LF : is_ws LF = true.
Proof. reflexivity. Qed.

Lemma not_ws_not_LF c : is_ws c = false -> Ascii.eqb c LF = false.
Proof.
  intros H. destruct (Ascii.eqb_spec c LF) as [->|]; [discriminate|reflexivity].
Qed.

Lemma last_line_nonBlank t :
  trimEnd t = t -> t <> "" -> isBlank (List.last (split LF t) "") = false.
Proof.
  induction t as [|c r IH]; [contradiction|]. intros E _.
  cbn [trimEnd] in E.
  destruct (is_ws c && is_empty (trimEnd r)) eqn:Hc; [discriminate|].
  injection E as E. rewrite E in Hc.
  destruct r as [|d r'].
  - simpl in Hc. rewrite andb_true_r in Hc.
    rewrite split_cons, (not_ws_not_LF _ Hc). simpl.
    unfold isBlank. simpl. now rewrite Hc.
  - specialize (IH E ltac:(discriminate)).
    rewrite split_cons.
    pose proof (split_nonempty LF (String d r')) as Hne.
    destruct (split LF (String d r')) as [|h t]; [contradiction|].
    destruct (Ascii.eqb c LF); [exact IH|].
    cbn [hd tl]. destruct t as [|h' t'].
    + simpl in *. unfold isBlank in *. simpl. rewrite IH.
      apply andb_false_r.
    + exact IH.
Qed.

Lemma count_last_pos (l : list string) :
  l <> [] -> isBlank (List.last l "") = false -> (1 <= count l)%nat.
Proof.
  induction l as [|a l IH]; [contradiction|]. intros _ Hl.
  destruct l as [|b l].
  - simpl in *. unfold nonBlank. rewrite Hl. simpl. lia.
  - specialize (IH ltac:(discriminate) Hl).
    change (List.filter nonBlank (a :: b :: l))
      with (if nonBlank a then a :: List.filter nonBlank (b :: l)
            else List.filter nonBlank (b :: l)).
    destruct (nonBlank a); simpl in *; lia.
Qed.

Lemma trimmed_lines_count t :
  trimStart t = t -> trimEnd t = t -> t <> "" ->
  (2 <= length (split LF t))%nat <-> (2 <= nonBlankLines t)%nat.
Proof.
  intros Hs He Hne. unfold nonBlankLines. split.
  - intros Hlen.
    pose proof (last_line_nonBlank t He Hne) as Hlast.
    destruct t as [|c r]; [contradiction|].
    pose proof (trimStart_fixed_stops _ Hs) as Hc. simpl in Hc.
    rewrite split_cons, (not_ws_not_LF _ Hc) in *.
    pose proof (split_nonempty LF r) as Hr.
    destruct (split LF r) as [|h more]; [contradiction|].
    cbn [hd tl] in *. destruct more as [|h' tl']; [simpl in Hlen; lia|].
    change (List.last (String c h :: h' :: tl') "")
      with (List.last (h' :: tl') "") in Hlast.
    pose proof (count_last_pos (h' :: tl') ltac:(discriminate) Hlast) as Hpos.
    change (List.filter nonBlank (String c h :: h' :: tl'))
      with (if nonBlank (String c h)
            then String c h :: List.filter nonBlank (h' :: tl')
            else List.filter nonBlank (h' :: tl')).
    unfold nonBlank at 1, isBlank. simpl all_chars. rewrite Hc.
    cbn [andb negb length]. cbv beta in Hpos. lia.
  - intros H. pose proof (filter_length nonBlank (split LF t)). lia.
Qed.

Lemma trim_trimStart_fixed s : trimStart (trim s) = trim s.
Proof. unfold trim. now rewrite trimStart_trimEnd, trimStart_idem. Qed.

Lemma trimEnd_idem s : trimEnd (trimEnd s) = trimEnd s.
Proof.
  induction s as [|c r IH]; [reflexivity|]. cbn [trimEnd].
  destruct (is_ws c && is_empty (trimEnd r)) eqn:Hc; [reflexivity|].
  cbn [trimEnd]. now rewrite IH, Hc.
Qed.

Lemma trim_trimEnd_fixed s : trimEnd (trim s) = trim s.
Proof. unfold trim. apply trimEnd_idem. Qed.

Lemma textLines_count csvText :
  trim csvText <> "" ->
  (length (textLines csvText) <? 2)%nat = (nonBlankLines csvText <? 2)%nat.
Proof.
  intros Hne. unfold textLines.
  pose proof (trimmed_lines_count (trim csvText)
                (trim_trimStart_fixed _) (trim_trimEnd_fixed _) Hne) as H.
  rewrite nonBlankLines_trim in H.
  destruct (Nat.ltb_spec (length (split LF (trim csvText))) 2);
    destruct (Nat.ltb_spec (nonBlankLines csvText) 2); lia.
Qed.

End line_facts.

(** ** Failure conditions of the entry point *)

Lemma parseCSV_cases csvText :
  parseCSV csvText =
    if isBlank csvText then Throw EmptyInputError
    else if (nonBlankLines csvText <? 2)%nat then Throw InsufficientRowsError
    else
      if detectCompoundFormat (nth 0 (textLines csvText) "")
           (nth 1 (textLines csvText) "")
      then parseCompoundCSV csvText
      else Ok (parseStandardCSV csvText).
Proof.
  unfold parseCSV. rewrite length_zero_empty.
  destruct (isBlank csvText) eqn:Hb.
  - apply trim_empty_iff in Hb. rewrite Hb. cbn [is_empty].
    now rewrite orb_true_r.
  - assert (Hne : trim csvText <> "").
    { intros E. apply trim_empty_iff in E. unfold isBlank in Hb. congruence. }
    assert (is_empty csvText || is_empty (trim csvText) = false) as ->.
    { destruct csvText; [now elim Hne|]. cbn [is_empty orb].
      destruct (trim _); [now elim Hne|reflexivity]. }
    rewrite textLines_count by exact Hne.
    destruct (Nat.ltb_spec (nonBlankLines csvText) 2) as [|Hge]; [reflexivity|].
    destruct (detectCompoundFormat _ _); [|reflexivity].
    assert (Hlen : (2 <= length (textLines csvText))%nat).
    { pose proof (textLines_count csvText Hne) as E.
      destruct (Nat.ltb_spec (length (textLines csvText)) 2);
        destruct (Nat.ltb_spec (nonBlankLines csvText) 2);
        (lia || discriminate). }
    destruct (parseCompoundCSV_two_lines _ Hlen) as (r & -> & _).
    reflexivity.
Qed.

Local Ltac settle_cases :=
  repeat split; intros;
  repeat match goal with
         | H : _ /\ _ |- _ => destruct H
         | H : exists _, _ |- _ => destruct H
         end;
  try discriminate; try congruence; try lia; eauto.

(** C3.  [parseCSV] throws the empty-input error exactly on a text with no
    content (empty or white space only); it throws the insufficient-rows
    error exactly on a text that has content and fewer than two lines holding
    anything but white space; on every other text it returns a result. *)
Theorem C3_parse_errors (csvText : string) :
  (parseCSV csvText = Throw EmptyInputError <-> isBlank csvText = true) /\
  (parseCSV csvText = Throw InsufficientRowsError <->
     isBlank csvText = false /\ (nonBlankLines csvText < 2)%nat) /\
  (isBlank csvText = false /\ (2 <= nonBlankLines csvText)%nat <->
     exists r, parseCSV csvText = Ok r).
Proof.
  rewrite parseCSV_cases.
  destruct (isBlank csvText) eqn:Hb.
  { settle_cases. }
  destruct (Nat.ltb_spec (nonBlankLines csvText) 2) as [Hlt|Hge].
  { settle_cases. }
  assert (Hok : exists r,
    (if detectCompoundFormat (nth 0 (textLines csvText) "")
          (nth 1 (textLines csvText) "")
     then parseCompoundCSV csvText
     else Ok (parseStandardCSV csvText)) = Ok r).
  { destruct (detectCompoundFormat _ _); [|eauto].
    assert (Hne : trim csvText <> "").
    { intros E. apply trim_empty_iff in E. unfold isBlank in Hb. congruence. }
    assert (Hlen : (2 <= length (textLines csvText))%nat).
    { pose proof (textLines_count csvText Hne) as E.
      destruct (Nat.ltb_spec (length (textLines csvText)) 2);
        destruct (Nat.ltb_spec (nonBlankLines csvText) 2);
        (lia || discriminate). }
    destruct (parseCompoundCSV_two_lines _ Hlen) as (r & -> & _). eauto. }
  destruct Hok as [r Hr]. rewrite Hr. settle_cases.
Qed.

(** ** The lines the format selection looks at *)

Section inspected_lines.

Local Abbreviation LF := "010"%char.

Lemma matches_app_ws l w :
  all_chars is_ws w = true ->
  matches_cell_with_semicolon (l +:+ w) = matches_cell_with_semicolon l.
Proof.
  intros Hw. induction l as [|c l IH].
  - rewrite append_nil. induction w as [|d w IHw]; [reflexivity|].
    cbn [all_chars] in Hw. apply andb_prop in Hw as [Hd Hw].
    cbn [matches_cell_with_semicolon].
    destruct (Ascii.eqb_spec d ";") as [->|_]; [discriminate Hd|].
    destruct (Ascii.eqb_spec d ",") as [->|_]; [discriminate Hd|].
    now apply IHw.
  - rewrite append_cons. cbn [matches_cell_with_semicolon]. now rewrite IH.
Qed.

Lemma matches_trimStart l :
  matches_cell_with_semicolon (trimStart l) = matches_cell_with_semicolon l.
Proof.
  induction l as [|c l IH]; [reflexivity|]. cbn [trimStart].
  destruct (is_ws c) eqn:Hc; [|reflexivity].
  cbn [matches_cell_with_semicolon].
  destruct (Ascii.eqb_spec c ";") as [->|_]; [discriminate Hc|].
  destruct (Ascii.eqb_spec c ",") as [->|_]; [discriminate Hc|].
  exact IH.
Qed.

Lemma split_ws_lines w :
  all_chars is_ws w = true ->
  List.Forall (fun l => all_chars is_ws l = true) (split LF w).
Proof.
  induction w as [|c w IH]; [repeat constructor|].
  cbn [all_chars]. intros [Hc Hw]%andb_prop. specialize (IH Hw).
  rewrite split_cons. destruct (Ascii.eqb c LF).
  - constructor; [reflexivity|exact IH].
  - pose proof (split_nonempty LF w) as Hne.
    destruct (split LF w) as [|l0 rest]; [contradiction|].
    inversion IH as [|? ? Hl0 Hrest]; subst. cbn [hd tl].
    constructor; [|exact Hrest]. cbn [all_chars]. now rewrite Hc, Hl0.
Qed.

(** White space appended to a text leaves each of its lines as it is, up to
    white space at the end of the line. *)
Lemma split_app_ws_nth w : all_chars is_ws w = true -> forall x k,
  (k < length (split LF x))%nat ->
  exists w', all_chars is_ws w' = true /\
    nth k (split LF (x +:+ w)) "" = nth k (split LF x) "" +:+ w'.
Proof.
  intros Hw. induction x as [|c x IH]; intros k Hk.
  - cbn in Hk. assert (k = 0%nat) as -> by lia.
    rewrite append_nil. cbn [split nth].
    pose proof (split_ws_lines w Hw) as Hall.
    pose proof (split_nonempty LF w) as Hne.
    destruct (split LF w) as [|l0 rest]; [contradiction|].
    inversion Hall; subst. exists l0. split; [assumption|reflexivity].
  - rewrite append_cons, !split_cons. rewrite split_cons in Hk.
    pose proof (split_nonempty LF x) as Hne.
    pose proof (split_nonempty LF (x +:+ w)) as Hne'.
    destruct (Ascii.eqb c LF).
    + destruct k as [|k]; [exists ""; now rewrite append_empty_r|].
      cbn [nth]. apply IH. cbn in Hk. lia.
    + destruct (split LF x) as [|l0 rest] eqn:Ex; [contradiction|].
      destruct (split LF (x +:+ w)) as [|l0' rest'] eqn:Ex'; [contradiction|].
      cbn [hd tl nth] in *. destruct k as [|k].
      * destruct (IH 0%nat ltac:(cbn; lia)) as (w' & Hw' & E).
        cbn [nth] in E. exists w'. split; [exact Hw'|].
        now rewrite E, append_cons.
      * destruct (IH (S k) ltac:(cbn in *; lia)) as (w' & Hw' & E).
        cbn [nth] in E. exists w'. auto.
Qed.

Lemma dropBlank_cons_ws c l0 rest :
  is_ws c = true ->
  hd "" (dropBlank (String c l0 :: rest)) =
    (if isBlank l0 then hd "" (dropBlank rest) else String c l0) /\
  tl (dropBlank (String c l0 :: rest)) = tl (dropBlank (l0 :: rest)).
Proof.
  intros Hc.
  assert (E : isBlank (String c l0) = isBlank l0).
  { unfold isBlank. cbn [all_chars]. now rewrite Hc. }
  cbn [dropBlank]. rewrite E. destruct (isBlank l0); split; reflexivity.
Qed.

(** Leading white space removed, the lines are those from the first line
    that is not blank on, and that line has lost its leading white space. *)
Lemma split_trimStart s :
  isBlank s = false ->
  split LF (trimStart s) =
    trimStart (hd "" (fromFirstLine s)) :: tl (fromFirstLine s).
Proof.
  unfold fromFirstLine, isBlank.
  induction s as [|c r IH]; [discriminate|].
  cbn [all_chars trimStart]. destruct (is_ws c) eqn:Hc.
  - cbn [andb]. intros Hr. rewrite (IH Hr), split_cons.
    destruct (Ascii.eqb c LF); [reflexivity|].
    pose proof (split_nonempty LF r) as Hne.
    destruct (split LF r) as [|l0 rest]; [contradiction|]. cbn [hd tl].
    destruct (dropBlank_cons_ws c l0 rest Hc) as [-> ->].
    cbn [dropBlank]. destruct (isBlank l0); [reflexivity|].
    cbn [hd tl trimStart]. now rewrite Hc.
  - intros _. rewrite split_cons.
    rewrite (not_ws_not_LF _ Hc).
    assert (Hnb : isBlank (String c (hd "" (split LF r))) = false).
    { unfold isBlank. cbn [all_chars]. now rewrite Hc. }
    cbn [dropBlank]. rewrite Hnb. cbn [hd tl trimStart]. now rewrite Hc.
Qed.

Lemma fromFirstLine_nonempty s : isBlank s = false -> fromFirstLine s <> [].
Proof.
  intros Hb E. pose proof (split_trimStart s Hb) as H. rewrite E in H.
  cbn [hd tl trimStart] in H.
  assert (Ht : trimStart s = "").
  { destruct (trimStart s) as [|c t]; [reflexivity|].
    rewrite split_cons in H. destruct (Ascii.eqb c LF).
    - injection H as H. now apply split_nonempty in H.
    - discriminate H. }
  unfold isBlank in Hb. rewrite all_ws_trimStart, Ht in Hb. discriminate.
Qed.

(** The two lines the detector is given hold a semicolon in their first
    cell exactly when the first line that is not blank and the line after
    it do. *)
Lemma inspected_lines s k :
  isBlank s = false -> (k < length (textLines s))%nat -> (k < 2)%nat ->
  matches_cell_with_semicolon (nth k (textLines s) "") =
  hasSemicolonCell (nth k (fromFirstLine s) "").
Proof.
  intros Hb Hk Hk2. unfold textLines, trim in *.
  destruct (trimEnd_decomp (trimStart s)) as (w & Hw & E).
  destruct (split_app_ws_nth w Hw _ k Hk) as (w' & Hw' & En).
  rewrite <- E, (split_trimStart s Hb) in En.
  rewrite <- (matches_app_ws _ w' Hw'), <- En.
  unfold hasSemicolonCell. fold (firstCommaCell (nth k (fromFirstLine s) "")).
  rewrite <- matches_cell_first_cell.
  pose proof (fromFirstLine_nonempty s Hb) as Hne.
  destruct (fromFirstLine s) as [|l0 rest]; [contradiction|]. cbn [hd tl].
  destruct k as [|[|k]]; [apply matches_trimStart|reflexivity|lia].
Qed.

End inspected_lines.

(** C4 (as the code has it).  On a text it accepts, [parseCSV] returns what
    the compound parser returns exactly when the first comma-delimited cell
    of the first line that is not blank and the first comma-delimited cell of
    the line right after it, blank or not, both contain a semicolon, and what
    the standard parser returns otherwise. *)
Theorem C4_format_selection (csvText : string) (r : ParsedCSVResult) :
  parseCSV csvText = Ok r ->
  let inspected := fromFirstLine csvText in
  let both :=
    hasSemicolonCell (nth 0 inspected "")
    && hasSemicolonCell (nth 1 inspected "") in
  (both = true ->
     parseCompoundCSV csvText = Ok r /\ originalFormat r = "compound") /\
  (both = false ->
     r = parseStandardCSV csvText /\ originalFormat r = "standard").
Proof.
  intros Hparse inspected both.
  assert (Hsel : parseCSV csvText =
                 if both then parseCompoundCSV csvText
                 else Ok (parseStandardCSV csvText)).
  { rewrite parseCSV_cases in *.
    destruct (isBlank csvText) eqn:Hb; [discriminate|].
    destruct (Nat.ltb_spec (nonBlankLines csvText) 2) as [|Hge];
      [discriminate|].
    assert (Hne : trim csvText <> "").
    { intros E. apply trim_empty_iff in E. unfold isBlank in Hb. congruence. }
    assert (Hlen : (2 <= length (textLines csvText))%nat).
    { pose proof (textLines_count csvText Hne) as E.
      destruct (Nat.ltb_spec (length (textLines csvText)) 2);
        destruct (Nat.ltb_spec (nonBlankLines csvText) 2);
        (lia || discriminate). }
    unfold detectCompoundFormat, both, inspected.
    now rewrite !inspected_lines by (assumption || lia). }
  rewrite Hsel in Hparse. split; intros Hb; rewrite Hb in Hparse.
  - split; [exact Hparse|]. unfold parseCompoundCSV in Hparse.
    destruct (length (textLines csvText) <? 2)%nat; [discriminate|].
    now injection Hparse as <-.
  - injection Hparse as <-. split; reflexivity.
Qed.

Lemma C4_format_selection_witness :
  let csvText := nl +:+ " a;b,c" +:+ nl +:+ "1;2,3" +:+ nl in
  fromFirstLine csvText = [" a;b,c"; "1;2,3"; ""] /\
  exists r, parseCSV csvText = Ok r /\ parseCompoundCSV csvText = Ok r /\
            originalFormat r = "compound".
Proof.
  intros csvText. split; [reflexivity|]. eexists.
  split; [vm_compute; reflexivity|].
  apply (C4_format_selection csvText _ eq_refl). reflexivity.
Defined.

(** C4 (as stated): two lines are not enough for a selection when one of
    them is blank; the lines looked at are not the first two lines of the
    text when it starts with a blank line; and they are not the first two
    lines that are not blank when a blank line stands between them. *)
Lemma C4_lines_inspected :
  (length (split "010"%char ("x" +:+ nl +:+ " ")) = 2%nat /\
   parseCSV ("x" +:+ nl +:+ " ") = Throw InsufficientRowsError) /\
  (let text := nl +:+ "a;b" +:+ nl +:+ "1;2" in
   hasSemicolonCell (nth 0 (split "010"%char text) "") = false /\
   exists r, parseCSV text = Ok r /\ originalFormat r = "compound") /\
  (let text := "a;b" +:+ nl +:+ nl +:+ "1;2" in
   List.filter nonBlank (split "010"%char text) = ["a;b"; "1;2"] /\
   hasSemicolonCell "a;b" = true /\ hasSemicolonCell "1;2" = true /\
   exists r, parseCSV text = Ok r /\ originalFormat r = "standard").
Proof.
  split; [split; vm_compute; reflexivity|]. split.
  - split; [reflexivity|]. eexists. split; vm_compute; reflexivity.
  - repeat split; try reflexivity. eexists. split; vm_compute; reflexivity.
Qed.

(** ** Assignments to a row *)

Section assignments.

Implicit Types (obj row : gmap string JsValue) (key h : string)
  (v x : JsValue) (pairs : list (string * JsValue)).

Lemma setProp_lookup_ne obj key v h :
  key <> h -> setProp obj key v !! h = obj !! h.
Proof.
  intros Hne. unfold setProp.
  destruct (obj !! key); [now apply lookup_insert_ne|].
  destruct (String.eqb key "__proto__"); [reflexivity|].
  now apply lookup_insert_ne.
Qed.

Lemma setProp_lookup_eq obj key v :
  key <> "__proto__" -> setProp obj key v !! key = Some v.
Proof.
  intros Hne. unfold setProp.
  destruct (obj !! key); [apply lookup_insert_eq|].
  destruct (String.eqb_spec key "__proto__"); [contradiction|].
  apply lookup_insert_eq.
Qed.

Lemma setProp_lookup_own obj key v :
  is_Some (obj !! key) -> setProp obj key v !! key = Some v.
Proof.
  intros [x Hx]. unfold setProp. rewrite Hx. apply lookup_insert_eq.
Qed.

Lemma setProp_proto obj v :
  obj !! "__proto__" = None -> setProp obj "__proto__" v = obj.
Proof. intros H. unfold setProp. now rewrite H. Qed.

Lemma setProp_lookup_Some obj key v h x :
  setProp obj key v !! h = Some x -> (h = key /\ x = v) \/ obj !! h = Some x.
Proof.
  destruct (decide (key = h)) as [->|Hne].
  - unfold setProp. destruct (obj !! h) eqn:E.
    + rewrite lookup_insert_eq. intros [= <-]. now left.
    + destruct (String.eqb h "__proto__").
      * rewrite E. discriminate.
      * rewrite lookup_insert_eq. intros [= <-]. now left.
  - rewrite setProp_lookup_ne by exact Hne. auto.
Qed.

Lemma setProp_is_Some obj key v h :
  is_Some (setProp obj key v !! h) <->
  is_Some (obj !! h) \/ (h = key /\ key <> "__proto__").
Proof.
  destruct (decide (key = h)) as [->|Hne].
  - destruct (obj !! h) as [y|] eqn:E.
    + rewrite setProp_lookup_own by eauto. split; eauto.
    + destruct (String.eqb_spec h "__proto__") as [->|Hp].
      * rewrite setProp_proto by exact E. rewrite E. split.
        -- intros [y Hy]. discriminate.
        -- intros [[y Hy]|[_ H]]; [discriminate|now elim H].
      * rewrite setProp_lookup_eq by exact Hp. split; eauto.
  - rewrite setProp_lookup_ne by exact Hne. split; [auto|].
    intros [H|[E _]]; [exact H|]. now elim Hne.
Qed.

Lemma size_setProp_le obj key v : (size (setProp obj key v) <= S (size obj))%nat.
Proof.
  assert (Hins : (size (<[key := v]> obj) <= S (size obj))%nat).
  { destruct (obj !! key) as [y|] eqn:E.
    - rewrite <- (insert_delete_id obj key y E) at 2.
      rewrite <- (insert_delete_eq obj).
      rewrite !map_size_insert_None by apply lookup_delete_eq. lia.
    - rewrite map_size_insert_None by exact E. lia. }
  unfold setProp. destruct (obj !! key); [exact Hins|].
  destruct (String.eqb key "__proto__"); [lia|exact Hins].
Qed.

Lemma assignPairs_cons row h v pairs :
  assignPairs row ((h, v) :: pairs) = assignPairs (setProp row h v) pairs.
Proof. reflexivity. Qed.

Lemma assignPairs_app row p1 p2 :
  assignPairs row (p1 ++ p2) = assignPairs (assignPairs row p1) p2.
Proof. apply fold_left_app. Qed.

Lemma assignPairs_other pairs : forall row h,
  ~ In h (map fst pairs) -> assignPairs row pairs !! h = row !! h.
Proof.
  induction pairs as [|[k v] pairs IH]; intros row h Hh; [reflexivity|].
  rewrite assignPairs_cons.
  rewrite IH by (intros H; apply Hh; now right).
  apply setProp_lookup_ne. intros ->. apply Hh. now left.
Qed.

Lemma assignPairs_proto pairs : forall row,
  row !! "__proto__" = None -> assignPairs row pairs !! "__proto__" = None.
Proof.
  induction pairs as [|[k v] pairs IH]; intros row Hrow; [exact Hrow|].
  rewrite assignPairs_cons.
  apply IH. destruct (decide (k = "__proto__")) as [->|Hne].
  - now rewrite setProp_proto.
  - now rewrite setProp_lookup_ne.
Qed.

Lemma assignPairs_last row p1 p2 h v :
  h <> "__proto__" -> ~ In h (map fst p2) ->
  assignPairs row (p1 ++ (h, v) :: p2) !! h = Some v.
Proof.
  intros Hp Hh. rewrite assignPairs_app, assignPairs_cons.
  rewrite assignPairs_other by exact Hh. now apply setProp_lookup_eq.
Qed.

Lemma assignPairs_lookup_Some pairs : forall row h x,
  assignPairs row pairs !! h = Some x -> row !! h = Some x \/ In (h, x) pairs.
Proof.
  induction pairs as [|[k v] pairs IH]; intros row h x H; [now left|].
  rewrite assignPairs_cons in H.
  apply IH in H as [H|H]; [|right; now right].
  apply setProp_lookup_Some in H as [[-> ->]|H]; [right; now left|now left].
Qed.

Lemma assignPairs_is_Some pairs : forall row h,
  row !! "__proto__" = None ->
  is_Some (assignPairs row pairs !! h) <->
  is_Some (row !! h) \/ (h <> "__proto__" /\ In h (map fst pairs)).
Proof.
  induction pairs as [|[k v] pairs IH]; intros row h Hrow.
  - cbn. split; [auto|]. intros [H|[_ []]]. exact H.
  - rewrite assignPairs_cons.
    rewrite IH, setProp_is_Some; cbn [map fst In].
    + split.
      * intros [[H|[-> Hk]]|[Hp H]]; auto.
      * intros [H|[Hp [->|H]]]; auto.
    + destruct (decide (k = "__proto__")) as [->|Hne].
      * now rewrite setProp_proto.
      * now rewrite setProp_lookup_ne.
Qed.

Lemma zip_nil_r {A B} (l : list A) : zip l (@nil B) = [].
Proof. now destruct l. Qed.

Lemma In_zip_fst (hs : list string) (vs : list JsValue) h :
  In h (map fst (zip hs vs)) <->
  exists i, (i < length vs)%nat /\ hs !! i = Some h.
Proof.
  revert vs. induction hs as [|h0 hs IH]; intros vs.
  - cbn. split; [intros []|]. intros (i & _ & Hi). now rewrite lookup_nil in Hi.
  - destruct vs as [|v vs].
    + cbn. split; [intros []|]. intros (i & Hlt & _). lia.
    + cbn [zip zip_with map fst In]. fold (zip hs vs). rewrite IH. split.
      * intros [<-|(i & Hlt & Hi)].
        -- exists 0%nat. split; [cbn; lia|reflexivity].
        -- exists (S i). split; [cbn; lia|exact Hi].
      * intros ([|i] & Hlt & Hi).
        -- left. now injection Hi.
        -- right. exists i. split; [cbn in Hlt; lia|exact Hi].
Qed.

Lemma assignPairs_zip_at row (hs : list string) (vs : list JsValue) j h v :
  hs !! j = Some h -> vs !! j = Some v -> h <> "__proto__" ->
  (forall j', (j < j')%nat -> hs !! j' = Some h -> vs !! j' = None) ->
  assignPairs row (zip hs vs) !! h = Some v.
Proof.
  intros Hh Hv Hp Hlast.
  assert (Hz : zip hs vs !! j = Some (h, v)).
  { now apply lookup_zip_Some. }
  rewrite <- (take_drop_middle _ _ _ Hz).
  apply assignPairs_last; [exact Hp|].
  intros Hin. apply in_map_iff in Hin as ([h' v'] & E & Hin). cbn in E. subst h'.
  apply list_elem_of_In, list_elem_of_lookup in Hin as [k Hk].
  rewrite lookup_drop in Hk. apply lookup_zip_Some in Hk as [Ha Hb].
  rewrite (Hlast (S j + k)%nat) in Hb by (lia || exact Ha). discriminate.
Qed.

Lemma hasKeys_is_Some row h : is_Some (row !! h) -> hasKeys row = true.
Proof.
  intros [x Hx]. unfold hasKeys. apply Nat.ltb_lt.
  destruct (decide (size row = 0%nat)) as [E|]; [|lia].
  apply map_size_empty_iff in E. subst row.
  rewrite lookup_empty in Hx. discriminate.
Qed.

Lemma hasKeys_iff row : hasKeys row = true <-> exists h, is_Some (row !! h).
Proof.
  split.
  - unfold hasKeys. intros H%Nat.ltb_lt.
    destruct (map_choose row) as (h & x & Hx).
    + intros ->. rewrite map_size_empty in H. lia.
    + exists h. eauto.
  - intros [h Hh]. now apply (hasKeys_is_Some _ h).
Qed.

(** A row built by assignments has an entry as soon as one of the names
    assigned is not the reserved one. *)
Lemma hasKeys_assignPairs pairs :
  hasKeys (assignPairs ∅ pairs) =
  existsb (fun hv => negb (String.eqb hv.1 "__proto__")) pairs.
Proof.
  apply eq_true_iff_eq. rewrite hasKeys_iff, existsb_exists. split.
  - intros [h Hh]. apply assignPairs_is_Some in Hh; [|apply lookup_empty].
    destruct Hh as [[x Hx]|[Hp Hin]]; [now rewrite lookup_empty in Hx|].
    apply in_map_iff in Hin as ([h' v] & E & Hin). cbn in E. subst h'.
    exists (h, v). split; [exact Hin|]. cbn.
    now destruct (String.eqb_spec h "__proto__").
  - intros ([h v] & Hin & Hp). cbn in Hp. exists h.
    apply assignPairs_is_Some; [apply lookup_empty|]. right. split.
    + intros ->. discriminate.
    + apply in_map_iff. now exists (h, v).
Qed.

End assignments.

(** ** Rows of the standard parser *)

Section standard_rows.

Implicit Types (headers values : list string) (row : gmap string JsValue).

(** The row of a line assigns the coerced cells to the headers by position. *)
Lemma standardRow_loop_pairs headers : forall i values row,
  standardRow_loop headers i values row =
  assignPairs row (zip headers (map coerce (drop i values))).
Proof.
  induction headers as [|header rest IH]; intros i values row; [reflexivity|].
  cbn [standardRow_loop]. rewrite IH.
  destruct (values !! i) as [value|] eqn:Hv.
  - now rewrite (drop_S _ _ _ Hv).
  - apply lookup_ge_None in Hv.
    rewrite (drop_ge values i), (drop_ge values (S i)) by lia.
    cbn [map]. now rewrite zip_nil_r.
Qed.

Lemma standardRow_pairs headers values :
  standardRow headers values =
  assignPairs ∅ (zip headers (map coerce values)).
Proof. unfold standardRow. now rewrite standardRow_loop_pairs, drop_0. Qed.

Lemma standardRow_is_Some headers values h :
  is_Some (standardRow headers values !! h) <->
  h <> "__proto__" /\
  exists i, (i < length values)%nat /\ headers !! i = Some h.
Proof.
  rewrite standardRow_pairs, assignPairs_is_Some by apply lookup_empty.
  rewrite In_zip_fst, length_map. split.
  - intros [[x Hx]|H]; [now rewrite lookup_empty in Hx|exact H].
  - auto.
Qed.

Lemma parseCSVLine_length_pos line : (0 < length (parseCSVLine line))%nat.
Proof.
  unfold parseCSVLine. rewrite length_map, parseCSVLine_loop_rawCells.
  pose proof (rawCells_nonempty false line) as Hne.
  destruct (rawCells false line); [contradiction|]. simpl. lia.
Qed.

Lemma standardRow_hasKeys headers line :
  hd "__proto__" headers <> "__proto__" ->
  hasKeys (standardRow headers (parseCSVLine line)) = true.
Proof.
  intros Hne. destruct headers as [|h rest]; [now elim Hne|]. cbn in Hne.
  apply (hasKeys_is_Some _ h), standardRow_is_Some. split; [exact Hne|].
  exists 0%nat. split; [apply parseCSVLine_length_pos|reflexivity].
Qed.

Lemma filter_all_true {A} (f : A -> bool) (l : list A) :
  (forall x, In x l -> f x = true) -> List.filter f l = l.
Proof.
  induction l as [|a l IH]; intros H; [reflexivity|]. simpl.
  rewrite (H a) by (now left). f_equal. apply IH. intros x Hx. apply H.
  now right.
Qed.

Lemma parseStandardCSV_headers_nonempty csvText :
  headers (parseStandardCSV csvText) <> [].
Proof.
  unfold parseStandardCSV. cbn [headers].
  pose proof (split_nonempty "," (hd "" (textLines csvText))) as Hne.
  destruct (split "," (hd "" (textLines csvText))); [contradiction|].
  discriminate.
Qed.

(** Every data line gives a row when the first header is not the reserved
    name. *)
Lemma parseStandardCSV_data csvText :
  hd "__proto__" (headers (parseStandardCSV csvText)) <> "__proto__" ->
  data (parseStandardCSV csvText) =
  map (fun line =>
         standardRow (headers (parseStandardCSV csvText)) (parseCSVLine line))
      (tl (textLines csvText)).
Proof.
  intros Hne. unfold parseStandardCSV in *. cbn [data headers] in *.
  apply filter_all_true. intros row Hin.
  apply in_map_iff in Hin as (line & <- & _).
  now apply standardRow_hasKeys.
Qed.

Lemma parseStandardCSV_row csvText row :
  In row (data (parseStandardCSV csvText)) ->
  exists line, In line (tl (textLines csvText)) /\
    row = standardRow (headers (parseStandardCSV csvText)) (parseCSVLine line).
Proof.
  unfold parseStandardCSV. cbn [data headers].
  intros [Hin _]%List.filter_In.
  apply in_map_iff in Hin as (line & <- & Hline). eauto.
Qed.

End standard_rows.

(** C2 (as the code has it).  The rows of the standard parser are the rows
    built from the data lines, in order, less the rows left without any
    entry; there is one row per data line when the first header is not the
    reserved name [__proto__].  The row of a line has an entry for a header
    exactly when the header is not [__proto__] and stands at an index below
    the number of cells of the line.  A header with no cell at its index
    (and at no other index it occupies) is absent from the row: it is not
    mapped to the empty string. *)
Theorem C2_standard_row_keys (csvText : string) :
  let r := parseStandardCSV csvText in
  let rowOf line := standardRow (headers r) (parseCSVLine line) in
  data r = List.filter hasKeys (map rowOf (tl (textLines csvText))) /\
  (hd "__proto__" (headers r) <> "__proto__" ->
   data r = map rowOf (tl (textLines csvText))) /\
  forall line h,
    is_Some (rowOf line !! h) <->
    h <> "__proto__" /\
    exists i, (i < length (parseCSVLine line))%nat /\ headers r !! i = Some h.
Proof.
  intros r rowOf. split; [reflexivity|]. split.
  - apply parseStandardCSV_data.
  - intros line h. apply standardRow_is_Some.
Qed.

Lemma C2_standard_row_keys_witness :
  let r := parseStandardCSV ("a,__proto__,b" +:+ nl +:+ "1,2") in
  let row := standardRow (headers r) (parseCSVLine "1,2") in
  data r = [row] /\
  is_Some (row !! "a") /\
  row !! "__proto__" = None /\
  row !! "b" = None.
Proof.
  intros r row.
  destruct (C2_standard_row_keys ("a,__proto__,b" +:+ nl +:+ "1,2"))
    as (_ & Hd & Hk).
  split; [|split; [|split]].
  - unfold r. rewrite Hd; [reflexivity|vm_compute; discriminate].
  - apply Hk. split; [discriminate|]. exists 0%nat. split; [|reflexivity].
    vm_compute. lia.
  - apply eq_None_not_Some. intros [Hp _]%Hk. now apply Hp.
  - apply eq_None_not_Some. intros [_ (i & Hi & Hh)]%Hk.
    change (length (parseCSVLine "1,2")) with 2%nat in Hi.
    destruct i as [|[|i]]; [discriminate Hh|discriminate Hh|lia].
Defined.

(** C2 (as stated): a short data line leaves the trailing header out. *)
Lemma C2_short_row_omits_key :
  let r := parseStandardCSV ("a,b" +:+ nl +:+ "1") in
  headers r = ["a"; "b"] /\
  data r = [ {[ "a" := VNum (NFin (Q2Qc 1)) ]} ] /\
  (forall row, In row (data r) -> row !! "b" = None) /\
  ~ (forall row, In row (data r) -> row !! "b" = Some (VStr "")).
Proof.
  assert (E : data (parseStandardCSV ("a,b" +:+ nl +:+ "1")) =
              [ {[ "a" := VNum (NFin (Q2Qc 1)) ]} ])
    by (vm_compute; reflexivity).
  cbv zeta. rewrite E. repeat split.
  - intros row [<-|[]]. reflexivity.
  - intros H. specialize (H _ (or_introl eq_refl)). discriminate.
Qed.

(** ** Header normalization *)

Section normalization.

Implicit Types (seen : gmap string nat) (earlier names : list string).

Lemma occurrences_snoc x l y :
  occurrences x (l ++ [y]) =
  (occurrences x l + if String.eqb y x then 1 else 0)%nat.
Proof.
  induction l as [|z l IH]; simpl; [lia|]. rewrite IH. lia.
Qed.

Lemma seen_counts_step seen earlier name :
  seen_counts seen earlier ->
  seen_counts (<[name := S (occurrences name earlier)]> seen)
              (earlier ++ [name]).
Proof.
  intros Inv x. rewrite occurrences_snoc.
  destruct (String.eqb_spec name x) as [->|Hne].
  - rewrite lookup_insert_eq.
    replace (occurrences x earlier + 1)%nat with (S (occurrences x earlier))
      by lia.
    reflexivity.
  - rewrite lookup_insert_ne by exact Hne. rewrite Nat.add_0_r. apply Inv.
Qed.

Lemma cleanHeaders_fold headers : forall cleaned seen earlier,
  seen_counts seen earlier ->
  fst (fold_left cleanHeaders_step headers (cleaned, seen)) =
  cleaned ++ dedupe_from earlier (map cleanName headers).
Proof.
  induction headers as [|h rest IH]; intros cleaned seen earlier Inv.
  - simpl. now rewrite app_nil_r.
  - cbn [fold_left map dedupe_from]. unfold cleanHeaders_step at 2.
    fold (cleanName h). rewrite (Inv (cleanName h)).
    destruct (Nat.eqb_spec (occurrences (cleanName h) earlier) 0) as [E|E].
    + rewrite (IH _ _ (earlier ++ [cleanName h])).
      * rewrite <- app_assoc. rewrite E. reflexivity.
      * pose proof (seen_counts_step seen earlier (cleanName h) Inv) as H.
        now rewrite E in H.
    + rewrite (IH _ _ (earlier ++ [cleanName h])).
      * rewrite <- app_assoc. cbn [app]. unfold render.
        rewrite Nat.add_1_r.
        destruct (Nat.eqb_spec (S (occurrences (cleanName h) earlier)) 1);
          [lia|reflexivity].
      * rewrite Nat.add_1_r. now apply seen_counts_step.
Qed.

Lemma cleanHeaders_normalizeSpec headers :
  cleanHeaders headers = normalizeSpec headers.
Proof.
  unfold cleanHeaders, normalizeSpec.
  rewrite (cleanHeaders_fold headers [] ∅ []); [reflexivity|].
  intros x. simpl. apply lookup_empty.
Qed.

Lemma dedupe_from_length earlier names :
  length (dedupe_from earlier names) = length names.
Proof.
  revert earlier. induction names as [|n r IH]; intros e; simpl; [|rewrite IH];
    reflexivity.
Qed.

(** Decimal numerals hold no space and determine their number. *)
Lemma string_of_uint_no_space d :
  includes " " (NilEmpty.string_of_uint d) = false.
Proof. induction d; simpl; auto. Qed.

Lemma string_of_nat_no_space k : includes " " (string_of_nat k) = false.
Proof. apply string_of_uint_no_space. Qed.

Lemma string_of_nat_inj k1 k2 : string_of_nat k1 = string_of_nat k2 -> k1 = k2.
Proof.
  unfold string_of_nat. intros E.
  assert (E' : Some (Nat.to_uint k1) = Some (Nat.to_uint k2)).
  { rewrite <- !NilEmpty.usu. now rewrite E. }
  injection E' as E'.
  rewrite <- (Unsigned.of_to k1), <- (Unsigned.of_to k2). now rewrite E'.
Qed.

Lemma includes_app_space u v : includes " " (u +:+ String " " v) = true.
Proof.
  induction u as [|c u IH]; [reflexivity|].
  rewrite append_cons. simpl. destruct (Ascii.eqb c " "); auto.
Qed.

Lemma suffix_after_space a b d1 d2 :
  includes " " d1 = false -> includes " " d2 = false ->
  a +:+ " " +:+ d1 = b +:+ " " +:+ d2 -> a = b /\ d1 = d2.
Proof.
  change (" " +:+ d1) with (String " " d1).
  change (" " +:+ d2) with (String " " d2).
  intros H1 H2. revert b. induction a as [|x a IH]; intros [|y b] E.
  - injection E as E. auto.
  - rewrite append_nil, append_cons in E. injection E as _ E.
    rewrite E, includes_app_space in H1. discriminate.
  - rewrite append_nil, append_cons in E. injection E as _ E.
    rewrite <- E, includes_app_space in H2. discriminate.
  - rewrite !append_cons in E. injection E as -> E.
    destruct (IH b E) as [-> ->]. auto.
Qed.

Lemma render_inj names a ka b kb :
  noCollision names -> In a names -> In b names ->
  (1 <= ka)%nat -> (1 <= kb)%nat ->
  render a ka = render b kb -> a = b /\ ka = kb.
Proof.
  intros Hnc Ha Hb Hka Hkb. unfold render.
  destruct (Nat.eqb_spec ka 1) as [->|Na];
    destruct (Nat.eqb_spec kb 1) as [->|Nb]; intros E.
  - auto.
  - exfalso. apply (Hnc a b kb Ha Hb ltac:(lia) E).
  - exfalso. symmetry in E. apply (Hnc b a ka Hb Ha ltac:(lia) E).
  - apply suffix_after_space in E as [-> E];
      try apply string_of_nat_no_space.
    split; [reflexivity|]. now apply string_of_nat_inj.
Qed.

Lemma dedupe_from_elem earlier names y :
  In y (dedupe_from earlier names) ->
  exists c k, In c names /\ (occurrences c earlier < k)%nat /\ y = render c k.
Proof.
  revert earlier. induction names as [|n r IH]; intros e; [intros []|].
  cbn [dedupe_from]. intros [<-|Hin].
  - exists n, (S (occurrences n e)). repeat split; [now left|lia].
  - destruct (IH _ Hin) as (c & k & Hc & Hk & ->).
    exists c, k. repeat split; [now right|].
    rewrite occurrences_snoc in Hk. lia.
Qed.

Lemma dedupe_from_NoDup all earlier names :
  noCollision all -> (forall c, In c names -> In c all) ->
  List.NoDup (dedupe_from earlier names).
Proof.
  intros Hnc. revert earlier.
  induction names as [|n r IH]; intros e Hsub; [constructor|].
  cbn [dedupe_from]. constructor.
  - intros Hin. apply dedupe_from_elem in Hin as (c & k & Hc & Hk & E).
    apply (render_inj all) in E as [-> <-]; try assumption; try lia.
    + rewrite occurrences_snoc, String.eqb_refl in Hk. lia.
    + apply Hsub. now left.
    + apply Hsub. now right.
  - apply IH. intros c Hc. apply Hsub. now right.
Qed.

End normalization.

(** The normalized list is the cleaned list with the k-th occurrence of a
    name rendered unchanged for [k = 1] and with a space and [k] appended for
    [k >= 2]; it has the length and the order of the raw list. *)
Lemma cleanHeaders_suffix_rule (raw : list string) :
  cleanHeaders raw = normalizeSpec raw /\
  length (cleanHeaders raw) = length raw.
Proof.
  rewrite cleanHeaders_normalizeSpec. unfold normalizeSpec. split;
    [reflexivity|].
  now rewrite dedupe_from_length, length_map.
Qed.

(** C5.  The normalizer returns a name twice when a raw header already
    reads as a suffixed name: the third header ["V 2"] is the very name the
    second occurrence of ["V"] is given.  In a compound text with these
    headers the two columns share one key of the row, and the value of the
    second column is lost. *)
Theorem C5_suffix_collision :
  cleanHeaders ["V"; "V"; "V 2"] = ["V"; "V 2"; "V 2"] /\
  ~ List.NoDup (cleanHeaders ["V"; "V"; "V 2"]) /\
  parseCSV ("V;V;V 2" +:+ nl +:+ "1;2;3") =
    Ok {| headers := ["V"; "V 2"; "V 2"];
          data := [ <["V 2" := VNum (NFin (Q2Qc 3))]>
                      {[ "V" := VNum (NFin (Q2Qc 1)) ]} ];
          isMultiMetric := true; originalFormat := "compound" |}.
Proof.
  assert (E : cleanHeaders ["V"; "V"; "V 2"] = ["V"; "V 2"; "V 2"])
    by (vm_compute; reflexivity).
  split; [exact E|]. split; [|vm_compute; reflexivity].
  rewrite E. intros H.
  inversion H as [|? ? _ H1]. inversion H1 as [|? ? Hnot _].
  apply Hnot. now left.
Qed.

(** ** Typed values *)

Section typed_values.

Implicit Types (headers values cells : list string)
  (row : gmap string JsValue) (vs : list JsValue).

Lemma coerce_rule value :
  coerce value =
    match parseFloat value with
    | NNaN => VStr value
    | n => VNum n
    end.
Proof. unfold coerce. now destruct (parseFloat value). Qed.

Lemma standardRow_lookup headers values h x :
  standardRow headers values !! h = Some x ->
  exists i value, headers !! i = Some h /\ values !! i = Some value
                  /\ x = coerce value.
Proof.
  rewrite standardRow_pairs. intros H.
  apply assignPairs_lookup_Some in H as [H|H];
    [now rewrite lookup_empty in H|].
  apply list_elem_of_In, list_elem_of_lookup in H as [i Hi].
  apply lookup_zip_Some in Hi as [Hh Hv].
  rewrite list_lookup_fmap in Hv.
  destruct (values !! i) as [value|] eqn:E; [|discriminate].
  injection Hv as <-. eauto.
Qed.

Lemma standardRow_at headers values j h value :
  headers !! j = Some h -> values !! j = Some value -> h <> "__proto__" ->
  (forall j', (j < j')%nat -> headers !! j' = Some h -> values !! j' = None) ->
  standardRow headers values !! h = Some (coerce value).
Proof.
  intros Hh Hv Hp Hlast. rewrite standardRow_pairs.
  apply (assignPairs_zip_at _ _ _ j); [exact Hh| |exact Hp|].
  - now rewrite list_lookup_fmap, Hv.
  - intros j' Hlt Hj'. now rewrite list_lookup_fmap, (Hlast j' Hlt Hj').
Qed.

Lemma fold_left_map_assign headers (f : string -> JsValue) (l : list string) :
  forall st,
  fold_left (fun st value => assignSlot headers st (f value)) l st =
  fold_left (assignSlot headers) (map f l) st.
Proof. induction l as [|x l IH]; intros st; [reflexivity|]. apply IH. Qed.

Lemma compoundCell_values headers st cellIndex cell :
  compoundCell headers st cellIndex cell =
  fold_left (assignSlot headers) (cellValues cellIndex cell) st.
Proof.
  unfold compoundCell, cellValues. destruct (includes ";" cell).
  - apply fold_left_map_assign.
  - reflexivity.
Qed.

Lemma compoundRow_loop_values headers cells : forall cellIndex st,
  compoundRow_loop headers cells cellIndex st =
  fold_left (assignSlot headers) (lineValues cellIndex cells) st.
Proof.
  induction cells as [|cell rest IH]; intros cellIndex st; [reflexivity|].
  cbn [compoundRow_loop lineValues].
  now rewrite IH, compoundCell_values, fold_left_app.
Qed.

Lemma assignSlot_fold_past headers vs : forall row k,
  headers !! k = None -> fold_left (assignSlot headers) vs (row, k) = (row, k).
Proof.
  induction vs as [|v vs IH]; intros row k Hk; [reflexivity|].
  cbn [fold_left]. unfold assignSlot at 2. rewrite Hk. now apply IH.
Qed.

(** The row of a line assigns its typed values to the headers by position. *)
Lemma assignSlot_fold_pairs headers vs : forall row k,
  (fold_left (assignSlot headers) vs (row, k)).1 =
  assignPairs row (zip (drop k headers) vs).
Proof.
  induction vs as [|v vs IH]; intros row k.
  - now rewrite zip_nil_r.
  - cbn [fold_left]. unfold assignSlot at 2.
    destruct (headers !! k) as [hk|] eqn:Hk.
    + rewrite IH, (drop_S _ _ _ Hk). reflexivity.
    + rewrite assignSlot_fold_past by exact Hk.
      apply lookup_ge_None in Hk. now rewrite drop_ge by lia.
Qed.

Lemma compoundRow_pairs headers cells :
  compoundRow headers cells =
  assignPairs ∅ (zip headers (lineValues 0 cells)).
Proof.
  unfold compoundRow.
  now rewrite compoundRow_loop_values, assignSlot_fold_pairs, drop_0.
Qed.

Lemma cellValues_typedFrom cellIndex cell x :
  In x (cellValues cellIndex cell) <-> typedFrom cellIndex cell x.
Proof.
  unfold cellValues, typedFrom. destruct (includes ";" cell).
  - rewrite in_map_iff. split.
    + intros (value & <- & Hin). left. eauto.
    + intros [(_ & value & Hin & ->)|[[=] _]]. eauto.
  - cbn [In]. split.
    + intros [<-|[]]. right. auto.
    + intros [[[=] _]|[_ ->]]. now left.
Qed.

Lemma lineValues_In x cells : forall k,
  In x (lineValues k cells) ->
  exists j cell, cells !! j = Some cell /\ In x (cellValues (k + j) cell).
Proof.
  induction cells as [|cell rest IH]; intros k; [intros []|].
  cbn [lineValues]. intros [H|H]%in_app_or.
  - exists 0%nat, cell. rewrite Nat.add_0_r. auto.
  - apply IH in H as (j & c & Hj & Hc). exists (S j), c.
    split; [exact Hj|]. now replace (k + S j)%nat with (S k + j)%nat by lia.
Qed.

Lemma compoundRow_lookup headers cells h x :
  compoundRow headers cells !! h = Some x ->
  In h headers /\
  exists cellIndex cell, cells !! cellIndex = Some cell /\
                         typedFrom cellIndex cell x.
Proof.
  rewrite compoundRow_pairs. intros H.
  apply assignPairs_lookup_Some in H as [H|H];
    [now rewrite lookup_empty in H|].
  apply list_elem_of_In, list_elem_of_lookup in H as [i Hi].
  apply lookup_zip_Some in Hi as [Hh Hv]. split.
  - apply list_elem_of_In. eapply list_elem_of_lookup_2. exact Hh.
  - assert (Hin : In x (lineValues 0 cells)).
    { apply list_elem_of_In. eapply list_elem_of_lookup_2. exact Hv. }
    apply lineValues_In in Hin as (j & cell & Hj & Hc).
    exists j, cell. split; [exact Hj|]. now apply cellValues_typedFrom.
Qed.

Lemma compoundRow_slot headers cells h x :
  compoundRow headers cells !! h = Some x ->
  exists j, headers !! j = Some h /\ lineValues 0 cells !! j = Some x.
Proof.
  rewrite compoundRow_pairs. intros H.
  apply assignPairs_lookup_Some in H as [H|H];
    [now rewrite lookup_empty in H|].
  apply list_elem_of_In, list_elem_of_lookup in H as [i Hi].
  apply lookup_zip_Some in Hi. eauto.
Qed.

Lemma compoundRow_at headers cells j h v :
  headers !! j = Some h -> lineValues 0 cells !! j = Some v ->
  h <> "__proto__" ->
  (forall j', (j < j')%nat -> headers !! j' = Some h ->
     lineValues 0 cells !! j' = None) ->
  compoundRow headers cells !! h = Some v.
Proof.
  intros Hh Hv Hp Hlast. rewrite compoundRow_pairs.
  now apply (assignPairs_zip_at _ _ _ j).
Qed.

Lemma compoundData_In headers lines row :
  In row (compoundData headers lines) ->
  exists line, In line lines /\
               row = compoundRow headers (parseCSVLine (trim line)).
Proof.
  induction lines as [|l rest IH]; [intros []|]. cbn [compoundData].
  assert (Hrest : In row (compoundData headers rest) ->
    exists line, In line (l :: rest) /\
                 row = compoundRow headers (parseCSVLine (trim line))).
  { intros H. destruct (IH H) as (line & Hin & E). exists line.
    split; [now right|exact E]. }
  destruct (is_empty (trim l)); [exact Hrest|].
  destruct (hasKeys _); [|exact Hrest].
  intros [<-|H]; [|auto]. exists l. split; [now left|reflexivity].
Qed.

(** The rows of the compound parser are those of the lines that are not
    blank, less the rows left without any entry. *)
Lemma compoundData_filter headers lines :
  compoundData headers lines =
  List.filter hasKeys
    (map (fun l => compoundRow headers (parseCSVLine (trim l)))
         (List.filter nonBlank lines)).
Proof.
  induction lines as [|l rest IH]; [reflexivity|].
  cbn [compoundData List.filter]. unfold nonBlank at 1, isBlank.
  destruct (all_chars is_ws l) eqn:Hb.
  - apply trim_empty_iff in Hb. rewrite Hb. exact IH.
  - assert (Ht : is_empty (trim l) = false).
    { destruct (is_empty (trim l)) eqn:E; [|reflexivity].
      apply is_empty_true, trim_empty_iff in E. congruence. }
    rewrite Ht. cbn [negb map List.filter].
    destruct (hasKeys _); now rewrite IH.
Qed.

End typed_values.

(** C6 (as the code has it).  The data rows are the rows of the data lines
    (in the compound format, of the data lines that are not blank), in
    order, less the rows left without any entry.  The cells of a line have
    typed values, in order: in the standard format [coerce] of each cell; in
    the compound format [coerce] of each trimmed semicolon-separated part of
    a comma-delimited cell and, for a comma-delimited cell without a
    semicolon, [coerce] of the trimmed cell, except that the first such cell
    of the line stays a string when it holds a slash, a colon or a hyphen.
    The row of a line holds the j-th typed value under the j-th header (the
    last of them when a header stands at several positions), it holds
    nothing else, and it holds nothing under the reserved name [__proto__].
    [coerce] gives the number [parseFloat] reads from the longest numeric
    prefix of the text, the infinities included, and the text itself only
    when [parseFloat] gives NaN. *)
Theorem C6_typed_values (csvText : string) (r : ParsedCSVResult) :
  parseCSV csvText = Ok r ->
  let compound := String.eqb (originalFormat r) "compound" in
  let dataLines :=
    if compound then List.filter nonBlank (tl (textLines csvText))
    else tl (textLines csvText) in
  let typed line :=
    if compound then lineValues 0 (parseCSVLine (trim line))
    else map coerce (parseCSVLine line) in
  exists rowOf : string -> gmap string JsValue,
    data r = List.filter hasKeys (map rowOf dataLines) /\
    forall line,
      (forall j h v,
         headers r !! j = Some h -> typed line !! j = Some v ->
         h <> "__proto__" ->
         (forall j', (j < j')%nat -> headers r !! j' = Some h ->
            typed line !! j' = None) ->
         rowOf line !! h = Some v) /\
      (forall h x, rowOf line !! h = Some x ->
         exists j, headers r !! j = Some h /\ typed line !! j = Some x) /\
      rowOf line !! "__proto__" = None.
Proof.
  intros Hparse. rewrite parseCSV_cases in Hparse.
  destruct (isBlank csvText); [discriminate|].
  destruct (nonBlankLines csvText <? 2)%nat; [discriminate|].
  destruct (detectCompoundFormat _ _).
  - unfold parseCompoundCSV in Hparse.
    destruct (length (textLines csvText) <? 2)%nat; [discriminate|].
    injection Hparse as <-. cbn [data headers originalFormat].
    cbv zeta. cbn [String.eqb Ascii.eqb Bool.eqb andb].
    set (hs := cleanHeaders _).
    exists (fun line => compoundRow hs (parseCSVLine (trim line))).
    split; [apply compoundData_filter|].
    intros line. split; [|split].
    + intros j h v Hh Hv Hp Hlast. now apply (compoundRow_at _ _ j).
    + intros h x. apply compoundRow_slot.
    + rewrite compoundRow_pairs. apply assignPairs_proto, lookup_empty.
  - injection Hparse as <-. cbn [data headers originalFormat parseStandardCSV].
    cbv zeta. cbn [String.eqb Ascii.eqb Bool.eqb andb].
    set (hs := map _ (split "," _)).
    exists (fun line => standardRow hs (parseCSVLine line)).
    split; [reflexivity|].
    intros line. split; [|split].
    + intros j h v Hh Hv Hp Hlast. rewrite list_lookup_fmap in Hv.
      destruct (parseCSVLine line !! j) as [value|] eqn:E; [|discriminate].
      injection Hv as <-. apply (standardRow_at _ _ j); auto.
      intros j' Hlt Hj'. specialize (Hlast j' Hlt Hj').
      rewrite list_lookup_fmap in Hlast.
      now destruct (parseCSVLine line !! j').
    + intros h x Hx. apply standardRow_lookup in Hx as (i & value & Hi & Hv & ->).
      exists i. split; [exact Hi|]. now rewrite list_lookup_fmap, Hv.
    + rewrite standardRow_pairs. apply assignPairs_proto, lookup_empty.
Qed.

Lemma C6_typed_values_witness :
  let csvText := "T;V,W" +:+ nl +:+ "1;x,2" +:+ nl +:+ "12:30,7" in
  exists r rowOf,
    parseCSV csvText = Ok r /\
    data r = List.filter hasKeys (map rowOf ["1;x,2"; "12:30,7"]) /\
    rowOf "12:30,7" !! "T" = Some (VStr "12:30") /\
    rowOf "12:30,7" !! "V" = Some (VNum (NFin (Q2Qc 7))) /\
    rowOf "1;x,2" !! "V" = Some (VStr "x").
Proof.
  intros csvText. eexists.
  destruct (C6_typed_values csvText _ eq_refl) as (rowOf & Hdata & Hrows).
  exists rowOf. split; [reflexivity|]. split; [exact Hdata|].
  split; [|split].
  - apply (proj1 (Hrows "12:30,7") 0%nat); [reflexivity|reflexivity|discriminate|].
    intros [|[|[|j']]] Hlt; (lia || discriminate).
  - apply (proj1 (Hrows "12:30,7") 1%nat); [reflexivity|reflexivity|discriminate|].
    intros [|[|[|j']]] Hlt; (lia || discriminate).
  - apply (proj1 (Hrows "1;x,2") 1%nat); [reflexivity|reflexivity|discriminate|].
    intros [|[|[|j']]] Hlt; (lia || discriminate).
Defined.

(** C6 (as stated): the number need not be finite, and the first column of
    a compound row is read as a number when it shares its comma-delimited
    cell with other values, whatever separators it holds. *)
Lemma C6_not_finite_and_first_column :
  (parseCSV ("a,b" +:+ nl +:+ "1,Infinity") =
     Ok {| headers := ["a"; "b"];
           data := [ <["b" := VNum (NInf false)]>
                       {[ "a" := VNum (NFin (Q2Qc 1)) ]} ];
           isMultiMetric := false; originalFormat := "standard" |} /\
   coerceFinite "Infinity" = VStr "Infinity" /\
   coerce "Infinity" <> coerceFinite "Infinity") /\
  (parseCSV ("T;V" +:+ nl +:+ "2025-01-01;5") =
     Ok {| headers := ["T"; "V"];
           data := [ <["V" := VNum (NFin (Q2Qc 5))]>
                       {[ "T" := VNum (NFin (Q2Qc 2025)) ]} ];
           isMultiMetric := true; originalFormat := "compound" |} /\
   hasDateSeparator "2025-01-01" = true).
Proof.
  repeat split; try (vm_compute; reflexivity). vm_compute. discriminate.
Qed.

(** ** Rounding of whole numbers *)

Section sums.

Lemma roundDouble_compat (q q' : Q) : q == q' -> roundDouble q = roundDouble q'.
Proof. intros E. unfold roundDouble. now rewrite (Qred_complete _ _ E). Qed.

Lemma Qred_inject_Z z : Qred (inject_Z z) = inject_Z z.
Proof. apply Qred_identity. simpl. apply Z.gcd_1_r. Qed.

(** A whole number below 2^53 is its own significand, shifted. *)
Lemma nearest_integer (p : positive) :
  (Zpos p < 2 ^ 53)%Z ->
  nearest (Zpos p) 1 =
    ((Zpos p * 2 ^ (52 - Z.log2 (Zpos p)))%Z, (Z.log2 (Zpos p) - 52)%Z).
Proof.
  intros Hlt. unfold nearest, binade, scaledLe.
  pose proof (Z.log2_nonneg (Zpos p)) as He0.
  assert (He : (Z.log2 (Zpos p) < 53)%Z) by (apply Z.log2_lt_pow2; lia).
  pose proof (Z.log2_spec (Zpos p) ltac:(lia)) as [Hlo _].
  change (Z.log2 1) with 0%Z. rewrite Z.sub_0_r.
  destruct (Z.leb_spec 0 (Z.log2 (Zpos p))) as [_|]; [|lia].
  rewrite Z.mul_1_l.
  destruct (Z.leb_spec (2 ^ Z.log2 (Zpos p)) (Zpos p)) as [_|]; [|lia].
  rewrite (Z.max_l (Z.log2 (Zpos p) - 52) (-1074)) by lia.
  rewrite (Z.max_r 0 (- (Z.log2 (Zpos p) - 52))) by lia.
  rewrite (Z.max_l 0 (Z.log2 (Zpos p) - 52)) by lia.
  replace (- (Z.log2 (Zpos p) - 52))%Z with (52 - Z.log2 (Zpos p))%Z by lia.
  change (1 * 2 ^ 0)%Z with 1%Z.
  rewrite Z.div_1_r, Z.mod_1_r. reflexivity.
Qed.

(** The whole numbers below 2^53 are binary64 numbers. *)
Lemma roundDouble_nat (n : nat) :
  (Z.of_nat n < 2 ^ 53)%Z ->
  roundDouble (inject_Z (Z.of_nat n)) = NFin (Q2Qc (inject_Z (Z.of_nat n))).
Proof.
  intros Hlt. unfold roundDouble. rewrite Qred_inject_Z.
  destruct (Z.of_nat n) as [|p|p] eqn:En; [reflexivity| |lia].
  cbn [Qnum Qden inject_Z]. unfold roundPos.
  rewrite nearest_integer by exact Hlt.
  pose proof (Z.log2_nonneg (Zpos p)) as He0.
  assert (He : (Z.log2 (Zpos p) < 53)%Z) by (apply Z.log2_lt_pow2; lia).
  set (k := (52 - Z.log2 (Zpos p))%Z).
  assert (Hk : (0 <= k)%Z) by (unfold k; lia).
  rewrite (Z.max_l 0 (Z.log2 (Zpos p) - 52)) by lia.
  replace (Z.max 0 (- (Z.log2 (Zpos p) - 52))) with k by (unfold k; lia).
  assert (Hpow : (0 < 2 ^ k)%Z) by (apply Z.pow_pos_nonneg; lia).
  destruct (Z.leb_spec (2 ^ 1024 * 2 ^ k) (Zpos p * 2 ^ k * 2 ^ 0)) as [Hle|_].
  { exfalso. rewrite Z.pow_0_r, Z.mul_1_r in Hle.
    apply Z.mul_le_mono_pos_r in Hle; [|exact Hpow].
    assert ((2 ^ 53 < 2 ^ 1024)%Z) by (apply Z.pow_lt_mono_r; lia). lia. }
  f_equal. apply Qc_is_canon. cbn [this Q2Qc].
  rewrite !Qred_correct. unfold Qeq. cbn [Qnum Qden inject_Z].
  rewrite Z2Pos.id by exact Hpow. rewrite Z.pow_0_r. lia.
Qed.

Lemma round2_nat (n : nat) :
  round2 (inject_Z (Z.of_nat n)) == inject_Z (Z.of_nat n).
Proof.
  unfold round2.
  assert (Hle : Qle_bool 0 (inject_Z (Z.of_nat n)) = true).
  { apply Qle_bool_iff. unfold Qle. simpl. lia. }
  rewrite Hle, Qabs_pos by (apply Qle_bool_iff; exact Hle).
  assert (Hfloor :
    Qfloor (inject_Z (Z.of_nat n) * inject_Z 100 + (1 # 2)) =
    (Z.of_nat n * 100)%Z).
  { unfold Qfloor, Qmult, Qplus, inject_Z. simpl.
    rewrite Z.mul_1_r.
    replace (Z.of_nat n * 100 * 2 + 1)%Z
      with (1 + (Z.of_nat n * 100) * 2)%Z by lia.
    rewrite Z.div_add by lia. reflexivity. }
  rewrite Hfloor. unfold Qeq. simpl. lia.
Qed.

(** [parseFloat(n.toFixed(2))] is [n] for a row count [n]. *)
Lemma toFixed2_count n :
  (Z.of_nat n < 2 ^ 53)%Z ->
  VNum (toFixed2 (NFin (Q2Qc (inject_Z (Z.of_nat n))))) = countValue n.
Proof.
  intros Hlt. unfold toFixed2, countValue. f_equal.
  cbn [this Q2Qc]. rewrite Qred_inject_Z.
  destruct (Qle_bool _ (Qabs _)); [reflexivity|].
  rewrite (roundDouble_compat _ _ (round2_nat n)). now apply roundDouble_nat.
Qed.

End sums.

(** ** Grouping *)

Section grouping.

Context {runtime : DateRuntime}.
Variables (xAxis : string) (yAxes : list string) (timeGrouping : TimeGrouping).

Implicit Types (row : gmap string JsValue) (grouped : list (string * Group))
  (vals : gmap string (list JsNumber)).

Lemma pushValues_lookup row column : forall ys vals,
  default [] (pushValues row ys vals !! column) =
  default [] (vals !! column) ++ pushed ys column row.
Proof.
  unfold pushValues, pushed.
  induction ys as [|y ys IH]; intros vals; cbn [fold_left flat_map].
  - now rewrite app_nil_r.
  - rewrite IH. rewrite app_assoc. f_equal.
    unfold observation.
    destruct (String.eqb_spec y column) as [->|Hne].
    + destruct (row !! column) as [[s|v]|]; try now rewrite app_nil_r.
      now rewrite lookup_insert_eq.
    + rewrite app_nil_r.
      destruct (row !! y) as [[s|v]|]; try reflexivity.
      now rewrite lookup_insert_ne.
Qed.

Lemma pushed_not_in column row ys :
  ~ In column ys -> pushed ys column row = [].
Proof.
  unfold pushed. induction ys as [|y ys IH]; intros Hn; [reflexivity|].
  cbn [flat_map]. destruct (String.eqb_spec y column) as [->|_].
  - exfalso. apply Hn. now left.
  - apply IH. intros H. apply Hn. now right.
Qed.

Lemma pushed_once column row ys :
  List.NoDup ys -> In column ys -> pushed ys column row = observation row column.
Proof.
  unfold pushed. induction 1 as [|y ys Hy Hnd IH]; intros Hin; [destruct Hin|].
  cbn [flat_map]. destruct (String.eqb_spec y column) as [->|Hne].
  - fold (pushed ys column row). rewrite pushed_not_in by exact Hy.
    apply app_nil_r.
  - destruct Hin as [E|Hin]; [contradiction|]. now apply IH.
Qed.

Lemma hasGroup_snoc key grouped group :
  hasGroup key (grouped ++ [(key, group)]) = true.
Proof.
  unfold hasGroup. rewrite existsb_app. cbn. rewrite String.eqb_refl.
  now rewrite !orb_true_r.
Qed.

Lemma updateGroup_allValues key f column extra : forall grouped,
  hasGroup key grouped = true ->
  (forall g, valuesOf (f g) column = valuesOf g column ++ extra) ->
  Permutation (allValues column (updateGroup key f grouped))
              (allValues column grouped ++ extra).
Proof.
  unfold allValues.
  induction grouped as [|[k g] rest IH]; intros Hhas Hf; [discriminate|].
  cbn [updateGroup]. cbn [hasGroup existsb fst] in Hhas.
  destruct (String.eqb k key) eqn:Hk; cbn [flat_map snd].
  - rewrite Hf, <- !app_assoc. apply Permutation_app_head, Permutation_app_comm.
  - rewrite <- app_assoc. apply Permutation_app_head. now apply IH.
Qed.

Lemma updateGroup_totalCount key f : forall grouped,
  hasGroup key grouped = true ->
  (forall g, rowCount (f g) = S (rowCount g)) ->
  totalCount (updateGroup key f grouped) = S (totalCount grouped).
Proof.
  unfold totalCount.
  induction grouped as [|[k g] rest IH]; intros Hhas Hf; [discriminate|].
  cbn [updateGroup]. cbn [hasGroup existsb fst] in Hhas.
  destruct (String.eqb k key) eqn:Hk; cbn [sum_list_with snd].
  - rewrite Hf. reflexivity.
  - rewrite IH by assumption. lia.
Qed.

Lemma valuesOf_pushValues g row column :
  valuesOf {| values := pushValues row yAxes (values g);
              rowCount := S (rowCount g); label := label g |} column =
  valuesOf g column ++ pushed yAxes column row.
Proof. unfold valuesOf. cbn [values]. apply pushValues_lookup. Qed.

Lemma addRow_allValues column grouped row :
  Permutation
    (allValues column (addRow xAxis yAxes timeGrouping grouped row))
    (allValues column grouped ++
       if timeParses xAxis row then pushed yAxes column row else []).
Proof.
  unfold addRow, timeParses.
  destruct (parseDate (row !! xAxis)) as [date|]; [|now rewrite app_nil_r].
  destruct (groupKeyLabel timeGrouping date) as [groupKey groupLabel].
  destruct (hasGroup groupKey grouped) eqn:Hhas.
  - apply updateGroup_allValues; [exact Hhas|].
    intros g. apply valuesOf_pushValues.
  - etransitivity.
    + apply updateGroup_allValues; [apply hasGroup_snoc|].
      intros g. apply valuesOf_pushValues.
    + unfold allValues. rewrite flat_map_app. cbn. now rewrite !app_nil_r.
Qed.

Lemma addRow_totalCount grouped row :
  totalCount (addRow xAxis yAxes timeGrouping grouped row) =
  (totalCount grouped + if timeParses xAxis row then 1 else 0)%nat.
Proof.
  unfold addRow, timeParses.
  destruct (parseDate (row !! xAxis)) as [date|]; [|lia].
  destruct (groupKeyLabel timeGrouping date) as [groupKey groupLabel].
  destruct (hasGroup groupKey grouped) eqn:Hhas.
  - rewrite updateGroup_totalCount; [lia|exact Hhas|reflexivity].
  - rewrite updateGroup_totalCount; [|apply hasGroup_snoc|reflexivity].
    unfold totalCount. rewrite sum_list_with_app. cbn. lia.
Qed.

Lemma fold_addRow_allValues column data : forall grouped,
  Permutation
    (allValues column (fold_left (addRow xAxis yAxes timeGrouping) data grouped))
    (allValues column grouped ++
       flat_map (fun row => if timeParses xAxis row
                            then pushed yAxes column row else []) data).
Proof.
  induction data as [|row data IH]; intros grouped; cbn [fold_left flat_map].
  - now rewrite app_nil_r.
  - rewrite IH, addRow_allValues. now rewrite <- app_assoc.
Qed.

Lemma fold_addRow_totalCount data : forall grouped,
  totalCount (fold_left (addRow xAxis yAxes timeGrouping) data grouped) =
  (totalCount grouped + length (List.filter (timeParses xAxis) data))%nat.
Proof.
  induction data as [|row data IH]; intros grouped; cbn [fold_left List.filter].
  - simpl. lia.
  - rewrite IH, addRow_totalCount.
    destruct (timeParses xAxis row); simpl; lia.
Qed.

Lemma fold_addRow_filter data : forall grouped,
  fold_left (addRow xAxis yAxes timeGrouping) data grouped =
  fold_left (addRow xAxis yAxes timeGrouping)
    (List.filter (timeParses xAxis) data) grouped.
Proof.
  induction data as [|row data IH]; intros grouped; [reflexivity|].
  cbn [fold_left List.filter]. destruct (timeParses xAxis row) eqn:Hp.
  - cbn [fold_left]. apply IH.
  - rewrite <- IH. f_equal. unfold addRow. unfold timeParses in Hp.
    now destruct (parseDate (row !! xAxis)).
Qed.

Lemma rowCount_le_totalCount grouped entry :
  In entry grouped -> (rowCount entry.2 <= totalCount grouped)%nat.
Proof.
  unfold totalCount. induction grouped as [|e rest IH]; [intros []|].
  cbn [sum_list_with]. intros [->|Hin]; [lia|]. specialize (IH Hin). lia.
Qed.

End grouping.

(** ** The rows of a bucket *)

Section buckets.

Context {runtime : DateRuntime}.
Variables (xAxis : string) (yAxes : list string) (timeGrouping : TimeGrouping).

Implicit Types (row : gmap string JsValue) (grouped : list (string * Group))
  (data : list (gmap string JsValue)).

Lemma hasGroup_In key grouped :
  hasGroup key grouped = true <-> In key (map fst grouped).
Proof.
  unfold hasGroup. rewrite existsb_exists, in_map_iff. split.
  - intros (e & He & Hk). apply String.eqb_eq in Hk. eauto.
  - intros (e & Hk & He). exists e. split; [exact He|].
    now apply String.eqb_eq.
Qed.

Lemma updateGroup_keys key f grouped :
  map fst (updateGroup key f grouped) = map fst grouped.
Proof.
  induction grouped as [|[k g] rest IH]; [reflexivity|].
  cbn [updateGroup]. destruct (String.eqb k key); cbn [map fst]; congruence.
Qed.

Lemma updateGroup_In key f grouped k g' :
  List.NoDup (map fst grouped) -> In (k, g') (updateGroup key f grouped) ->
  (k = key /\ exists g, In (k, g) grouped /\ g' = f g) \/
  (k <> key /\ In (k, g') grouped).
Proof.
  induction grouped as [|[k0 g0] rest IH]; [intros _ []|].
  cbn [map fst updateGroup]. intros Hnd. inversion Hnd as [|? ? Hk0 Hrest]; subst.
  destruct (String.eqb_spec k0 key) as [->|Hne].
  - intros [E|Hin].
    + injection E as <- <-. left. split; [reflexivity|].
      exists g0. split; [now left|reflexivity].
    + right. split; [|now right].
      intros ->. apply Hk0. apply in_map_iff. now exists (key, g').
  - intros [E|Hin].
    + injection E as <- <-. right. split; [exact Hne|now left].
    + destruct (IH Hrest Hin) as [(-> & g & Hg & ->)|[Hk Hg]].
      * left. split; [reflexivity|]. exists g. split; [now right|reflexivity].
      * right. split; [exact Hk|now right].
Qed.

Lemma NoDup_snoc {A} (l : list A) (x : A) :
  List.NoDup l -> ~ In x l -> List.NoDup (l ++ [x]).
Proof.
  induction 1 as [|y l Hy Hnd IH]; intros Hx.
  - repeat constructor. intros [].
  - cbn [app]. constructor.
    + intros Hin. apply in_app_or in Hin as [Hin|[->|[]]]; [contradiction|].
      apply Hx. now left.
    + apply IH. intros Hin. apply Hx. now right.
Qed.

Lemma contributing_snoc key data row :
  contributing xAxis timeGrouping key (data ++ [row]) =
  contributing xAxis timeGrouping key data ++
    match rowKey xAxis timeGrouping row with
    | Some k => if String.eqb k key then [row] else []
    | None => []
    end.
Proof.
  unfold contributing. rewrite List.filter_app. f_equal. cbn [List.filter].
  destruct (rowKey xAxis timeGrouping row) as [k|]; [|reflexivity].
  now destruct (String.eqb k key).
Qed.

Lemma groups_of_addRow data grouped row :
  groups_of xAxis yAxes timeGrouping data grouped ->
  groups_of xAxis yAxes timeGrouping (data ++ [row]) (addRow xAxis yAxes timeGrouping grouped row).
Proof.
  intros (Hnd & Hin & Hout). unfold addRow.
  assert (Hkey : rowKey xAxis timeGrouping row =
                 match parseDate (row !! xAxis) with
                 | Some date => Some (groupKeyLabel timeGrouping date).1
                 | None => None
                 end) by reflexivity.
  destruct (parseDate (row !! xAxis)) as [date|].
  2:{ split; [exact Hnd|split].
      - intros k g Hg. rewrite contributing_snoc, Hkey, app_nil_r.
        now apply Hin.
      - intros k Hk. rewrite contributing_snoc, Hkey, app_nil_r. auto. }
  destruct (groupKeyLabel timeGrouping date) as [groupKey groupLabel].
  cbn [fst] in Hkey.
  set (fresh := {| values := ∅; rowCount := 0; label := groupLabel |}).
  set (grouped1 := if hasGroup groupKey grouped then grouped
                   else grouped ++ [(groupKey, fresh)]).
  assert (H1 : groups_of xAxis yAxes timeGrouping data grouped1 /\ hasGroup groupKey grouped1 = true).
  { unfold grouped1. destruct (hasGroup groupKey grouped) eqn:Hhas.
    - split; [exact (conj Hnd (conj Hin Hout))|exact Hhas].
    - split; [|apply hasGroup_snoc]. split; [|split].
      + rewrite map_app. cbn [map fst]. apply NoDup_snoc; [exact Hnd|].
        intros Hk. apply hasGroup_In in Hk. congruence.
      + intros k g Hg.
        apply in_app_or in Hg as [Hg|[E|[]]]; [now apply Hin|].
        injection E as <- <-. rewrite (Hout _ Hhas). split; [reflexivity|].
        intros column. reflexivity.
      + intros k Hk. apply Hout. unfold hasGroup in *.
        rewrite existsb_app in Hk. now apply orb_false_elim in Hk as [Hk _]. }
  destruct H1 as [(Hnd1 & Hin1 & Hout1) Hhas1].
  split; [|split].
  - now rewrite updateGroup_keys.
  - intros k g Hg.
    apply updateGroup_In in Hg as [(-> & g0 & Hg0 & ->)|[Hne Hg]];
      [| |exact Hnd1].
    + rewrite contributing_snoc, Hkey, String.eqb_refl, length_app.
      cbn [rowCount length]. destruct (Hin1 _ _ Hg0) as [Hc Hv].
      split; [lia|]. intros column.
      rewrite flat_map_app, valuesOf_pushValues, Hv.
      cbn [flat_map]. now rewrite app_nil_r.
    + rewrite contributing_snoc, Hkey.
      destruct (String.eqb_spec groupKey k) as [->|_]; [contradiction|].
      rewrite app_nil_r. now apply Hin1.
  - intros k Hk.
    assert (Hk1 : hasGroup k grouped1 = false).
    { destruct (hasGroup k grouped1) eqn:E; [|reflexivity].
      apply hasGroup_In in E. rewrite <- (updateGroup_keys groupKey
        (fun group => {| values := pushValues row yAxes (values group);
                         rowCount := S (rowCount group);
                         label := label group |})) in E.
      apply hasGroup_In in E. congruence. }
    rewrite contributing_snoc, Hkey.
    destruct (String.eqb_spec groupKey k) as [->|_]; [congruence|].
    rewrite app_nil_r. now apply Hout1.
Qed.

Lemma groupRows_snoc data row :
  groupRows xAxis yAxes timeGrouping (data ++ [row]) =
  addRow xAxis yAxes timeGrouping (groupRows xAxis yAxes timeGrouping data) row.
Proof. unfold groupRows. now rewrite fold_left_app. Qed.

Lemma groups_of_groupRows data :
  groups_of xAxis yAxes timeGrouping data (groupRows xAxis yAxes timeGrouping data).
Proof.
  induction data as [|row data IH] using rev_ind.
  - split; [constructor|split]; [intros k g []|reflexivity].
  - rewrite groupRows_snoc. now apply groups_of_addRow.
Qed.

End buckets.

(** ** Output rows *)

Section output.

Context {runtime : DateRuntime}.

Lemma assignPairs_keeps pairs : forall (row : gmap string JsValue) h,
  is_Some (row !! h) -> is_Some (assignPairs row pairs !! h).
Proof.
  induction pairs as [|[k v] pairs IH]; intros row h Hs; [exact Hs|].
  rewrite assignPairs_cons. apply IH, setProp_is_Some. now left.
Qed.

Lemma in_split_last (x : string) l :
  In x l -> exists l1 l2, l = l1 ++ x :: l2 /\ ~ In x l2.
Proof.
  induction l as [|y l IH]; [intros []|].
  destruct (in_dec string_dec x l) as [Hin|Hnot].
  - intros _. destruct (IH Hin) as (l1 & l2 & -> & Hl2).
    exists (y :: l1), l2. split; [reflexivity|exact Hl2].
  - intros [->|Hin]; [|contradiction]. exists [], l. split; [reflexivity|exact Hnot].
Qed.

(** The assignments of one value per name, for the names of a list. *)
Lemma fold_setProp_pairs (F : string -> JsValue) ys :
  forall base : gmap string JsValue,
  fold_left (fun r y => setProp r y (F y)) ys base =
  assignPairs base (map (fun y => (y, F y)) ys).
Proof.
  induction ys as [|y ys IH]; intros base; [reflexivity|].
  cbn [fold_left map]. now rewrite assignPairs_cons, IH.
Qed.

Lemma fold_setProp_other (F : string -> JsValue) column ys
    (base : gmap string JsValue) :
  ~ In column ys ->
  fold_left (fun r y => setProp r y (F y)) ys base !! column = base !! column.
Proof.
  intros Hn. rewrite fold_setProp_pairs. apply assignPairs_other.
  now rewrite map_map, map_id.
Qed.

Lemma fold_setProp_lookup (F : string -> JsValue) column ys
    (base : gmap string JsValue) :
  In column ys -> column <> "__proto__" \/ is_Some (base !! column) ->
  fold_left (fun r y => setProp r y (F y)) ys base !! column = Some (F column).
Proof.
  intros Hin Hok. rewrite fold_setProp_pairs.
  destruct (in_split_last _ _ Hin) as (l1 & l2 & -> & Hl2).
  rewrite map_app. cbn [map].
  rewrite assignPairs_app, assignPairs_cons.
  rewrite assignPairs_other by (now rewrite map_map, map_id).
  destruct Hok as [Hp|Hown]; [now apply setProp_lookup_eq|].
  apply setProp_lookup_own. now apply assignPairs_keeps.
Qed.

Lemma fold_setProp_ignored (F : string -> JsValue) ys
    (base : gmap string JsValue) :
  base !! "__proto__" = None ->
  fold_left (fun r y => setProp r y (F y)) ys base !! "__proto__" = None.
Proof. intros Hb. rewrite fold_setProp_pairs. now apply assignPairs_proto. Qed.

(** The entry of an output row for a value column; the reserved name gets
    none, unless it is the time column too. *)
Lemma aggregatedRow_lookup xAxis yAxes method key group column :
  In column yAxes ->
  aggregatedRow xAxis yAxes method (key, group) !! column =
  if ignoredColumn xAxis column then None
  else Some (VNum (toFixed2 (aggregatedValue method group column))).
Proof.
  intros Hin. unfold aggregatedRow, ignoredColumn.
  destruct (String.eqb_spec column "__proto__") as [->|Hp]; cbn [andb].
  - destruct (String.eqb_spec xAxis "__proto__") as [->|Hx]; cbn [negb].
    + apply (fold_setProp_lookup
               (fun y => VNum (toFixed2 (aggregatedValue method group y))));
        [exact Hin|]. right.
      rewrite lookup_insert_ne by discriminate.
      rewrite lookup_singleton_eq. eauto.
    + apply (fold_setProp_ignored
               (fun y => VNum (toFixed2 (aggregatedValue method group y)))).
      rewrite lookup_insert_ne by discriminate.
      apply lookup_singleton_ne. exact Hx.
  - apply (fold_setProp_lookup
             (fun y => VNum (toFixed2 (aggregatedValue method group y))));
      [exact Hin|now left].
Qed.

Lemma insertBy_perm {A} (cmp : A -> A -> Z) x l :
  Permutation (insertBy cmp x l) (x :: l).
Proof.
  induction l as [|y l IH]; [reflexivity|]. cbn [insertBy].
  destruct (cmp x y <=? 0)%Z; [reflexivity|].
  rewrite IH. apply perm_swap.
Qed.

Lemma sortBy_perm {A} (cmp : A -> A -> Z) l : Permutation (sortBy cmp l) l.
Proof.
  induction l as [|x l IH]; [reflexivity|].
  cbn [sortBy fold_right]. fold (sortBy cmp l).
  rewrite insertBy_perm. now constructor.
Qed.

Lemma sortResult_cases xAxis yAxes timeGrouping
    (result : list (gmap string JsValue)) :
  match sortResult xAxis yAxes timeGrouping result with
  | Ok out => Permutation out result
  | Throw _ =>
      timeGrouping = weeks /\ In "_originalKey" yAxes /\
      (2 <= length result)%nat
  end.
Proof.
  destruct timeGrouping; cbn [sortResult]; try apply sortBy_perm;
    [reflexivity|].
  destruct (existsb (String.eqb "_originalKey") yAxes
            && (2 <=? length result)%nat) eqn:E; [|apply sortBy_perm].
  apply andb_prop in E as [He Hl]. split; [reflexivity|]. split.
  - apply existsb_exists in He as (y & Hy & Ey).
    apply String.eqb_eq in Ey. now subst y.
  - now apply Nat.leb_le.
Qed.

Lemma processedData_grouped data headers xAxis yAxis selectedYAxes viewMode
    timeGrouping method :
  timeGrouping <> none -> isDateAxis data headers xAxis = true ->
  processedData data headers xAxis yAxis selectedYAxes viewMode timeGrouping
    method =
  sortResult xAxis (yAxesToAggregate viewMode yAxis selectedYAxes) timeGrouping
    (map (aggregatedRow xAxis (yAxesToAggregate viewMode yAxis selectedYAxes)
            method)
       (groupRows xAxis (yAxesToAggregate viewMode yAxis selectedYAxes)
          timeGrouping data)).
Proof.
  intros Hg Hd. unfold processedData. rewrite Hd.
  destruct timeGrouping; [contradiction| | |]; reflexivity.
Qed.

(** Behind the gate: a time column that is not taken for a date column is
    not grouped at all; the first 50 rows come back as they are. *)
Lemma processedData_not_date_axis data headers xAxis yAxis selectedYAxes
    viewMode timeGrouping method :
  timeGrouping <> none -> isDateAxis data headers xAxis = false ->
  processedData data headers xAxis yAxis selectedYAxes viewMode timeGrouping
    method = Ok (take 50 data).
Proof.
  intros Hg Hd. unfold processedData. rewrite Hd.
  destruct timeGrouping; [contradiction| | |]; reflexivity.
Qed.

Lemma processedData_cases data headers xAxis yAxis selectedYAxes viewMode
    timeGrouping method :
  timeGrouping <> none -> isDateAxis data headers xAxis = true ->
  let yAxes := yAxesToAggregate viewMode yAxis selectedYAxes in
  let grouped := groupRows xAxis yAxes timeGrouping data in
  match processedData data headers xAxis yAxis selectedYAxes viewMode
          timeGrouping method with
  | Ok out => Permutation out (map (aggregatedRow xAxis yAxes method) grouped)
  | Throw _ =>
      timeGrouping = weeks /\ In "_originalKey" yAxes /\
      (2 <= length grouped)%nat
  end.
Proof.
  intros Hg Hd yAxes grouped. rewrite processedData_grouped by assumption.
  fold yAxes. fold grouped.
  pose proof (sortResult_cases xAxis yAxes timeGrouping
                (map (aggregatedRow xAxis yAxes method) grouped)) as H.
  destruct (sortResult _ _ _ _); [exact H|]. now rewrite length_map in H.
Qed.

End output.

(** ** Aggregation laws *)

Section laws.

Context {runtime : DateRuntime}.

Lemma aggregatedValue_sum group column :
  aggregatedValue sum group column = jsSum (valuesOf group column).
Proof.
  unfold aggregatedValue.
  destruct (valuesOf group column); reflexivity.
Qed.

Lemma bucket_values xAxis yAxes timeGrouping data key group column :
  List.NoDup yAxes -> In column yAxes ->
  In (key, group) (groupRows xAxis yAxes timeGrouping data) ->
  valuesOf group column =
  flat_map (fun row => observation row column)
    (contributing xAxis timeGrouping key data).
Proof.
  intros Hnd Hin Hg.
  destruct (groups_of_groupRows xAxis yAxes timeGrouping data)
    as (_ & Hb & _).
  destruct (Hb _ _ Hg) as [_ ->].
  apply flat_map_ext. intros row. now apply pushed_once.
Qed.

Lemma bucket_rowCount xAxis yAxes timeGrouping data key group :
  In (key, group) (groupRows xAxis yAxes timeGrouping data) ->
  rowCount group = length (contributing xAxis timeGrouping key data).
Proof.
  intros Hg.
  destruct (groups_of_groupRows xAxis yAxes timeGrouping data)
    as (_ & Hb & _).
  now destruct (Hb _ _ Hg) as [-> _].
Qed.

Lemma groupRows_observations xAxis yAxes timeGrouping data column :
  List.NoDup yAxes -> In column yAxes ->
  Permutation (allValues column (groupRows xAxis yAxes timeGrouping data))
              (observations xAxis column data).
Proof.
  intros Hnd Hin. unfold groupRows.
  rewrite fold_addRow_allValues. cbn [allValues flat_map app].
  unfold observations.
  erewrite flat_map_ext; [reflexivity|].
  intros row. cbv beta. destruct (timeParses xAxis row); [|reflexivity].
  now apply pushed_once.
Qed.

Lemma flat_map_ext_in {A B} (f g : A -> list B) (l : list A) :
  (forall a, In a l -> f a = g a) -> flat_map f l = flat_map g l.
Proof.
  induction l as [|a l IH]; intros H; [reflexivity|]. cbn [flat_map].
  rewrite (H a) by (now left). f_equal. apply IH. intros x Hx. apply H.
  now right.
Qed.

Lemma sum_list_with_ext_in {A} (f g : A -> nat) (l : list A) :
  (forall a, In a l -> f a = g a) -> sum_list_with f l = sum_list_with g l.
Proof.
  induction l as [|a l IH]; intros H; [reflexivity|]. cbn [sum_list_with].
  rewrite (H a) by (now left). f_equal. apply IH. intros x Hx. apply H.
  now right.
Qed.

(** The buckets share out the observations of the rows whose time value
    parses: each observation is in the bucket of its row, once. *)
Lemma buckets_partition xAxis yAxes timeGrouping data column :
  List.NoDup yAxes -> In column yAxes ->
  Permutation
    (flat_map (fun entry : string * Group =>
                 flat_map (fun row => observation row column)
                   (contributing xAxis timeGrouping entry.1 data))
       (groupRows xAxis yAxes timeGrouping data))
    (observations xAxis column data).
Proof.
  intros Hnd Hin.
  rewrite <- (groupRows_observations xAxis yAxes timeGrouping data column)
    by assumption.
  unfold allValues. erewrite flat_map_ext_in; [reflexivity|].
  intros [key group] Hentry. cbn [fst snd]. symmetry.
  now apply (bucket_values xAxis yAxes).
Qed.

Lemma bucket_counts_total xAxis yAxes timeGrouping data :
  sum_list_with
    (fun entry : string * Group =>
       length (contributing xAxis timeGrouping entry.1 data))
    (groupRows xAxis yAxes timeGrouping data) =
  length (List.filter (timeParses xAxis) data).
Proof.
  transitivity (totalCount (groupRows xAxis yAxes timeGrouping data)).
  - unfold totalCount. apply sum_list_with_ext_in.
    intros [key group] Hentry. cbn [fst snd]. symmetry.
    now apply (bucket_rowCount xAxis yAxes).
  - unfold groupRows. now rewrite fold_addRow_totalCount.
Qed.

Lemma observation_holdsNumber (row : gmap string JsValue) column :
  negb (holdsNumber column row) = (length (observation row column) =? 0)%nat.
Proof.
  unfold holdsNumber, observation.
  destruct (row !! column) as [[s|n]|]; reflexivity.
Qed.

Lemma pushed_length yAxes column (row : gmap string JsValue) :
  In column yAxes ->
  (length (pushed yAxes column row) =? 0)%nat = negb (holdsNumber column row).
Proof.
  intros Hin. rewrite observation_holdsNumber. unfold pushed.
  induction yAxes as [|y ys IH]; [destruct Hin|]. cbn [flat_map].
  rewrite length_app.
  destruct (String.eqb_spec y column) as [->|Hne].
  - destruct (length (observation row column)); [|reflexivity].
    cbn [Nat.add].
    destruct (in_dec string_dec column ys) as [Hys|Hys]; [now apply IH|].
    fold (pushed ys column row). now rewrite pushed_not_in.
  - cbn [length Nat.add]. apply IH. destruct Hin as [->|H]; [now elim Hne|exact H].
Qed.

(** A bucket holds a value for a column exactly when one of its rows holds
    a number there. *)
Lemma bucket_holds xAxis yAxes timeGrouping data key group column :
  In column yAxes ->
  In (key, group) (groupRows xAxis yAxes timeGrouping data) ->
  (0 <? length (valuesOf group column))%nat =
  existsb (holdsNumber column) (contributing xAxis timeGrouping key data).
Proof.
  intros Hin Hg.
  destruct (groups_of_groupRows xAxis yAxes timeGrouping data)
    as (_ & Hb & _).
  destruct (Hb _ _ Hg) as [_ ->].
  induction (contributing xAxis timeGrouping key data) as [|row rows IH];
    [reflexivity|].
  cbn [flat_map existsb]. rewrite length_app, <- IH.
  pose proof (pushed_length yAxes column row Hin) as Hp.
  destruct (holdsNumber column row); cbn [negb orb] in *.
  - apply Nat.eqb_neq in Hp. apply Nat.ltb_lt. lia.
  - apply Nat.eqb_eq in Hp. now rewrite Hp.
Qed.

End laws.

(** C7 (as the code has it).  With the method "sum", a granularity other
    than "none", a time column the component takes for a date column, and
    value columns selected once each: the output rows are, up to their order,
    one row per bucket (in the one case where the sort by week key throws,
    the value columns include the reserved key and there are two buckets at
    least); the value a bucket shows for a selected column is the sum of the
    numeric observations of that column over the rows of the bucket, added
    in the order of the rows in binary64 arithmetic and rounded to two
    decimals (a column named [__proto__] gets no entry); every numeric
    observation of the column in a row whose time value parses as a date
    belongs to exactly one bucket; and the rows whose time value does not
    parse change nothing. *)
Theorem C7_sum_conservation {runtime : DateRuntime}
    (data : list (gmap string JsValue)) (headers : list string)
    (xAxis yAxis : string) (selectedYAxes : list string) (viewMode : ViewMode)
    (timeGrouping : TimeGrouping) (column : string) :
  let yAxes := yAxesToAggregate viewMode yAxis selectedYAxes in
  let grouped := groupRows xAxis yAxes timeGrouping data in
  let bucket (key : string) :=
    flat_map (fun row => observation row column)
      (contributing xAxis timeGrouping key data) in
  timeGrouping <> none -> isDateAxis data headers xAxis = true ->
  List.NoDup yAxes -> In column yAxes ->
  match processedData data headers xAxis yAxis selectedYAxes viewMode
          timeGrouping sum with
  | Ok out => Permutation out (map (aggregatedRow xAxis yAxes sum) grouped)
  | Throw _ =>
      timeGrouping = weeks /\ In "_originalKey" yAxes /\
      (2 <= length grouped)%nat
  end /\
  (forall key group, In (key, group) grouped ->
     aggregatedRow xAxis yAxes sum (key, group) !! column =
       if ignoredColumn xAxis column then None
       else Some (VNum (toFixed2 (jsSum (bucket key))))) /\
  Permutation (flat_map (fun entry : string * Group => bucket entry.1) grouped)
    (observations xAxis column data) /\
  grouped =
    groupRows xAxis yAxes timeGrouping (List.filter (timeParses xAxis) data).
Proof.
  intros yAxes grouped bucket Hg Hd Hnd Hin. split; [|split; [|split]].
  - now apply processedData_cases.
  - intros key group Hentry.
    rewrite aggregatedRow_lookup by exact Hin.
    destruct (ignoredColumn xAxis column); [reflexivity|].
    rewrite aggregatedValue_sum. unfold bucket.
    now rewrite (bucket_values xAxis yAxes timeGrouping data key group column).
  - now apply buckets_partition.
  - apply fold_addRow_filter.
Qed.

Lemma C7_sum_conservation_witness :
  exists g1 g2,
    @groupRows sampleRuntime "t" ["v"] days weekdayRows =
      [("1", g1); ("2", g2)] /\
    aggregatedRow "t" ["v"] sum ("1", g1) !! "v" =
      Some (VNum (NFin (Q2Qc 30))) /\
    aggregatedRow "t" ["v"] sum ("2", g2) !! "v" =
      Some (VNum (NFin (Q2Qc 5))) /\
    @observations sampleRuntime "t" "v" weekdayRows =
      [NFin (Q2Qc 10); NFin (Q2Qc 20); NFin (Q2Qc 5)].
Proof.
  eexists. eexists. split; [vm_compute; reflexivity|].
  destruct (@C7_sum_conservation sampleRuntime weekdayRows ["t"; "v"]
              "t" "v" [] single days "v")
    as (_ & Hrows & _ & _).
  - discriminate.
  - vm_compute. reflexivity.
  - repeat constructor. intros [].
  - now left.
  - split; [|split].
    + rewrite Hrows by (left; reflexivity). vm_compute. reflexivity.
    + rewrite Hrows by (right; left; reflexivity). vm_compute. reflexivity.
    + vm_compute. reflexivity.
Defined.

(** C7 (as stated): what a bucket shows is its sum rounded to two decimals,
    so the shown sums need not add up to the sum of the observations: two
    buckets of 1/256 each show 0 and 0, against a total of 1/128.  Nor do
    the sums add up where the rounding to two decimals changes nothing: the
    additions are binary64 additions, so the bucket sums 2^53 and 2 add up
    to 2^53 + 2, while the observations 2^53, 1 and 1, added in the order
    of the rows, give 2^53. *)
Lemma C7_rounded_sums_differ :
  (@processedData sampleRuntime smallValues ["t"; "v"] "t" "v" [] single
     days sum =
     Ok [ <["v" := VNum jsZero]>
            (<["_originalKey" := VStr "1"]> {[ "t" := VStr "Mon" ]});
          <["v" := VNum jsZero]>
            (<["_originalKey" := VStr "2"]> {[ "t" := VStr "Tue" ]}) ] /\
   @observations sampleRuntime "t" "v" smallValues
     = [oneOver256; oneOver256] /\
   jsSum [oneOver256; oneOver256] = NFin (Q2Qc (1 # 128)) /\
   jsSum [jsZero; jsZero] = jsZero /\
   jsSum [jsZero; jsZero] <> jsSum [oneOver256; oneOver256]) /\
  (@processedData sampleRuntime largeValues ["t"; "v"] "t" "v" [] single
     days sum =
     Ok [ <["v" := VNum twoTo53]>
            (<["_originalKey" := VStr "1"]> {[ "t" := VStr "Mon" ]});
          <["v" := VNum (NFin (Q2Qc 2))]>
            (<["_originalKey" := VStr "2"]> {[ "t" := VStr "Tue" ]}) ] /\
   @observations sampleRuntime "t" "v" largeValues
     = [twoTo53; NFin (Q2Qc 1); NFin (Q2Qc 1)] /\
   jsSum [twoTo53; NFin (Q2Qc 1); NFin (Q2Qc 1)] = twoTo53 /\
   jsSum [twoTo53; NFin (Q2Qc 2)] = NFin (Q2Qc 9007199254740994) /\
   jsSum [twoTo53; NFin (Q2Qc 2)]
     <> jsSum [twoTo53; NFin (Q2Qc 1); NFin (Q2Qc 1)]).
Proof.
  assert (Hobs : jsSum [oneOver256; oneOver256] = NFin (Q2Qc (1 # 128)))
    by (vm_compute; reflexivity).
  assert (Hshown : jsSum [jsZero; jsZero] = jsZero)
    by (vm_compute; reflexivity).
  assert (Hobs' : jsSum [twoTo53; NFin (Q2Qc 1); NFin (Q2Qc 1)] = twoTo53)
    by (vm_compute; reflexivity).
  assert (Hshown' : jsSum [twoTo53; NFin (Q2Qc 2)]
                    = NFin (Q2Qc 9007199254740994))
    by (vm_compute; reflexivity).
  split.
  - split; [vm_compute; reflexivity|]. split; [vm_compute; reflexivity|].
    split; [exact Hobs|]. split; [exact Hshown|].
    rewrite Hobs, Hshown. intros E.
    apply (f_equal (fun n => match n with
                             | NFin q => Qnum (this q)
                             | _ => 0%Z
                             end)) in E.
    vm_compute in E. discriminate E.
  - split; [vm_compute; reflexivity|]. split; [vm_compute; reflexivity|].
    split; [exact Hobs'|]. split; [exact Hshown'|].
    rewrite Hobs', Hshown'. intros E.
    apply (f_equal (fun n => match n with
                             | NFin q => Qnum (this q)
                             | _ => 0%Z
                             end)) in E.
    vm_compute in E. discriminate E.
Qed.

(** C8 (as the code has it).  With the method "count", a granularity other
    than "none", a time column the component takes for a date column and
    fewer than 2^53 rows: the output rows are, up to their order, one row per
    bucket; the value a bucket shows for a selected column is the number of
    rows of the bucket when one of them at least holds a number in that
    column, and 0 when none does (a column named [__proto__] gets no entry);
    no bucket counts more rows than the data has; and the row counts of the
    buckets add up to the number of rows whose time value parses as a
    date. *)
Theorem C8_count {runtime : DateRuntime}
    (data : list (gmap string JsValue)) (headers : list string)
    (xAxis yAxis : string) (selectedYAxes : list string) (viewMode : ViewMode)
    (timeGrouping : TimeGrouping) (column : string) :
  let yAxes := yAxesToAggregate viewMode yAxis selectedYAxes in
  let grouped := groupRows xAxis yAxes timeGrouping data in
  let bucket (key : string) := contributing xAxis timeGrouping key data in
  timeGrouping <> none -> isDateAxis data headers xAxis = true ->
  In column yAxes -> (Z.of_nat (length data) < 2 ^ 53)%Z ->
  match processedData data headers xAxis yAxis selectedYAxes viewMode
          timeGrouping count with
  | Ok out => Permutation out (map (aggregatedRow xAxis yAxes count) grouped)
  | Throw _ =>
      timeGrouping = weeks /\ In "_originalKey" yAxes /\
      (2 <= length grouped)%nat
  end /\
  (forall key group, In (key, group) grouped ->
     (length (bucket key) <= length data)%nat /\
     aggregatedRow xAxis yAxes count (key, group) !! column =
       if ignoredColumn xAxis column then None
       else Some (countValue
                    (if existsb (holdsNumber column) (bucket key)
                     then length (bucket key) else 0))) /\
  sum_list_with (fun entry : string * Group => length (bucket entry.1))
    grouped = length (List.filter (timeParses xAxis) data).
Proof.
  intros yAxes grouped bucket Hg Hd Hin Hsize.
  split; [|split].
  - now apply processedData_cases.
  - intros key group Hentry.
    assert (Hle : (length (bucket key) <= length data)%nat).
    { unfold bucket, contributing. apply List.filter_length_le. }
    split; [exact Hle|].
    rewrite aggregatedRow_lookup by exact Hin.
    destruct (ignoredColumn xAxis column); [reflexivity|]. f_equal.
    unfold aggregatedValue.
    rewrite (bucket_holds xAxis yAxes timeGrouping data key group column)
      by assumption.
    rewrite (bucket_rowCount xAxis yAxes timeGrouping data key group)
      by assumption.
    fold (bucket key).
    destruct (existsb (holdsNumber column) (bucket key)).
    + apply toFixed2_count. lia.
    + apply (toFixed2_count 0). reflexivity.
  - apply bucket_counts_total.
Qed.

Lemma C8_count_witness :
  exists g1 g2,
    @groupRows sampleRuntime "t" ["v"] days weekdayRows =
      [("1", g1); ("2", g2)] /\
    aggregatedRow "t" ["v"] count ("1", g1) !! "v" = Some (countValue 2) /\
    aggregatedRow "t" ["v"] count ("2", g2) !! "v" = Some (countValue 1) /\
    length (List.filter (@timeParses sampleRuntime "t") weekdayRows) = 3%nat.
Proof.
  eexists. eexists. split; [vm_compute; reflexivity|].
  destruct (@C8_count sampleRuntime weekdayRows ["t"; "v"]
              "t" "v" [] single days "v")
    as (_ & Hrows & _).
  - discriminate.
  - vm_compute. reflexivity.
  - now left.
  - vm_compute. reflexivity.
  - pose proof (fun k g H => proj2 (Hrows k g H)) as Hshown.
    split; [|split].
    + rewrite Hshown by (left; reflexivity). reflexivity.
    + rewrite Hshown by (right; left; reflexivity). reflexivity.
    + vm_compute. reflexivity.
Defined.

(** C8 (as stated): a bucket whose rows hold no number in the column shows
    0 for it, not the number of its rows. *)
Lemma C8_count_zero_without_numbers :
  @processedData sampleRuntime textValue ["t"; "v"] "t" "v" [] single
    days count =
    Ok [ <["v" := VNum jsZero]>
           (<["_originalKey" := VStr "1"]> {[ "t" := VStr "Mon" ]}) ] /\
  VNum jsZero = countValue 0 /\
  length (@contributing sampleRuntime "t" days "1" textValue) = 1%nat /\
  VNum jsZero <> countValue 1.
Proof.
  split; [vm_compute; reflexivity|]. split; [reflexivity|].
  split; [vm_compute; reflexivity|].
  intros E.
  apply (f_equal (fun v => match v with
                           | VNum (NFin q) => Qnum (this q)
                           | _ => 0%Z
                           end)) in E.
  vm_compute in E. discriminate E.
Qed.
(** * Further properties of the parser *)

(** ** Cells of the tokenizer *)

Section tokenizer_cells.

Lemma includes_trimStart c s :
  includes c (trimStart s) = true -> includes c s = true.
Proof.
  induction s as [|d r IH]; [discriminate|]. simpl.
  destruct (is_ws d); [|auto].
  intros H. rewrite (IH H). now destruct (Ascii.eqb d c).
Qed.

Lemma includes_trimEnd c s :
  includes c (trimEnd s) = true -> includes c s = true.
Proof.
  induction s as [|d r IH]; [discriminate|]. cbn [trimEnd].
  destruct (is_ws d && is_empty (trimEnd r)); [discriminate|]. simpl.
  destruct (Ascii.eqb d c); auto.
Qed.

Lemma includes_trim c s : includes c (trim s) = true -> includes c s = true.
Proof. intros H. now apply includes_trimStart, includes_trimEnd. Qed.

Lemma trim_idem s : trim (trim s) = trim s.
Proof.
  unfold trim at 1. now rewrite trim_trimStart_fixed, trim_trimEnd_fixed.
Qed.

Lemma parseCSVLine_rawCells line :
  parseCSVLine line =
  map (fun cell => trim (removeQuotes cell)) (rawCells false line).
Proof.
  unfold parseCSVLine. rewrite parseCSVLine_loop_rawCells.
  pose proof (rawCells_nonempty false line) as Hne.
  destruct (rawCells false line) as [|h t]; [contradiction|].
  cbn [app map onHead]. rewrite append_nil.
  rewrite stripQuotes_no_quote by apply removeQuotes_no_quote.
  f_equal. rewrite map_map. apply map_ext. intros cell.
  now rewrite stripQuotes_no_quote by apply removeQuotes_no_quote.
Qed.

Lemma removeQuotes_id s : includes dquote s = false -> removeQuotes s = s.
Proof.
  induction s as [|c r IH]; [reflexivity|]. simpl.
  destruct (Ascii.eqb c dquote); [discriminate|]. intros H. now rewrite IH.
Qed.

Lemma includes_hd_tl_split sep c s :
  includes c s = false ->
  Forall (fun cell => includes c cell = false) (split sep s).
Proof.
  induction s as [|d r IH]; [repeat constructor|]. simpl includes.
  destruct (Ascii.eqb d c) eqn:E; [discriminate|]. intros H.
  specialize (IH H). rewrite split_cons.
  destruct (Ascii.eqb d sep); [now constructor|].
  pose proof (split_nonempty sep r) as Hne.
  destruct (split sep r) as [|h t]; [contradiction|].
  inversion IH as [|? ? Hh Ht]; subst. cbn [hd tl]. constructor; [|exact Ht].
  simpl. now rewrite E.
Qed.

Lemma rawCells_plain line :
  includes dquote line = false -> rawCells false line = split "," line.
Proof.
  induction line as [|c rest IH]; [reflexivity|]. simpl includes.
  destruct (Ascii.eqb c dquote) eqn:E; [discriminate|]. intros H.
  cbn [rawCells]. rewrite E, split_cons, (IH H). cbn [negb].
  rewrite andb_true_r. destruct (Ascii.eqb c ","); [reflexivity|].
  pose proof (split_nonempty "," rest) as Hne.
  now destruct (split "," rest).
Qed.

End tokenizer_cells.

(** X1.  No cell the tokenizer returns holds a double quote, and every cell
    is already trimmed. *)
Theorem tokenizer_cells_clean (line cell : string) :
  In cell (parseCSVLine line) ->
  includes dquote cell = false /\ trim cell = cell.
Proof.
  rewrite parseCSVLine_rawCells. intros (raw & <- & _)%in_map_iff. split.
  - destruct (includes dquote (trim (removeQuotes raw))) eqn:E; [|reflexivity].
    apply includes_trim in E. now rewrite removeQuotes_no_quote in E.
  - apply trim_idem.
Qed.

Lemma tokenizer_cells_clean_witness :
  includes dquote "b c" = false /\ trim "b c" = "b c".
Proof.
  apply (tokenizer_cells_clean ("a, " +:+ dq +:+ "b c" +:+ dq +:+ " ,d")).
  vm_compute. right. now left.
Defined.

(** X2.  On a line without double quotes the tokenizer returns the cells of
    the plain split at commas, each trimmed. *)
Theorem tokenizer_plain_split (line : string) :
  includes dquote line = false ->
  parseCSVLine line = map trim (split "," line).
Proof.
  intros H. rewrite parseCSVLine_rawCells, (rawCells_plain _ H).
  apply map_ext_in. intros cell Hin. f_equal. apply removeQuotes_id.
  pose proof (includes_hd_tl_split "," dquote line H) as Hall.
  rewrite List.Forall_forall in Hall. now apply Hall.
Qed.

Lemma tokenizer_plain_split_witness :
  parseCSVLine " a ,b,, c" = ["a"; "b"; ""; "c"].
Proof.
  rewrite (tokenizer_plain_split " a ,b,, c"); reflexivity.
Defined.

(** ** Shape of the standard result *)

Section standard_shape.

Implicit Types (headers values : list string) (row : gmap string JsValue).

Lemma length_split sep s : length (split sep s) = S (countChar sep s).
Proof.
  induction s as [|c r IH]; [reflexivity|]. rewrite split_cons. simpl.
  destruct (Ascii.eqb c sep); cbn [length].
  - now rewrite IH.
  - pose proof (split_nonempty sep r) as Hne.
    destruct (split sep r); [contradiction|]. simpl in *. lia.
Qed.

Lemma assignPairs_size pairs : forall row,
  (size (assignPairs row pairs) <= size row + length pairs)%nat.
Proof.
  induction pairs as [|[k v] pairs IH]; intros row; [cbn; lia|].
  rewrite assignPairs_cons. etransitivity; [apply IH|].
  pose proof (size_setProp_le row k v). cbn [length]. lia.
Qed.

Lemma length_zip_le {A B} (l : list A) (k : list B) :
  (length (zip l k) <= length l)%nat.
Proof.
  revert k. induction l as [|a l IH]; intros [|b k]; cbn; try lia.
  specialize (IH k). lia.
Qed.

Lemma standardRow_size headers values :
  (size (standardRow headers values) <= length headers)%nat.
Proof.
  rewrite standardRow_pairs.
  etransitivity; [apply assignPairs_size|].
  rewrite map_size_empty. apply length_zip_le.
Qed.

(** With distinct names, the row that assigns values to names by position
    holds the j-th value under the j-th name, unless the name is the
    reserved one. *)
Lemma assignPairs_zip_distinct (hs : list string) (vs : list JsValue) j h :
  List.NoDup hs -> hs !! j = Some h ->
  assignPairs ∅ (zip hs vs) !! h =
    if String.eqb h "__proto__" then None else vs !! j.
Proof.
  intros Hnd Hj.
  assert (Huniq : forall j', hs !! j' = Some h -> j' = j).
  { intros j' Hj'. eapply NoDup_lookup;
      [apply NoDup_ListNoDup; exact Hnd|exact Hj'|exact Hj]. }
  destruct (String.eqb_spec h "__proto__") as [->|Hp].
  - apply assignPairs_proto, lookup_empty.
  - destruct (vs !! j) as [v|] eqn:Hv.
    + apply (assignPairs_zip_at _ _ _ j); auto.
      intros j' Hlt Hj'. apply Huniq in Hj'. lia.
    + destruct (assignPairs ∅ (zip hs vs) !! h) as [x|] eqn:E; [|reflexivity].
      apply assignPairs_lookup_Some in E as [E|E];
        [now rewrite lookup_empty in E|].
      apply list_elem_of_In, list_elem_of_lookup in E as [j' Hz].
      apply lookup_zip_Some in Hz as [Hh Hx].
      apply Huniq in Hh. subst j'. congruence.
Qed.

End standard_shape.

(** X3.  The standard parser takes one header per comma-separated piece of
    the first line (quoted commas included) and returns at most one row per
    further line, blank lines included: exactly one when the first header is
    not the reserved name [__proto__].  Every row has at least one entry,
    no more entries than there are headers, and no entry under
    [__proto__]. *)
Theorem standard_result_shape (csvText : string) :
  let r := parseStandardCSV csvText in
  length (headers r) = S (countChar "," (hd "" (textLines csvText))) /\
  (length (data r) <= length (textLines csvText) - 1)%nat /\
  (hd "__proto__" (headers r) <> "__proto__" ->
   length (data r) = (length (textLines csvText) - 1)%nat) /\
  forall row, In row (data r) ->
    (1 <= size row <= length (headers r))%nat /\ row !! "__proto__" = None.
Proof.
  intros r. split; [|split; [|split]].
  - unfold r, parseStandardCSV. cbn [headers].
    now rewrite length_map, length_split.
  - unfold r, parseStandardCSV. cbn [data].
    etransitivity; [apply List.filter_length_le|].
    rewrite length_map. destruct (textLines csvText); simpl; lia.
  - intros Hne. unfold r. rewrite parseStandardCSV_data by exact Hne.
    rewrite length_map. destruct (textLines csvText); simpl; lia.
  - intros row Hin.
    assert (Hk : hasKeys row = true).
    { unfold r, parseStandardCSV in Hin. cbn [data] in Hin.
      now apply List.filter_In in Hin. }
    apply parseStandardCSV_row in Hin as (line & _ & ->).
    split; [split|].
    + unfold hasKeys in Hk. now apply Nat.ltb_lt in Hk.
    + apply standardRow_size.
    + rewrite standardRow_pairs. apply assignPairs_proto, lookup_empty.
Qed.

Lemma standard_result_shape_witness :
  let r := parseStandardCSV ("a,b" +:+ nl +:+ "1,2" +:+ nl +:+ "3") in
  length (headers r) = 2%nat /\ length (data r) = 2%nat /\
  Forall (fun row => row !! "__proto__" = None) (data r).
Proof.
  intros r.
  destruct (standard_result_shape ("a,b" +:+ nl +:+ "1,2" +:+ nl +:+ "3"))
    as (Hh & _ & Hd & Hrows).
  split; [|split].
  - unfold r. rewrite Hh. reflexivity.
  - unfold r. rewrite Hd; [reflexivity|vm_compute; discriminate].
  - apply List.Forall_forall. intros row Hrow. now apply Hrows.
Defined.

(** X4.  When the headers of a standard text are distinct and the first is
    not the reserved name [__proto__], the row of the k-th data line maps
    each header to the coerced cell at the header's index; it has no entry
    for a header whose index the line has no cell for, and none for
    [__proto__]. *)
Theorem standard_rows_by_position (csvText : string) (k : nat) (line : string) :
  let r := parseStandardCSV csvText in
  List.NoDup (headers r) -> hd "__proto__" (headers r) <> "__proto__" ->
  tl (textLines csvText) !! k = Some line ->
  exists row, data r !! k = Some row /\
    forall i h, headers r !! i = Some h ->
      row !! h = if String.eqb h "__proto__" then None
                 else coerce <$> (parseCSVLine line !! i).
Proof.
  intros r Hnd Hfirst Hline.
  exists (standardRow (headers r) (parseCSVLine line)). split.
  - unfold r. rewrite parseStandardCSV_data by exact Hfirst.
    now rewrite list_lookup_fmap, Hline.
  - intros i h Hh. rewrite standardRow_pairs.
    rewrite (assignPairs_zip_distinct _ _ i h Hnd Hh).
    now rewrite list_lookup_fmap.
Qed.

Lemma standard_rows_by_position_witness :
  let csvText := "a,__proto__,b,c" +:+ nl +:+ "1,2,x" in
  exists row, data (parseStandardCSV csvText) !! 0%nat = Some row /\
    row !! "a" = Some (VNum (NFin (Q2Qc 1))) /\
    row !! "__proto__" = None /\
    row !! "b" = Some (VStr "x") /\
    row !! "c" = None.
Proof.
  intros csvText.
  destruct (standard_rows_by_position csvText 0 "1,2,x") as (row & Hrow & Hat).
  - vm_compute. repeat constructor; intros H;
      repeat (destruct H as [H|H]; [discriminate H|]); exact H.
  - discriminate.
  - reflexivity.
  - exists row. split; [exact Hrow|].
    rewrite (Hat 0%nat "a" eq_refl), (Hat 1%nat "__proto__" eq_refl),
      (Hat 2%nat "b" eq_refl), (Hat 3%nat "c" eq_refl).
    repeat split.
Defined.

(** ** Shape of the compound result *)

Section compound_shape.

Implicit Types (headers cells : list string) (row : gmap string JsValue)
  (vs : list JsValue).

Lemma cellValues_nonempty cellIndex cell : cellValues cellIndex cell <> [].
Proof.
  unfold cellValues. destruct (includes ";" cell); [|discriminate].
  pose proof (split_nonempty ";" cell) as Hne.
  destruct (split ";" cell); [contradiction|discriminate].
Qed.

Lemma compoundRow_hasKeys headers line :
  hd "__proto__" headers <> "__proto__" ->
  hasKeys (compoundRow headers (parseCSVLine line)) = true.
Proof.
  intros Hne. destruct headers as [|h0 rest]; [now elim Hne|]. cbn in Hne.
  rewrite compoundRow_pairs, hasKeys_assignPairs.
  pose proof (parseCSVLine_length_pos line) as Hlen.
  destruct (parseCSVLine line) as [|cell cells]; [simpl in Hlen; lia|].
  cbn [lineValues].
  pose proof (cellValues_nonempty 0 cell) as Hc.
  destruct (cellValues 0 cell) as [|v vs]; [contradiction|].
  cbn. now destruct (String.eqb_spec h0 "__proto__").
Qed.

Lemma compoundHeaders_nonempty firstRow :
  firstRow <> [] -> compoundHeaders firstRow <> [].
Proof.
  destruct firstRow as [|cell rest]; [contradiction|]. intros _.
  unfold compoundHeaders. cbn [flat_map].
  destruct (includes ";" cell); [|discriminate].
  pose proof (split_nonempty ";" cell) as Hne.
  destruct (split ";" cell); [contradiction|discriminate].
Qed.

Lemma cleanHeaders_length raw : length (cleanHeaders raw) = length raw.
Proof.
  rewrite cleanHeaders_normalizeSpec. unfold normalizeSpec.
  now rewrite dedupe_from_length, length_map.
Qed.

(** Every line that is not blank gives a row when the first header is not
    the reserved name. *)
Lemma compoundData_full headers lines :
  hd "__proto__" headers <> "__proto__" ->
  compoundData headers lines =
  map (fun l => compoundRow headers (parseCSVLine (trim l)))
      (List.filter nonBlank lines).
Proof.
  intros Hne. rewrite compoundData_filter. apply filter_all_true.
  intros row (l & <- & _)%in_map_iff. now apply compoundRow_hasKeys.
Qed.

End compound_shape.

(** X5.  With distinct headers, a compound row maps the j-th header to the
    j-th typed value of the line, the values being read cell by cell and,
    inside a cell, part by part; values beyond the last header are dropped,
    a header beyond the last value has no entry, and the reserved name
    [__proto__] has none either. *)
Theorem compound_row_by_position (headers cells : list string) (j : nat)
    (h : string) :
  List.NoDup headers -> headers !! j = Some h ->
  compoundRow headers cells !! h =
    if String.eqb h "__proto__" then None else lineValues 0 cells !! j.
Proof.
  intros Hnd Hj. rewrite compoundRow_pairs.
  now apply assignPairs_zip_distinct.
Qed.

Lemma compound_row_by_position_witness :
  compoundRow ["T"; "A"; "B"] ["12:30"; "1;x;9"] !! "B" = Some (VStr "x") /\
  compoundRow ["T"; "A"; "B"] ["12:30"] !! "A" = None /\
  compoundRow ["T"; "__proto__"] ["12:30"; "1"] !! "__proto__" = None.
Proof.
  assert (Hnd : List.NoDup ["T"; "A"; "B"]).
  { repeat constructor; intros H;
      repeat (destruct H as [H|H]; [discriminate H|]); exact H. }
  assert (Hnd' : List.NoDup ["T"; "__proto__"]).
  { repeat constructor; intros H;
      repeat (destruct H as [H|H]; [discriminate H|]); exact H. }
  split; [|split].
  - rewrite (compound_row_by_position ["T"; "A"; "B"] _ 2 "B" Hnd eq_refl).
    reflexivity.
  - rewrite (compound_row_by_position ["T"; "A"; "B"] _ 1 "A" Hnd eq_refl).
    reflexivity.
  - rewrite (compound_row_by_position ["T"; "__proto__"] _ 1 "__proto__"
               Hnd' eq_refl).
    reflexivity.
Defined.

Lemma parseCompoundCSV_headers (csvText : string) (r : ParsedCSVResult) :
  parseCompoundCSV csvText = Ok r ->
  length (headers r) =
    length (compoundHeaders (parseCSVLine (hd "" (textLines csvText)))) /\
  headers r <> [].
Proof.
  unfold parseCompoundCSV.
  destruct (length (textLines csvText) <? 2)%nat; [discriminate|].
  intros [= <-]. cbn [headers data].
  set (hs := cleanHeaders _).
  assert (Hlen : length hs =
    length (compoundHeaders (parseCSVLine (hd "" (textLines csvText)))))
    by apply cleanHeaders_length.
  split; [exact Hlen|].
  intros E. rewrite E in Hlen. symmetry in Hlen.
  apply length_zero_iff_nil in Hlen. revert Hlen.
  apply compoundHeaders_nonempty.
  pose proof (parseCSVLine_length_pos (hd "" (textLines csvText))) as Hp.
  destruct (parseCSVLine _); [simpl in Hp; lia|discriminate].
Qed.

Lemma parseCompoundCSV_shape (csvText : string) (r : ParsedCSVResult) :
  parseCompoundCSV csvText = Ok r ->
  let rowOf l := compoundRow (headers r) (parseCSVLine (trim l)) in
  let dataLines := List.filter nonBlank (tl (textLines csvText)) in
  length (headers r) =
    length (compoundHeaders (parseCSVLine (hd "" (textLines csvText)))) /\
  headers r <> [] /\
  data r = List.filter hasKeys (map rowOf dataLines) /\
  (hd "__proto__" (headers r) <> "__proto__" -> data r = map rowOf dataLines) /\
  forall row, In row (data r) ->
    (1 <= size row)%nat /\ row !! "__proto__" = None.
Proof.
  intros Hparse rowOf dataLines.
  destruct (parseCompoundCSV_headers csvText r Hparse) as [Hlen Hne].
  split; [exact Hlen|]. split; [exact Hne|].
  unfold parseCompoundCSV in Hparse.
  destruct (length (textLines csvText) <? 2)%nat; [discriminate|].
  injection Hparse as <-. cbn [headers data] in *.
  split; [apply compoundData_filter|]. split.
  - intros Hfirst. now apply compoundData_full.
  - intros row Hin. rewrite compoundData_filter in Hin.
    apply List.filter_In in Hin as [Hin Hk].
    apply in_map_iff in Hin as (l & <- & _). split.
    + unfold hasKeys in Hk. now apply Nat.ltb_lt in Hk.
    + rewrite compoundRow_pairs. apply assignPairs_proto, lookup_empty.
Qed.

(** X6.  A compound result has one header per semicolon-separated part of
    the cells of the first line, one header at least, and at most one row
    for each further line that is not blank, in order: exactly one when the
    first header is not the reserved name [__proto__].  Blank lines give no
    row, no row is empty, and no row has an entry under [__proto__]. *)
Theorem compound_result_shape (csvText : string) (r : ParsedCSVResult) :
  parseCompoundCSV csvText = Ok r ->
  let rowOf l := compoundRow (headers r) (parseCSVLine (trim l)) in
  let dataLines := List.filter nonBlank (tl (textLines csvText)) in
  length (headers r) =
    length (compoundHeaders (parseCSVLine (hd "" (textLines csvText)))) /\
  headers r <> [] /\
  data r = List.filter hasKeys (map rowOf dataLines) /\
  (hd "__proto__" (headers r) <> "__proto__" -> data r = map rowOf dataLines) /\
  forall row, In row (data r) ->
    (1 <= size row)%nat /\ row !! "__proto__" = None.
Proof. apply parseCompoundCSV_shape. Qed.

Lemma compound_result_shape_witness :
  let csvText := "T;V" +:+ nl +:+ "1;2" +:+ nl +:+ "  " +:+ nl +:+ "3;4" in
  exists r, parseCompoundCSV csvText = Ok r /\
            length (headers r) = 2%nat /\ length (data r) = 2%nat.
Proof.
  intros csvText.
  destruct (parseCompoundCSV csvText) as [r|] eqn:E; [|discriminate E].
  destruct (compound_result_shape csvText r E) as (Hh & _ & _ & Hd & _).
  exists r. split; [reflexivity|]. split.
  - rewrite Hh. reflexivity.
  - rewrite Hd.
    + rewrite length_map. reflexivity.
    + vm_compute in E. injection E as <-. discriminate.
Defined.

(** ** The entry point, once more *)

Lemma parseCSV_branches (csvText : string) :
  match parseCSV csvText with
  | Ok r =>
      headers r <> [] /\
      ((isMultiMetric r = true /\ originalFormat r = "compound" /\
        parseCompoundCSV csvText = Ok r) \/
       (isMultiMetric r = false /\ originalFormat r = "standard" /\
        r = parseStandardCSV csvText))
  | Throw message =>
      message = EmptyInputError \/ message = InsufficientRowsError
  end.
Proof.
  rewrite parseCSV_cases.
  destruct (isBlank csvText) eqn:Hb; [now left|].
  destruct (nonBlankLines csvText <? 2)%nat eqn:Hn; [now right|].
  destruct (detectCompoundFormat _ _).
  - assert (Hne : trim csvText <> "").
    { intros E. apply trim_empty_iff in E. unfold isBlank in Hb. congruence. }
    assert (Hlen : (2 <= length (textLines csvText))%nat).
    { pose proof (textLines_count csvText Hne) as E. rewrite Hn in E.
      apply Nat.ltb_ge in E. exact E. }
    destruct (parseCompoundCSV_two_lines _ Hlen) as (r & E & Hfmt & Hmulti).
    rewrite E. destruct (parseCompoundCSV_headers csvText r E) as (_ & Hh).
    split; [exact Hh|]. left. auto.
  - split; [|right; auto].
    unfold parseStandardCSV. cbn [headers].
    pose proof (split_nonempty "," (hd "" (textLines csvText))) as Hne.
    destruct (split "," (hd "" (textLines csvText))); [contradiction|].
    discriminate.
Qed.

(** X7.  [parseCSV] either throws one of its two own messages (the handler
    that wraps an error of the two parsers is never reached) or returns the
    result of one of the two parsers; the result has one header at least, and
    it is flagged multi-metric exactly when its format is "compound". *)
Theorem parseCSV_outcomes (csvText : string) :
  match parseCSV csvText with
  | Ok r =>
      headers r <> [] /\
      ((isMultiMetric r = true /\ originalFormat r = "compound" /\
        parseCompoundCSV csvText = Ok r) \/
       (isMultiMetric r = false /\ originalFormat r = "standard" /\
        r = parseStandardCSV csvText))
  | Throw message =>
      message = EmptyInputError \/ message = InsufficientRowsError
  end.
Proof. apply parseCSV_branches. Qed.

(** ** Header normalization, once more *)

Section normalization_more.

Lemma occurrences_zero x l : ~ In x l -> occurrences x l = 0%nat.
Proof.
  induction l as [|y l IH]; [reflexivity|]. intros Hn. simpl.
  destruct (String.eqb_spec y x) as [->|_].
  - exfalso. apply Hn. now left.
  - apply IH. intros H. apply Hn. now right.
Qed.

Lemma dedupe_from_distinct names : forall earlier,
  List.NoDup names -> (forall n, In n names -> ~ In n earlier) ->
  dedupe_from earlier names = names.
Proof.
  induction names as [|n rest IH]; intros earlier Hnd Hfresh; [reflexivity|].
  inversion Hnd as [|? ? Hn Hrest]; subst. cbn [dedupe_from].
  rewrite occurrences_zero by (apply Hfresh; now left).
  unfold render. cbn [Nat.eqb]. f_equal. apply IH; [exact Hrest|].
  intros m Hm Hin. apply in_app_or in Hin as [Hin|[->|[]]].
  - apply (Hfresh m); [now right|exact Hin].
  - contradiction.
Qed.

Lemma dedupe_from_app names1 names2 : forall earlier,
  dedupe_from earlier (names1 ++ names2) =
  dedupe_from earlier names1 ++ dedupe_from (earlier ++ names1) names2.
Proof.
  induction names1 as [|n rest IH]; intros earlier.
  - cbn. now rewrite app_nil_r.
  - cbn [app dedupe_from]. rewrite IH, <- app_assoc. reflexivity.
Qed.

End normalization_more.

(** X8.  When the cleaned names are distinct the normalizer only cleans:
    each header is trimmed and stripped of the device prefix, and nothing is
    suffixed; a list of distinct headers that are clean already comes back
    unchanged. *)
Theorem cleanHeaders_distinct (raw : list string) :
  List.NoDup (map cleanName raw) ->
  cleanHeaders raw = map cleanName raw /\
  ((forall h, In h raw -> cleanName h = h) -> cleanHeaders raw = raw).
Proof.
  intros Hnd.
  assert (E : cleanHeaders raw = map cleanName raw).
  { rewrite cleanHeaders_normalizeSpec. unfold normalizeSpec.
    apply dedupe_from_distinct; [exact Hnd|]. intros n _ []. }
  split; [exact E|]. intros Hclean. rewrite E.
  rewrite <- (map_id raw) at 2. now apply map_ext_in.
Qed.

Lemma cleanHeaders_distinct_witness :
  cleanHeaders [" TIME "; "IOITSecure447 > R-PF"; "Voltage"] =
    ["TIME"; "R-PF"; "Voltage"].
Proof.
  destruct (cleanHeaders_distinct
              [" TIME "; "IOITSecure447 > R-PF"; "Voltage"]) as [E _].
  - vm_compute. repeat constructor; intros H;
      repeat (destruct H as [H|H]; [discriminate H|]); exact H.
  - rewrite E. reflexivity.
Defined.

(** X9.  Appending headers does not change the names given to the headers
    before them: the normalized list of a longer raw list starts with the
    normalized list of the shorter one. *)
Theorem cleanHeaders_app (raw1 raw2 : list string) :
  cleanHeaders (raw1 ++ raw2) =
    cleanHeaders raw1 ++
    dedupe_from (map cleanName raw1) (map cleanName raw2) /\
  take (length raw1) (cleanHeaders (raw1 ++ raw2)) = cleanHeaders raw1.
Proof.
  assert (E : cleanHeaders (raw1 ++ raw2) =
              cleanHeaders raw1 ++
              dedupe_from (map cleanName raw1) (map cleanName raw2)).
  { rewrite !cleanHeaders_normalizeSpec. unfold normalizeSpec.
    now rewrite map_app, dedupe_from_app. }
  split; [exact E|]. rewrite E.
  rewrite <- (cleanHeaders_length raw1). apply take_app_length.
Qed.

(** ** Numbers in parsed rows *)

Section numbers.

Lemma coerce_not_NaN value : coerce value <> VNum NNaN.
Proof. unfold coerce. destruct (parseFloat value); discriminate. Qed.

Lemma digits_val_of_uint d : forall a,
  digits_val (Z.of_nat a) (NilEmpty.string_of_uint d) =
  Z.of_nat (Nat.of_uint_acc d a).
Proof.
  induction d; intros a; cbn [NilEmpty.string_of_uint digits_val Nat.of_uint_acc];
    [reflexivity| | | | | | | | | |];
    rewrite <- IHd, Nat.tail_mul_spec; f_equal;
    match goal with
    | |- context [digit_val ?c] =>
        let v := eval vm_compute in (digit_val c) in
        change (digit_val c) with v
    end; lia.
Qed.

Lemma string_of_uint_digits d :
  all_chars is_digit (NilEmpty.string_of_uint d) = true.
Proof. induction d; simpl; auto. Qed.

Lemma span_all p s : all_chars p s = true -> span p s = (s, "").
Proof.
  intros H. rewrite <- (append_empty_r s) at 1. now apply span_app.
Qed.

Lemma to_uint_not_Nil n : Nat.to_uint n <> Decimal.Nil.
Proof.
  assert (H : Nat.to_uint n = Decimal.unorm (Nat.to_uint n)).
  { rewrite <- Unsigned.to_of, Unsigned.of_to. reflexivity. }
  rewrite H. unfold Decimal.unorm.
  destruct (Decimal.nzhead (Nat.to_uint n)); discriminate.
Qed.

End numbers.

(** X10.  No entry of a parsed row is the number NaN: a text that
    [parseFloat] cannot read stays a string. *)
Theorem parsed_rows_hold_no_NaN (csvText : string) (r : ParsedCSVResult)
    (row : gmap string JsValue) (h : string) :
  parseCSV csvText = Ok r -> In row (data r) -> row !! h <> Some (VNum NNaN).
Proof.
  intros Hparse Hrow Hx.
  pose proof (parseCSV_branches csvText) as Hout. rewrite Hparse in Hout.
  destruct Hout as (_ & [(_ & _ & Hc)|(_ & _ & ->)]).
  - unfold parseCompoundCSV in Hc.
    destruct (length (textLines csvText) <? 2)%nat; [discriminate|].
    injection Hc as <-. cbn [data] in Hrow.
    apply compoundData_In in Hrow as (line & _ & ->).
    apply compoundRow_lookup in Hx as (_ & cellIndex & cell & _ & Ht).
    destruct Ht as [(_ & value & _ & E)|(_ & E)].
    + now apply (coerce_not_NaN value).
    + destruct (Nat.eqb cellIndex 0 && hasDateSeparator (trim cell));
        [discriminate|]. now apply (coerce_not_NaN (trim cell)).
  - apply parseStandardCSV_row in Hrow as (line & _ & ->).
    apply standardRow_lookup in Hx as (i & value & _ & _ & E).
    now apply (coerce_not_NaN value).
Qed.

Lemma parsed_rows_hold_no_NaN_witness :
  exists r, parseCSV ("a" +:+ nl +:+ "NaN") = Ok r /\
    data r = [ {[ "a" := VStr "NaN" ]} ] /\
    List.Forall (fun row => row !! "a" <> Some (VNum NNaN)) (data r).
Proof.
  eexists. split; [vm_compute; reflexivity|]. split; [reflexivity|].
  apply List.Forall_forall. intros row Hrow.
  apply (parsed_rows_hold_no_NaN ("a" +:+ nl +:+ "NaN") _ row "a" eq_refl Hrow).
Defined.

Lemma roundDouble_not_NaN q : roundDouble q <> NNaN.
Proof.
  unfold roundDouble, roundPos.
  destruct (Qnum (Qred q)); [discriminate| |];
    destruct (nearest _ _) as [m ex];
    destruct (_ <=? _)%Z; discriminate.
Qed.

Lemma parseFloat_numeral (n : nat) :
  parseFloat (string_of_nat n) = roundDouble (inject_Z (Z.of_nat n)).
Proof.
  unfold parseFloat, string_of_nat.
  pose proof (string_of_uint_digits (Nat.to_uint n)) as Hd.
  pose proof (to_uint_not_Nil n) as Hnil.
  pose proof (digits_val_of_uint (Nat.to_uint n) 0) as Hval.
  change (Nat.of_uint_acc (Nat.to_uint n) 0) with (Nat.of_uint (Nat.to_uint n))
    in Hval.
  rewrite Unsigned.of_to in Hval.
  destruct (NilEmpty.string_of_uint (Nat.to_uint n)) as [|c s] eqn:Es.
  { destruct (Nat.to_uint n); try discriminate Es. contradiction. }
  assert (Hc : is_digit c = true).
  { simpl in Hd. now apply andb_prop in Hd as [Hc _]. }
  assert (Hws : is_ws c = false).
  { destruct (is_ws c) eqn:E; [|reflexivity].
    apply ws_not_digit in E. congruence. }
  cbn [trimStart]. rewrite Hws.
  assert (Hsign : sign (String c s) = (false, String c s)).
  { destruct c as [[] [] [] [] [] [] [] []]; try reflexivity;
      vm_compute in Hc; discriminate Hc. }
  rewrite Hsign.
  assert (Hinf : prefix_of "Infinity" (String c s) = None).
  { destruct c as [[] [] [] [] [] [] [] []]; try reflexivity;
      vm_compute in Hc; discriminate Hc. }
  rewrite Hinf, (span_all is_digit _ Hd). cbn [is_empty andb].
  rewrite append_empty_r. cbn [exponent String.length Z.of_nat Z.sub].
  change (digits_val 0 (String c s)) with
    (digits_val (Z.of_nat 0) (String c s)).
  rewrite Hval. unfold scale10. cbn [Z.leb Z.compare Z.pow].
  now rewrite Z.mul_1_r.
Qed.

(** X11.  A cell that holds the decimal numeral of a natural number is read
    as the binary64 number nearest to that number, which is the number
    itself when it is below 2^53. *)
Theorem coerce_numeral (n : nat) :
  coerce (string_of_nat n) = VNum (roundDouble (inject_Z (Z.of_nat n))) /\
  ((Z.of_nat n < 2 ^ 53)%Z -> coerce (string_of_nat n) = countValue n).
Proof.
  assert (E : coerce (string_of_nat n) =
              VNum (roundDouble (inject_Z (Z.of_nat n)))).
  { unfold coerce. rewrite parseFloat_numeral.
    pose proof (roundDouble_not_NaN (inject_Z (Z.of_nat n))) as Hn.
    now destruct (roundDouble (inject_Z (Z.of_nat n))). }
  split; [exact E|]. intros Hlt. rewrite E. unfold countValue.
  now rewrite roundDouble_nat.
Qed.

Lemma coerce_numeral_witness :
  coerce "9007199254740993" = VNum (NFin (Q2Qc 9007199254740992)) /\
  coerce "4096" = countValue 4096.
Proof.
  split.
  - vm_compute. reflexivity.
  - apply (proj2 (coerce_numeral 4096)). reflexivity.
Defined.
(** * Further properties of the aggregation *)

(** ** Raw data *)

(** X12.  Without grouping every row comes back, in order.  When the time
    column is taken for a date column and the time value of a row parses,
    the row gets the formatted time under the time column and keeps the
    original value under [_originalTimestamp]; otherwise the row is
    unchanged.  No other key is touched, and the aggregation method plays no
    part. *)
Theorem raw_mode_rows {runtime : DateRuntime}
    (data : list (gmap string JsValue)) (headers : list string)
    (xAxis yAxis : string) (selectedYAxes : list string) (viewMode : ViewMode)
    (method : AggregationMethod) :
  exists out,
    processedData data headers xAxis yAxis selectedYAxes viewMode none method
      = Ok out /\
    length out = length data /\
    forall i row, data !! i = Some row ->
      exists row', out !! i = Some row' /\
        (forall k, k <> xAxis -> k <> "_originalTimestamp" ->
           row' !! k = row !! k) /\
        match (if isDateAxis data headers xAxis
               then parseDate (row !! xAxis) else None) with
        | Some date =>
            row' !! "_originalTimestamp" = row !! xAxis /\
            (xAxis <> "_originalTimestamp" ->
             row' !! xAxis = Some (VStr (formatDateWithSeconds date)))
        | None => row' = row
        end.
Proof.
  eexists. split; [reflexivity|]. split; [apply length_map|].
  intros i row Hi. rewrite list_lookup_fmap, Hi. cbn [fmap option_fmap option_map].
  eexists. split; [reflexivity|].
  destruct (isDateAxis data headers xAxis); [|now split].
  destruct (parseDate (row !! xAxis)) as [date|] eqn:Hd; [|now split].
  destruct (row !! xAxis) as [dateValue|] eqn:Hv; [|discriminate Hd].
  split; [|split].
  - intros k Hk1 Hk2. now rewrite !lookup_insert_ne by congruence.
  - apply lookup_insert_eq.
  - intros Hne. rewrite lookup_insert_ne by congruence. apply lookup_insert_eq.
Qed.

(** ** Buckets *)

Section bucket_keys.

Context {runtime : DateRuntime}.
Variables (xAxis : string) (yAxes : list string) (timeGrouping : TimeGrouping).

Implicit Types (row : gmap string JsValue) (grouped : list (string * Group))
  (data : list (gmap string JsValue)).

Lemma addRow_keys grouped row :
  map fst (addRow xAxis yAxes timeGrouping grouped row) =
    match rowKey xAxis timeGrouping row with
    | Some k =>
        if hasGroup k grouped then map fst grouped else map fst grouped ++ [k]
    | None => map fst grouped
    end.
Proof.
  unfold addRow, rowKey.
  destruct (parseDate (row !! xAxis)) as [date|]; [|reflexivity].
  destruct (groupKeyLabel timeGrouping date) as [groupKey groupLabel].
  cbn [fst]. rewrite updateGroup_keys.
  destruct (hasGroup groupKey grouped); [reflexivity|].
  now rewrite map_app.
Qed.

Lemma groupRows_key_iff data k :
  In k (map fst (groupRows xAxis yAxes timeGrouping data)) <->
  exists row, In row data /\ rowKey xAxis timeGrouping row = Some k.
Proof.
  induction data as [|row data IH] using rev_ind.
  - split; [intros []|intros (row & [] & _)].
  - rewrite groupRows_snoc, addRow_keys.
    assert (Hsplit : (exists row', In row' (data ++ [row]) /\
                        rowKey xAxis timeGrouping row' = Some k) <->
                     (exists row', In row' data /\
                        rowKey xAxis timeGrouping row' = Some k) \/
                     rowKey xAxis timeGrouping row = Some k).
    { split.
      - intros (row' & Hin & Hk). apply in_app_or in Hin as [Hin|[<-|[]]];
          [left; eauto|now right].
      - intros [(row' & Hin & Hk)|Hk].
        + exists row'. split; [apply in_or_app; now left|exact Hk].
        + exists row. split; [apply in_or_app; right; now left|exact Hk]. }
    rewrite Hsplit, <- IH.
    destruct (rowKey xAxis timeGrouping row) as [k'|].
    + destruct (hasGroup k' (groupRows xAxis yAxes timeGrouping data)) eqn:Hh.
      * split; [auto|]. intros [H|[= <-]]; [exact H|].
        now apply hasGroup_In.
      * rewrite in_app_iff. cbn [In]. split.
        -- intros [H|[<-|[]]]; auto.
        -- intros [H|[= <-]]; auto.
    + split; [auto|]. now intros [H|H].
Qed.

Lemma contributing_nonempty data k row :
  In row data -> rowKey xAxis timeGrouping row = Some k ->
  contributing xAxis timeGrouping k data <> [].
Proof.
  intros Hin Hk E.
  assert (H : In row (contributing xAxis timeGrouping k data)).
  { unfold contributing. apply filter_In. split; [exact Hin|].
    rewrite Hk. apply String.eqb_refl. }
  rewrite E in H. destruct H.
Qed.

Lemma length_le_totalCount grouped :
  (forall entry, In entry grouped -> (1 <= rowCount entry.2)%nat) ->
  (length grouped <= totalCount grouped)%nat.
Proof.
  unfold totalCount. induction grouped as [|e rest IH]; intros H; [simpl; lia|].
  cbn [length sum_list_with].
  pose proof (H e (or_introl eq_refl)).
  specialize (IH (fun e' He' => H e' (or_intror He'))). lia.
Qed.

Lemma groupRows_rowCount_pos data entry :
  In entry (groupRows xAxis yAxes timeGrouping data) ->
  (1 <= rowCount entry.2)%nat.
Proof.
  destruct entry as [k g]. intros Hin. cbn [snd].
  rewrite (bucket_rowCount xAxis yAxes timeGrouping data k g Hin).
  assert (Hk : In k (map fst (groupRows xAxis yAxes timeGrouping data))).
  { apply in_map_iff. now exists (k, g). }
  apply groupRows_key_iff in Hk as (row & Hrow & Hkey).
  pose proof (contributing_nonempty data k row Hrow Hkey) as Hne.
  destruct (contributing xAxis timeGrouping k data); [contradiction|].
  simpl. lia.
Qed.

Lemma groupRows_shape data :
  let grouped := groupRows xAxis yAxes timeGrouping data in
  List.NoDup (map fst grouped) /\
  (forall k, In k (map fst grouped) <->
     exists row, In row data /\ rowKey xAxis timeGrouping row = Some k) /\
  (forall entry, In entry grouped -> (1 <= rowCount entry.2)%nat) /\
  (length grouped <= length (List.filter (timeParses xAxis) data))%nat /\
  (length (List.filter (timeParses xAxis) data) <= length data)%nat.
Proof.
  intros grouped. subst grouped. split; [|split; [|split; [|split]]].
  - apply (groups_of_groupRows xAxis yAxes timeGrouping data).
  - apply groupRows_key_iff.
  - apply groupRows_rowCount_pos.
  - etransitivity;
      [apply length_le_totalCount, groupRows_rowCount_pos|].
    unfold groupRows. rewrite fold_addRow_totalCount. simpl. lia.
  - pose proof (filter_length (timeParses xAxis) data). lia.
Qed.

End bucket_keys.

(** X13.  Grouping makes one bucket for each bucket key met among the rows
    whose time value parses, and no other: the keys are distinct, no bucket
    is empty, and there are no more buckets than rows with a time value that
    parses.  The output has one row per bucket. *)
Theorem buckets_of_rows {runtime : DateRuntime}
    (data : list (gmap string JsValue)) (headers : list string)
    (xAxis yAxis : string) (selectedYAxes : list string) (viewMode : ViewMode)
    (timeGrouping : TimeGrouping) (method : AggregationMethod) :
  let yAxes := yAxesToAggregate viewMode yAxis selectedYAxes in
  let grouped := groupRows xAxis yAxes timeGrouping data in
  timeGrouping <> none -> isDateAxis data headers xAxis = true ->
  match processedData data headers xAxis yAxis selectedYAxes viewMode
          timeGrouping method with
  | Ok out => length out = length grouped
  | Throw _ => timeGrouping = weeks
  end /\
  List.NoDup (map fst grouped) /\
  (forall k, In k (map fst grouped) <->
     exists row, In row data /\ rowKey xAxis timeGrouping row = Some k) /\
  (forall entry, In entry grouped -> (1 <= rowCount entry.2)%nat) /\
  (length grouped <= length (List.filter (timeParses xAxis) data))%nat /\
  (length (List.filter (timeParses xAxis) data) <= length data)%nat.
Proof.
  intros yAxes grouped Hg Hd. split.
  - pose proof (processedData_cases data headers xAxis yAxis selectedYAxes
                  viewMode timeGrouping method Hg Hd) as H.
    cbv zeta in H. fold yAxes in H. fold grouped in H.
    destruct (processedData _ _ _ _ _ _ _ _) as [out|].
    + apply Permutation_length in H. now rewrite length_map in H.
    + now destruct H.
  - apply groupRows_shape.
Qed.

Lemma buckets_of_rows_witness :
  exists out,
    @processedData sampleRuntime weekdayRows ["t"; "v"] "t" "v" [] single
      days average = Ok out /\
    length out = 2%nat /\
    map fst (@groupRows sampleRuntime "t" ["v"] days weekdayRows) = ["1"; "2"].
Proof.
  pose proof (@buckets_of_rows sampleRuntime weekdayRows ["t"; "v"] "t" "v" []
                single days average) as H.
  cbv zeta in H. destruct H as (Hout & _).
  - discriminate.
  - vm_compute. reflexivity.
  - destruct (@processedData sampleRuntime weekdayRows ["t"; "v"] "t" "v" []
                single days average) as [out|] eqn:E; [|discriminate Hout].
    exists out. split; [reflexivity|]. split; [rewrite Hout|];
      vm_compute; reflexivity.
Defined.

(** ** Order of the output *)

Section sorting.

Context {A : Type} (f : A -> Z).

Lemma insertBy_sorted x l :
  StronglySorted (fun a b => (f a <= f b)%Z) l ->
  StronglySorted (fun a b => (f a <= f b)%Z)
    (insertBy (fun a b => (f a - f b)%Z) x l).
Proof.
  induction 1 as [|y r Hr IH Hy]; cbn [insertBy].
  - repeat constructor.
  - destruct (Z.leb_spec (f x - f y) 0) as [Hle|Hgt].
    + constructor; [now constructor|]. constructor; [lia|].
      eapply List.Forall_impl; [|exact Hy]. intros a Ha. cbv beta in *. lia.
    + constructor; [exact IH|].
      eapply Permutation_Forall; [symmetry; apply insertBy_perm|].
      constructor; [lia|exact Hy].
Qed.

Lemma sortBy_sorted l :
  StronglySorted (fun a b => (f a <= f b)%Z)
    (sortBy (fun a b => (f a - f b)%Z) l).
Proof.
  induction l as [|x l IH]; [constructor|].
  cbn [sortBy fold_right]. now apply insertBy_sorted.
Qed.

End sorting.

(** X14.  Grouped by days or by months, the output rows come in ascending
    order of the position of their label in the list of weekday, respectively
    month, abbreviations. *)
Theorem output_in_label_order {runtime : DateRuntime}
    (data : list (gmap string JsValue)) (headers : list string)
    (xAxis yAxis : string) (selectedYAxes : list string) (viewMode : ViewMode)
    (method : AggregationMethod) :
  isDateAxis data headers xAxis = true ->
  (exists out,
     processedData data headers xAxis yAxis selectedYAxes viewMode days method
       = Ok out /\
     StronglySorted
       (fun a b => (indexOf DAY_ABBR (a !! xAxis)
                    <= indexOf DAY_ABBR (b !! xAxis))%Z) out) /\
  (exists out,
     processedData data headers xAxis yAxis selectedYAxes viewMode months method
       = Ok out /\
     StronglySorted
       (fun a b => (indexOf MONTH_ABBR (a !! xAxis)
                    <= indexOf MONTH_ABBR (b !! xAxis))%Z) out).
Proof.
  intros Hd. split.
  - rewrite processedData_grouped by (discriminate || exact Hd).
    cbn [sortResult]. eexists. split; [reflexivity|].
    apply (sortBy_sorted (fun a : gmap string JsValue =>
                            indexOf DAY_ABBR (a !! xAxis))).
  - rewrite processedData_grouped by (discriminate || exact Hd).
    cbn [sortResult]. eexists. split; [reflexivity|].
    apply (sortBy_sorted (fun a : gmap string JsValue =>
                            indexOf MONTH_ABBR (a !! xAxis))).
Qed.

Lemma output_in_label_order_witness :
  exists out,
    @processedData sampleRuntime weekdayRows ["t"; "v"] "t" "v" [] single days
      sum = Ok out /\
    StronglySorted
      (fun a b => (indexOf DAY_ABBR (a !! "t")
                   <= indexOf DAY_ABBR (b !! "t"))%Z) out.
Proof.
  apply (@output_in_label_order sampleRuntime weekdayRows ["t"; "v"] "t" "v"
           [] single sum).
  vm_compute. reflexivity.
Defined.

(** ** Labels and weekday buckets *)

Section labels.

Context {runtime : DateRuntime}.
Variables (xAxis : string) (yAxes : list string) (timeGrouping : TimeGrouping).

Implicit Types (row : gmap string JsValue) (grouped : list (string * Group))
  (data : list (gmap string JsValue)).

Lemma updateGroup_Forall (P : string * Group -> Prop) key f grouped :
  (forall k g, P (k, g) -> P (k, f g)) ->
  Forall P grouped -> Forall P (updateGroup key f grouped).
Proof.
  intros Hf. induction 1 as [|[k g] rest Hk Hrest IH]; [constructor|].
  cbn [updateGroup]. destruct (String.eqb k key); constructor; auto.
Qed.

Lemma groupRows_labels data :
  Forall (fun entry =>
            exists date, groupKeyLabel timeGrouping date
                         = (entry.1, label entry.2))
         (groupRows xAxis yAxes timeGrouping data).
Proof.
  induction data as [|row data IH] using rev_ind; [constructor|].
  rewrite groupRows_snoc. unfold addRow.
  destruct (parseDate (row !! xAxis)) as [date|]; [|exact IH].
  destruct (groupKeyLabel timeGrouping date) as [groupKey groupLabel] eqn:E.
  apply updateGroup_Forall; [intros k g H; exact H|].
  destruct (hasGroup groupKey _); [exact IH|].
  apply Forall_app. split; [exact IH|]. constructor; [|constructor].
  exists date. exact E.
Qed.

Lemma aggregatedRow_label method key group :
  ~ In xAxis yAxes -> xAxis <> "_originalKey" ->
  aggregatedRow xAxis yAxes method (key, group) !! xAxis
    = Some (VStr (label group)).
Proof.
  intros Hn Hne. unfold aggregatedRow.
  rewrite (fold_setProp_other
             (fun y => VNum (toFixed2 (aggregatedValue method group y))))
    by exact Hn.
  rewrite lookup_insert_ne by congruence. apply lookup_singleton_eq.
Qed.

End labels.

(** X15.  Grouped by days, with weekday numbers below 7 as the runtime gives
    them, the output has at most seven rows; when the time column is none of
    the value columns (nor the reserved key), every row shows a weekday
    abbreviation under the time column. *)
Theorem days_output {runtime : DateRuntime}
    (data : list (gmap string JsValue)) (headers : list string)
    (xAxis yAxis : string) (selectedYAxes : list string) (viewMode : ViewMode)
    (method : AggregationMethod) :
  (forall date : Date, (getDay date < 7)%nat) ->
  isDateAxis data headers xAxis = true ->
  exists out,
    processedData data headers xAxis yAxis selectedYAxes viewMode days method
      = Ok out /\
    (length out <= 7)%nat /\
    (~ In xAxis (yAxesToAggregate viewMode yAxis selectedYAxes) ->
     xAxis <> "_originalKey" ->
     forall row, In row out ->
       exists name, In name DAY_ABBR /\ row !! xAxis = Some (VStr name)).
Proof.
  intros Hday Hd.
  set (yAxes := yAxesToAggregate viewMode yAxis selectedYAxes).
  set (grouped := groupRows xAxis yAxes days data).
  pose proof (processedData_cases data headers xAxis yAxis selectedYAxes
                viewMode days method ltac:(discriminate) Hd) as H.
  cbv zeta in H. fold yAxes in H. fold grouped in H.
  destruct (processedData _ _ _ _ _ _ _ _) as [out|];
    [|destruct H as [H _]; discriminate H].
  exists out. split; [reflexivity|]. split.
  - apply Permutation_length in H. rewrite length_map in H. rewrite H.
    destruct (groupRows_shape xAxis yAxes days data) as (Hnd & Hkeys & _).
    fold grouped in Hnd, Hkeys.
    rewrite <- (length_map fst grouped).
    change 7%nat with (length (map string_of_nat (seq 0 7))).
    apply NoDup_incl_length; [exact Hnd|].
    intros k Hk. apply Hkeys in Hk as (row & _ & Hk).
    unfold rowKey in Hk.
    destruct (parseDate (row !! xAxis)) as [date|]; [|discriminate].
    injection Hk as <-. cbn [groupKeyLabel fst].
    apply in_map, in_seq. specialize (Hday date). lia.
  - intros Hn Hne row Hrow.
    apply (Permutation_in _ H) in Hrow.
    apply in_map_iff in Hrow as ([k g] & <- & Hentry).
    rewrite aggregatedRow_label by assumption.
    pose proof (groupRows_labels xAxis yAxes days data) as Hl.
    rewrite List.Forall_forall in Hl.
    destruct (Hl _ Hentry) as (date & E). cbn [groupKeyLabel fst snd] in E.
    injection E as _ <-.
    exists (nth (getDay date) DAY_ABBR ""). split; [|reflexivity].
    apply nth_In. simpl. apply Hday.
Qed.

Lemma days_output_witness :
  exists out,
    @processedData sampleRuntime weekdayRows ["t"; "v"] "t" "v" [] single
      days count = Ok out /\
    (length out <= 7)%nat.
Proof.
  destruct (@days_output sampleRuntime weekdayRows ["t"; "v"] "t" "v" []
              single count) as (out & Hout & Hlen & _).
  - intros date. apply Nat.mod_upper_bound. discriminate.
  - vm_compute. reflexivity.
  - exists out. split; [exact Hout|exact Hlen].
Defined.

(** ** Averages and columns without numbers *)

Section column_laws.

Context {runtime : DateRuntime}.

Lemma observation_length (row : gmap string JsValue) column :
  (length (observation row column) <= 1)%nat.
Proof.
  unfold observation. destruct (row !! column) as [[s|v]|]; simpl; lia.
Qed.

Lemma observations_length (rows : list (gmap string JsValue)) column :
  (length (flat_map (fun row => observation row column) rows)
   <= length rows)%nat.
Proof.
  induction rows as [|row rows IH]; [simpl; lia|].
  cbn [flat_map]. rewrite length_app.
  pose proof (observation_length row column). simpl. lia.
Qed.

Lemma flat_map_nil {A B} (f : A -> list B) (l : list A) :
  (forall x, In x l -> f x = []) -> flat_map f l = [].
Proof.
  induction l as [|x l IH]; intros H; [reflexivity|]. cbn [flat_map].
  rewrite (H x) by (now left). apply IH. intros y Hy. apply H. now right.
Qed.

Lemma pushed_nothing yAxes column (row : gmap string JsValue) :
  observation row column = [] -> pushed yAxes column row = [].
Proof.
  intros H. unfold pushed. induction yAxes as [|y ys IH]; [reflexivity|].
  cbn [flat_map]. rewrite IH.
  destruct (String.eqb_spec y column) as [->|_]; [now rewrite H|reflexivity].
Qed.

End column_laws.

(** X16.  With the method "average" and value columns selected once each,
    the value a bucket shows for a column is the binary64 sum of the numeric
    observations of the column over the rows of the bucket, taken in row
    order, divided by the number of these observations (not by the number of
    rows), rounded to two decimals; it is 0 when there is no observation.
    A value column named [__proto__] gets no entry at all, unless it is the
    time column too. *)
Theorem average_of_bucket {runtime : DateRuntime}
    (data : list (gmap string JsValue)) (xAxis : string)
    (yAxes : list string) (timeGrouping : TimeGrouping)
    (key : string) (group : Group) (column : string) :
  List.NoDup yAxes -> In column yAxes ->
  In (key, group) (groupRows xAxis yAxes timeGrouping data) ->
  let obs := flat_map (fun row => observation row column)
               (contributing xAxis timeGrouping key data) in
  aggregatedRow xAxis yAxes average (key, group) !! column =
    (if ignoredColumn xAxis column then None
     else Some (VNum (toFixed2 (if (0 <? length obs)%nat
                                then jsDivLength (jsSum obs) (length obs)
                                else jsZero)))) /\
  (length obs <= rowCount group)%nat.
Proof.
  intros Hnd Hin Hentry obs.
  pose proof (bucket_values xAxis yAxes timeGrouping data key group column
                Hnd Hin Hentry) as Hv. fold obs in Hv.
  split.
  - rewrite aggregatedRow_lookup by exact Hin.
    unfold aggregatedValue. now rewrite Hv.
  - rewrite (bucket_rowCount xAxis yAxes timeGrouping data key group Hentry).
    apply observations_length.
Qed.

Lemma average_of_bucket_witness :
  exists group,
    In ("1", group) (@groupRows sampleRuntime "t" ["v"] days weekdayRows) /\
    aggregatedRow "t" ["v"] average ("1", group) !! "v" =
      Some (VNum (toFixed2 (NFin (Q2Qc 15)))).
Proof.
  assert (Hg : exists group,
    In ("1", group) (@groupRows sampleRuntime "t" ["v"] days weekdayRows)).
  { eexists. vm_compute. left. reflexivity. }
  destruct Hg as [group Hg]. exists group. split; [exact Hg|].
  destruct (@average_of_bucket sampleRuntime weekdayRows "t" ["v"] days "1"
              group "v") as [E _].
  - repeat constructor. intros [].
  - now left.
  - exact Hg.
  - rewrite E. vm_compute. reflexivity.
Defined.

(** X17.  A value column in which no row holds a number (a column that does
    not exist, or one of texts) shows 0 in every bucket, whatever the
    method; a value column named [__proto__] shows nothing, unless it is
    the time column too. *)
Theorem column_without_numbers {runtime : DateRuntime}
    (data : list (gmap string JsValue)) (xAxis : string)
    (yAxes : list string) (timeGrouping : TimeGrouping)
    (method : AggregationMethod) (column : string) :
  In column yAxes ->
  (forall row, In row data -> observation row column = []) ->
  forall entry, In entry (groupRows xAxis yAxes timeGrouping data) ->
    aggregatedRow xAxis yAxes method entry !! column =
      if ignoredColumn xAxis column then None else Some (countValue 0).
Proof.
  intros Hin Hnone [key group] Hentry.
  rewrite aggregatedRow_lookup by exact Hin.
  destruct (ignoredColumn xAxis column); [reflexivity|]. f_equal.
  destruct (groups_of_groupRows xAxis yAxes timeGrouping data)
    as (_ & Hb & _).
  destruct (Hb _ _ Hentry) as [_ Hv].
  assert (E : valuesOf group column = []).
  { rewrite Hv. apply flat_map_nil. intros row Hrow.
    apply pushed_nothing, Hnone.
    unfold contributing in Hrow. now apply filter_In in Hrow as [Hrow _]. }
  unfold aggregatedValue. rewrite E.
  destruct method; apply (toFixed2_count 0); reflexivity.
Qed.

Lemma column_without_numbers_witness :
  List.Forall
    (fun entry =>
       aggregatedRow "t" ["v"; "w"; "__proto__"] sum entry !! "w"
         = Some (countValue 0) /\
       aggregatedRow "t" ["v"; "w"; "__proto__"] sum entry !! "__proto__"
         = None)
    (@groupRows sampleRuntime "t" ["v"; "w"; "__proto__"] days weekdayRows).
Proof.
  apply List.Forall_forall. intros entry Hentry. split.
  - apply (@column_without_numbers sampleRuntime weekdayRows "t"
             ["v"; "w"; "__proto__"] days sum "w"); [right; now left| |exact Hentry].
    intros row Hrow. simpl in Hrow.
    repeat (destruct Hrow as [<-|Hrow]; [reflexivity|]). destruct Hrow.
  - apply (@column_without_numbers sampleRuntime weekdayRows "t"
             ["v"; "w"; "__proto__"] days sum "__proto__");
      [right; right; now left| |exact Hentry].
    intros row Hrow. simpl in Hrow.
    repeat (destruct Hrow as [<-|Hrow]; [reflexivity|]). destruct Hrow.
Defined.

(** ** The date-column gate *)

Section date_gate.

Context {runtime : DateRuntime}.

Lemma ascii_match_slash {T} (X Y : T) (b : ascii) :
  match b with "/"%char => X | _ => Y end = if Ascii.eqb b "/" then X else Y.
Proof. destruct b as [[] [] [] [] [] [] [] []]; reflexivity. Qed.

Lemma digitsThenSlash_eq s :
  digitsThenSlash s =
  match s with
  | String a (String b t) =>
      if Ascii.eqb b "/" then (if is_digit a then Some t else None)
      else match t with
           | String c r =>
               if Ascii.eqb c "/"
               then (if is_digit a && is_digit b then Some r else None)
               else None
           | "" => None
           end
  | _ => None
  end.
Proof.
  destruct s as [|a [|b t]]; try reflexivity.
  unfold digitsThenSlash.
  rewrite (ascii_match_slash (if is_digit a then Some t else None)).
  destruct (Ascii.eqb b "/"); [reflexivity|].
  destruct t as [|c r]; [reflexivity|].
  rewrite (ascii_match_slash (if is_digit a && is_digit b then Some r else None)).
  reflexivity.
Qed.

Lemma digitsThenSlash_includes s r :
  digitsThenSlash s = Some r -> includes "/" s = true.
Proof.
  rewrite digitsThenSlash_eq.
  destruct s as [|a [|b t]]; try discriminate. cbn [includes].
  destruct (Ascii.eqb a "/"); [reflexivity|].
  destruct (Ascii.eqb b "/"); [reflexivity|].
  destruct t as [|c t]; [discriminate|]. cbn [includes].
  destruct (Ascii.eqb c "/"); [reflexivity|discriminate].
Qed.

Lemma hasSlashDate_includes s : hasSlashDate s = true -> includes "/" s = true.
Proof.
  induction s as [|c r IH]; [discriminate|].
  cbn [hasSlashDate]. intros [H|H]%orb_prop.
  - unfold slashDateHere in H.
    destruct (digitsThenSlash (String c r)) as [r1|] eqn:E; [|discriminate].
    now apply digitsThenSlash_includes in E.
  - simpl. rewrite (IH H). now destruct (Ascii.eqb c "/").
Qed.

Lemma looksLikeDate_iff (value : option JsValue) :
  looksLikeDate value = true <->
  exists s, value = Some (VStr s) /\ s <> "" /\ is_Some (newDate (VStr s)) /\
    includes "-" s || includes "/" s || includes ":" s || hasFourDigits s
      = true.
Proof.
  unfold looksLikeDate. split.
  - destruct value as [[s|n]|]; cbn [falsy].
    + destruct s as [|c r]; [discriminate|]. cbn [is_empty].
      destruct (newDate (VStr (String c r))) as [date|] eqn:E; [|discriminate].
      intros H. exists (String c r). split; [reflexivity|].
      split; [discriminate|]. split; [eauto|].
      apply orb_prop in H as [H|H]; [exact H|].
      apply hasSlashDate_includes in H. rewrite H.
      now rewrite orb_true_r.
    + destruct n as [x|b|]; [destruct (Qeq_bool (this x) 0)| |];
        try discriminate; destruct (newDate _); discriminate.
    + discriminate.
  - intros (s & -> & Hne & [date Hd] & H). cbn [falsy].
    destruct s as [|c r]; [contradiction|]. cbn [is_empty].
    rewrite Hd, H. reflexivity.
Qed.

Lemma isDateAxis_iff (data : list (gmap string JsValue))
    (headers : list string) (xAxis : string) :
  isDateAxis data headers xAxis = true <->
  In xAxis headers /\
  exists row, In row (take 10 data) /\ looksLikeDate (row !! xAxis) = true.
Proof.
  unfold isDateAxis, dateHeaders. rewrite existsb_exists. split.
  - intros (h & Hin & E). apply String.eqb_eq in E. subst h.
    apply filter_In in Hin as [Hin Hex]. split; [exact Hin|].
    now apply existsb_exists in Hex.
  - intros (Hin & Hex). exists xAxis. split; [|apply String.eqb_refl].
    apply filter_In. split; [exact Hin|]. now apply existsb_exists.
Qed.

End date_gate.

(** X18.  The time column is taken for a date column exactly when it is one
    of the headers and, among the first ten rows, one holds under it a
    non-empty string that makes a valid date and contains a hyphen, a slash,
    a colon or four digits in a row (the last test of the source, for a
    slash-separated date, never decides). *)
Theorem date_axis_condition {runtime : DateRuntime}
    (data : list (gmap string JsValue)) (headers : list string)
    (xAxis : string) :
  isDateAxis data headers xAxis = true <->
  In xAxis headers /\
  exists row s, In row (take 10 data) /\ row !! xAxis = Some (VStr s) /\
    s <> "" /\ is_Some (newDate (VStr s)) /\
    includes "-" s || includes "/" s || includes ":" s || hasFourDigits s
      = true.
Proof.
  rewrite isDateAxis_iff. split.
  - intros (Hin & row & Hrow & H). split; [exact Hin|].
    apply looksLikeDate_iff in H as (s & Hs & H). exists row, s. auto.
  - intros (Hin & row & s & Hrow & Hs & H). split; [exact Hin|].
    exists row. split; [exact Hrow|]. apply looksLikeDate_iff. eauto.
Qed.

(** X19.  When none of the first ten rows holds a string under the time
    column (the column holds numbers, or is missing), a grouping other than
    "none" groups nothing: the first 50 rows come back as they are. *)
Theorem no_grouping_without_date_strings {runtime : DateRuntime}
    (data : list (gmap string JsValue)) (headers : list string)
    (xAxis yAxis : string) (selectedYAxes : list string) (viewMode : ViewMode)
    (timeGrouping : TimeGrouping) (method : AggregationMethod) :
  timeGrouping <> none ->
  (forall row s, In row (take 10 data) -> row !! xAxis <> Some (VStr s)) ->
  processedData data headers xAxis yAxis selectedYAxes viewMode timeGrouping
    method = Ok (take 50 data).
Proof.
  intros Hg Hno. apply processedData_not_date_axis; [exact Hg|].
  destruct (isDateAxis data headers xAxis) eqn:E; [|reflexivity].
  apply isDateAxis_iff in E as (_ & row & Hrow & H).
  apply looksLikeDate_iff in H as (s & Hs & _).
  exfalso. now apply (Hno row s).
Qed.

Lemma no_grouping_without_date_strings_witness :
  @processedData sampleRuntime
    [ <["v" := VNum (NFin (Q2Qc 3))]> {[ "t" := VNum (NFin (Q2Qc 2025)) ]} ]
    ["t"; "v"] "t" "v" [] single days sum =
  Ok [ <["v" := VNum (NFin (Q2Qc 3))]> {[ "t" := VNum (NFin (Q2Qc 2025)) ]} ].
Proof.
  apply (@no_grouping_without_date_strings sampleRuntime).
  - discriminate.
  - intros row s [<-|[]]. discriminate.
Defined.

(** * Properties of the selection of value columns *)

Section toggling.

Implicit Types (prev : list string) (axis : string).

Lemma includes_axis_In axis prev :
  existsb (String.eqb axis) prev = true <-> In axis prev.
Proof.
  rewrite existsb_exists. split.
  - intros (x & Hx & E). apply String.eqb_eq in E. now subst.
  - intros H. exists axis. split; [exact H|apply String.eqb_refl].
Qed.

Lemma filter_out_absent axis prev :
  ~ In axis prev ->
  List.filter (fun a => negb (String.eqb a axis)) prev = prev.
Proof.
  intros Hn. apply filter_all_true. intros x Hx.
  destruct (String.eqb_spec x axis) as [->|_]; [contradiction|reflexivity].
Qed.

Lemma filter_out_length axis prev :
  List.NoDup prev -> In axis prev ->
  S (length (List.filter (fun a => negb (String.eqb a axis)) prev))
    = length prev.
Proof.
  induction 1 as [|x l Hx Hnd IH]; [intros []|]. cbn [List.filter length].
  destruct (String.eqb_spec x axis) as [->|Hne]; cbn [negb].
  - intros _. now rewrite filter_out_absent.
  - intros [E|Hin]; [contradiction|]. cbn [length]. now rewrite IH.
Qed.

End toggling.

(** X20.  Toggling a value column keeps a valid selection valid: from a
    selection of distinct columns, one at least and eight at most, it yields
    again distinct columns, one at least and eight at most, and it changes
    the membership of no column but the toggled one. *)
Theorem toggleYAxis_keeps_valid (prev : list string) (axis : string) :
  List.NoDup prev -> prev <> [] -> (length prev <= 8)%nat ->
  List.NoDup (toggleYAxis prev axis) /\
  toggleYAxis prev axis <> [] /\
  (length (toggleYAxis prev axis) <= 8)%nat /\
  forall x, x <> axis -> (In x (toggleYAxis prev axis) <-> In x prev).
Proof.
  intros Hnd Hne Hlen. unfold toggleYAxis.
  destruct (existsb (String.eqb axis) prev) eqn:Hin.
  - apply includes_axis_In in Hin.
    destruct (Nat.eqb_spec (length prev) 1) as [H1|H1];
      [repeat split; auto|].
    pose proof (filter_out_length axis prev Hnd Hin) as Hf.
    split; [now apply List.NoDup_filter|]. split; [|split].
    + intros E. rewrite E in Hf. simpl in Hf. congruence.
    + lia.
    + intros x Hx. rewrite filter_In. split; [now intros [H _]|].
      intros H. split; [exact H|].
      destruct (String.eqb_spec x axis); [contradiction|reflexivity].
  - assert (Hn : ~ In axis prev).
    { intros H. apply includes_axis_In in H. congruence. }
    destruct (Nat.leb_spec 8 (length prev)) as [H8|H8];
      [repeat split; auto|].
    split; [now apply NoDup_snoc|]. split; [|split].
    + destruct prev; discriminate.
    + rewrite length_app. simpl. lia.
    + intros x Hx. rewrite in_app_iff. cbn [In]. split; [|auto].
      intros [H|[E|[]]]; [exact H|]. now elim Hx.
Qed.

Lemma toggleYAxis_keeps_valid_witness :
  toggleYAxis ["a"; "b"] "a" = ["b"] /\
  List.NoDup (toggleYAxis ["a"; "b"] "a") /\
  toggleYAxis ["b"] "b" = ["b"].
Proof.
  destruct (toggleYAxis_keeps_valid ["a"; "b"] "a") as (Hnd & _).
  - repeat constructor; intros H;
      repeat (destruct H as [H|H]; [discriminate H|]); exact H.
  - discriminate.
  - simpl. lia.
  - repeat split. exact Hnd.
Defined.

(** X21.  Toggling the same column twice gives back the same selection up
    to order, as long as both toggles act (distinct columns, two at least and
    fewer than eight); it gives back the very same list when the column was
    not selected before. *)
Theorem toggleYAxis_twice (prev : list string) (axis : string) :
  List.NoDup prev -> (2 <= length prev)%nat -> (length prev < 8)%nat ->
  Permutation (toggleYAxis (toggleYAxis prev axis) axis) prev /\
  (~ In axis prev -> toggleYAxis (toggleYAxis prev axis) axis = prev).
Proof.
  intros Hnd H2 H8.
  destruct (in_dec string_dec axis prev) as [Hin|Hn].
  - split; [|intros Hn; contradiction].
    pose proof (filter_out_length axis prev Hnd Hin) as Hf.
    assert (E1 : toggleYAxis prev axis =
                 List.filter (fun a => negb (String.eqb a axis)) prev).
    { unfold toggleYAxis.
      rewrite (proj2 (includes_axis_In axis prev) Hin).
      destruct (Nat.eqb_spec (length prev) 1); [lia|reflexivity]. }
    rewrite E1. set (rest := List.filter _ prev) in *.
    assert (Hnot : ~ In axis rest).
    { unfold rest. rewrite filter_In. intros [_ H].
      now rewrite String.eqb_refl in H. }
    unfold toggleYAxis.
    destruct (existsb (String.eqb axis) rest) eqn:E;
      [apply includes_axis_In in E; contradiction|].
    destruct (Nat.leb_spec 8 (length rest)); [lia|].
    apply Permutation.NoDup_Permutation.
    + now apply NoDup_snoc; [apply List.NoDup_filter|].
    + exact Hnd.
    + intros x. rewrite in_app_iff. unfold rest. rewrite filter_In.
      cbn [In]. split.
      * intros [[Hx _]|[<-|[]]]; assumption.
      * intros Hx. destruct (String.eqb_spec x axis) as [->|Hne];
          [right; now left|left; now split].
  - assert (E : toggleYAxis (toggleYAxis prev axis) axis = prev).
    { assert (E1 : toggleYAxis prev axis = prev ++ [axis]).
      { unfold toggleYAxis.
        destruct (existsb (String.eqb axis) prev) eqn:E;
          [apply includes_axis_In in E; contradiction|].
        destruct (Nat.leb_spec 8 (length prev)); [lia|reflexivity]. }
      rewrite E1. unfold toggleYAxis.
      rewrite (proj2 (includes_axis_In axis (prev ++ [axis])))
        by (apply in_or_app; right; now left).
      rewrite length_app.
      destruct (Nat.eqb_spec (length prev + length [axis]) 1);
        [simpl in *; lia|].
      rewrite List.filter_app, filter_out_absent by exact Hn.
      cbn. rewrite String.eqb_refl. cbn. apply app_nil_r. }
    split; [now rewrite E|auto].
Qed.

Lemma toggleYAxis_twice_witness :
  toggleYAxis (toggleYAxis ["a"; "b"] "c") "c" = ["a"; "b"].
Proof.
  apply (toggleYAxis_twice ["a"; "b"] "c").
  - repeat constructor; intros H;
      repeat (destruct H as [H|H]; [discriminate H|]); exact H.
  - simpl. lia.
  - simpl. lia.
  - intros H. repeat (destruct H as [H|H]; [discriminate H|]). exact H.
Defined.

(** * Properties of the metric categories *)

Section categories.

Variable category : string -> string.

Implicit Types (groups : list (string * list string))
  (headers : list string).

Lemma pushHeader_keys k h groups :
  map fst (pushHeader k h groups) =
    if existsb (String.eqb k) (map fst groups) then map fst groups
    else map fst groups ++ [k].
Proof.
  induction groups as [|[c l] rest IH]; [reflexivity|].
  cbn [pushHeader map fst existsb].
  rewrite (String.eqb_sym k c).
  destruct (String.eqb c k); [reflexivity|]. cbn [map fst orb].
  rewrite IH. now destruct (existsb (String.eqb k) (map fst rest)).
Qed.

Lemma pushHeader_concat k h groups :
  Permutation (concat (map snd (pushHeader k h groups)))
              (concat (map snd groups) ++ [h]).
Proof.
  induction groups as [|[c l] rest IH]; [reflexivity|].
  cbn [pushHeader]. destruct (String.eqb c k); cbn [map snd concat].
  - rewrite <- !app_assoc. apply Permutation_app_head, Permutation_app_comm.
  - rewrite IH. now rewrite app_assoc.
Qed.

Lemma pushHeader_In k h groups c l :
  List.NoDup (map fst groups) -> In (c, l) (pushHeader k h groups) ->
  (c = k /\ ((exists l0, In (k, l0) groups /\ l = l0 ++ [h]) \/
             (~ In k (map fst groups) /\ l = [h]))) \/
  (c <> k /\ In (c, l) groups).
Proof.
  induction groups as [|[c0 l0] rest IH]; cbn [pushHeader map fst].
  - intros _ [[= <- <-]|[]]. left. split; [reflexivity|]. right.
    split; [intros []|reflexivity].
  - intros Hnd. inversion Hnd as [|? ? Hc0 Hrest]; subst.
    destruct (String.eqb_spec c0 k) as [->|Hne].
    + intros [[= <- <-]|Hin].
      * left. split; [reflexivity|]. left. exists l0. split; [now left|reflexivity].
      * right. split; [|now right]. intros ->. apply Hc0.
        apply in_map_iff. now exists (k, l).
    + intros [[= <- <-]|Hin]; [right; split; [exact Hne|now left]|].
      destruct (IH Hrest Hin) as [(-> & [(l1 & Hl1 & ->)|(Hnk & ->)])|[Hck Hcl]].
      * left. split; [reflexivity|]. left. exists l1. split; [now right|reflexivity].
      * left. split; [reflexivity|]. right. split; [|reflexivity].
        intros [E|H]; [congruence|contradiction].
      * right. split; [exact Hck|now right].
Qed.

Lemma pushHeader_has k h groups :
  exists l, In (k, l) (pushHeader k h groups) /\ In h l.
Proof.
  induction groups as [|[c l] rest IH]; cbn [pushHeader].
  - exists [h]. split; now left.
  - destruct (String.eqb_spec c k) as [->|Hne].
    + exists (l ++ [h]). split; [now left|]. apply in_or_app. right. now left.
    + destruct IH as (l' & Hin & Hh). exists l'. split; [now right|exact Hh].
Qed.

Lemma groupByCategory_snoc headers h :
  groupByCategory category (headers ++ [h]) =
  pushHeader (category h) h (groupByCategory category headers).
Proof. unfold groupByCategory. now rewrite fold_left_app. Qed.

Lemma keysIn_existsb k (keys : list string) :
  existsb (String.eqb k) keys = true <-> In k keys.
Proof.
  rewrite existsb_exists. split.
  - intros (x & Hx & E). apply String.eqb_eq in E. now subst.
  - intros H. exists k. split; [exact H|apply String.eqb_refl].
Qed.

Lemma filter_category_snoc c headers h :
  List.filter (fun x => String.eqb (category x) c) (headers ++ [h]) =
  List.filter (fun x => String.eqb (category x) c) headers ++
    if String.eqb (category h) c then [h] else [].
Proof.
  rewrite List.filter_app. reflexivity.
Qed.

Lemma groupByCategory_spec headers :
  let groups := groupByCategory category headers in
  List.NoDup (map fst groups) /\
  (forall c l, In (c, l) groups ->
     l = List.filter (fun h => String.eqb (category h) c) headers /\ l <> []) /\
  (forall c, ~ In c (map fst groups) ->
     List.filter (fun h => String.eqb (category h) c) headers = []) /\
  Permutation (concat (map snd groups)) headers.
Proof.
  induction headers as [|h headers IH] using rev_ind.
  - cbn. split; [constructor|]. split; [intros c l []|]. split; [reflexivity|].
    constructor.
  - cbv zeta in *. destruct IH as (Hnd & Hin & Hout & Hperm).
    rewrite groupByCategory_snoc.
    set (groups := groupByCategory category headers) in *.
    split; [|split; [|split]].
    + rewrite pushHeader_keys.
      destruct (existsb (String.eqb (category h)) (map fst groups)) eqn:E;
        [exact Hnd|].
      apply NoDup_snoc; [exact Hnd|]. intros H.
      apply keysIn_existsb in H. congruence.
    + intros c l Hcl. rewrite filter_category_snoc.
      apply pushHeader_In in Hcl
        as [(-> & [(l0 & Hl0 & ->)|(Hnk & ->)])|[Hck Hcl]]; [| | |exact Hnd].
      * rewrite String.eqb_refl. destruct (Hin _ _ Hl0) as [<- _].
        split; [reflexivity|]. now destruct l0.
      * rewrite String.eqb_refl, (Hout _ Hnk). split; [reflexivity|discriminate].
      * destruct (String.eqb_spec (category h) c) as [E|_]; [congruence|].
        rewrite app_nil_r. now apply Hin.
    + intros c Hc. rewrite filter_category_snoc.
      rewrite pushHeader_keys in Hc.
      destruct (existsb (String.eqb (category h)) (map fst groups)) eqn:E.
      * apply keysIn_existsb in E.
        destruct (String.eqb_spec (category h) c) as [<-|_]; [contradiction|].
        rewrite app_nil_r. now apply Hout.
      * destruct (String.eqb_spec (category h) c) as [<-|_].
        -- exfalso. apply Hc. apply in_or_app. right. now left.
        -- rewrite app_nil_r. apply Hout. intros H. apply Hc.
           apply in_or_app. now left.
    + rewrite pushHeader_concat. now apply Permutation_app_tail.
Qed.

Lemma groupByCategory_iff headers c l :
  In (c, l) (groupByCategory category headers) <->
  l = List.filter (fun h => String.eqb (category h) c) headers /\ l <> [].
Proof.
  destruct (groupByCategory_spec headers) as (Hnd & Hin & Hout & _).
  split; [apply Hin|]. intros [-> Hne].
  destruct (in_dec string_dec c (map fst (groupByCategory category headers)))
    as [Hc|Hc].
  - apply in_map_iff in Hc as ([c' l'] & E & Hcl). cbn in E. subst c'.
    destruct (Hin _ _ Hcl) as [<- _]. exact Hcl.
  - now rewrite (Hout _ Hc) in Hne.
Qed.

End categories.

(** X22.  The two categorizers, [groupMetricsByCategory] of the parser
    module and [metricGroups] of the chart, sort every header into exactly
    one group: the groups have distinct names; the group of a name exists
    exactly when some header has that category, and it holds the headers of
    that category in their original order; together the groups hold the
    headers, each once. *)
Theorem categorizers_partition (headers : list string) :
  (List.NoDup (map fst (groupMetricsByCategory headers)) /\
   (forall c l, In (c, l) (groupMetricsByCategory headers) <->
      l = List.filter (fun h => String.eqb (categoryOf h) c) headers /\
      l <> []) /\
   Permutation (concat (map snd (groupMetricsByCategory headers))) headers) /\
  (List.NoDup (map fst (metricGroups headers)) /\
   (forall c l, In (c, l) (metricGroups headers) <->
      l = List.filter (fun h => String.eqb (metricCategory h) c) headers /\
      l <> []) /\
   Permutation (concat (map snd (metricGroups headers))) headers).
Proof.
  unfold groupMetricsByCategory, metricGroups.
  split.
  - destruct (groupByCategory_spec categoryOf headers) as (Hnd & _ & _ & Hp).
    split; [exact Hnd|]. split; [|exact Hp].
    intros c l. apply groupByCategory_iff.
  - destruct (groupByCategory_spec metricCategory headers)
      as (Hnd & _ & _ & Hp).
    split; [exact Hnd|]. split; [|exact Hp].
    intros c l. apply groupByCategory_iff.
Qed.

(** * Properties of the fallback parser *)

Lemma serverRow_loop_absent headers index values row h :
  ~ In h headers ->
  serverRow_loop headers index values row !! h = row !! h.
Proof.
  revert index row. induction headers as [|x rest IH]; intros index row Hh;
    [reflexivity|].
  cbn [serverRow_loop]. rewrite IH by (intros H; apply Hh; now right).
  apply setProp_lookup_ne. intros ->. apply Hh. now left.
Qed.

Lemma serverRow_loop_proto headers index values row :
  row !! "__proto__" = None ->
  serverRow_loop headers index values row !! "__proto__" = None.
Proof.
  revert index row. induction headers as [|x rest IH]; intros index row Hrow;
    [exact Hrow|].
  cbn [serverRow_loop]. apply IH.
  destruct (String.eqb_spec x "__proto__") as [->|Hne].
  - now rewrite setProp_proto.
  - now rewrite setProp_lookup_ne.
Qed.

Lemma serverRow_loop_at headers index values row i h :
  List.NoDup headers -> headers !! i = Some h -> h <> "__proto__" ->
  serverRow_loop headers index values row !! h =
    Some (serverCoerce (default "" (values !! (index + i)%nat))).
Proof.
  revert index row i.
  induction headers as [|x rest IH]; intros index row i Hnd Hi Hp;
    [discriminate|].
  inversion Hnd as [|? ? Hx Hrest]; subst. cbn [serverRow_loop].
  destruct i as [|i]; cbn in Hi.
  - injection Hi as ->. rewrite serverRow_loop_absent by exact Hx.
    rewrite Nat.add_0_r. now apply setProp_lookup_eq.
  - rewrite (IH (S index) _ i Hrest Hi Hp). do 4 f_equal. lia.
Qed.

Lemma serverRow_loop_keys headers index values row h :
  is_Some (serverRow_loop headers index values row !! h) <->
  (h <> "__proto__" /\ In h headers) \/ is_Some (row !! h).
Proof.
  revert index row. induction headers as [|x rest IH]; intros index row.
  - cbn. tauto.
  - cbn [serverRow_loop]. rewrite IH, setProp_is_Some. cbn [In]. split.
    + intros [[Hp Hin]|[Hrow|[-> Hp]]]; auto.
    + intros [[Hp [->|Hin]]|Hrow]; auto.
Qed.

Lemma serverParse_cases (csvContent : string) :
  serverParse csvContent =
    if is_empty csvContent then Throw "No CSV content provided"
    else Ok {| serverHeaders := serverCells (hd "" (textLines csvContent));
               serverData :=
                 map (fun line =>
                        serverRow_loop
                          (serverCells (hd "" (textLines csvContent))) 0
                          (serverCells line) ∅)
                     (tl (textLines csvContent));
               serverRowCount := length (tl (textLines csvContent)) |}.
Proof.
  unfold serverParse. destruct (is_empty csvContent); [reflexivity|].
  pose proof (split_nonempty "010"%char (trim csvContent)) as Hne.
  unfold textLines in *.
  destruct (split "010"%char (trim csvContent)); [contradiction|].
  cbn [length Nat.eqb]. now rewrite length_map.
Qed.

Lemma serverCoerce_empty : serverCoerce "" = VNum jsZero.
Proof. reflexivity. Qed.

(** X23.  The fallback parser rejects the empty text and nothing else: the
    split of a text into lines is never empty, so the answer
    [Empty CSV file] is never given. *)
Theorem serverParse_rejects_only_empty (csvContent message : string) :
  serverParse csvContent = Throw message <->
  csvContent = "" /\ message = "No CSV content provided".
Proof.
  rewrite serverParse_cases. destruct csvContent as [|c r]; cbn [is_empty].
  - split; [intros [= <-]; now split|intros [_ ->]; reflexivity].
  - split; [discriminate|intros [[=] _]].
Qed.

(** X24.  A result of the fallback parser has one row for every line after
    the first, blank lines included, [rowCount] is that number, and every
    row has an entry for every header but the reserved name [__proto__],
    and for nothing else. *)
Theorem serverParse_rows_complete (csvContent : string) (r : ServerResult) :
  serverParse csvContent = Ok r ->
  serverHeaders r = serverCells (hd "" (textLines csvContent)) /\
  serverRowCount r = length (serverData r) /\
  length (serverData r) = countChar "010"%char (trim csvContent) /\
  Forall (fun row => forall h, is_Some (row !! h) <->
                                 h <> "__proto__" /\ In h (serverHeaders r))
         (serverData r).
Proof.
  rewrite serverParse_cases. destruct (is_empty csvContent); [discriminate|].
  intros [= <-]. cbn [serverHeaders serverData serverRowCount].
  rewrite length_map. split; [reflexivity|]. split; [reflexivity|]. split.
  - unfold textLines. pose proof (length_split "010"%char (trim csvContent)) as E.
    destruct (split "010"%char (trim csvContent)); cbn [tl length] in *; lia.
  - apply List.Forall_forall. intros row (line & <- & _)%in_map_iff h.
    rewrite serverRow_loop_keys, lookup_empty. split; [|now left].
    intros [H|[x [=]]]. exact H.
Qed.

Lemma serverParse_rows_complete_witness :
  exists r,
    serverParse ("a,__proto__" +:+ nl +:+ "1" +:+ nl +:+ nl +:+ "x,2") = Ok r /\
    serverRowCount r = 3%nat /\
    Forall (fun row => forall h, is_Some (row !! h) <->
                                   h <> "__proto__" /\ In h ["a"; "__proto__"])
           (serverData r).
Proof.
  eexists. split; [reflexivity|].
  pose proof (serverParse_rows_complete
                ("a,__proto__" +:+ nl +:+ "1" +:+ nl +:+ nl +:+ "x,2") _ eq_refl)
    as (_ & Hcount & Hlen & Hrows).
  split; [reflexivity|exact Hrows].
Defined.

(** X25.  With distinct headers, the fallback parser files the cells of a
    line by position: the entry of the i-th header is the typed i-th cell of
    the line, split at every comma; where the line has no i-th cell, or an
    empty one, the entry is the number 0.  The reserved name [__proto__]
    is the exception: a header of that name gets no entry. *)
Theorem serverParse_row_by_position (csvContent : string) (r : ServerResult)
    (k i : nat) (line h : string) :
  serverParse csvContent = Ok r ->
  List.NoDup (serverHeaders r) ->
  tl (textLines csvContent) !! k = Some line ->
  serverHeaders r !! i = Some h ->
  exists row, serverData r !! k = Some row /\
    row !! h =
      (if String.eqb h "__proto__" then None
       else Some (serverCoerce (default "" (serverCells line !! i)))) /\
    (h <> "__proto__" -> default "" (serverCells line !! i) = "" ->
     row !! h = Some (VNum jsZero)).
Proof.
  rewrite serverParse_cases. destruct (is_empty csvContent); [discriminate|].
  intros [= <-]. cbn [serverHeaders serverData serverRowCount].
  intros Hnd Hk Hi. eexists. split.
  - rewrite list_lookup_fmap, Hk. reflexivity.
  - destruct (String.eqb_spec h "__proto__") as [->|Hp].
    + split; [|intros Hp; now elim Hp].
      apply serverRow_loop_proto, lookup_empty.
    + rewrite (serverRow_loop_at _ 0 _ _ i h Hnd Hi Hp). cbn [Nat.add].
      split; [reflexivity|]. intros _ ->. reflexivity.
Qed.

Lemma serverParse_row_by_position_witness :
  exists r row,
    serverParse ("a,b,__proto__" +:+ nl +:+ "7,,x,y" +:+ nl +:+ "5") = Ok r /\
    serverData r !! 1%nat = Some row /\
    row !! "b" = Some (VNum jsZero) /\
    row !! "__proto__" = None.
Proof.
  eexists.
  destruct (serverParse_row_by_position
              ("a,b,__proto__" +:+ nl +:+ "7,,x,y" +:+ nl +:+ "5") _ 1 1 "5"
              "b" eq_refl)
    as (row & Hrow & _ & Hzero).
  - vm_compute. repeat constructor; cbn; intuition discriminate.
  - reflexivity.
  - reflexivity.
  - exists row. split; [reflexivity|]. split; [exact Hrow|]. split.
    + apply Hzero; [discriminate|reflexivity].
    + vm_compute in Hrow. injection Hrow as <-. reflexivity.
Defined.

(** X26.  When the entry point of the client rejects a text, the fallback
    parser gives no rows for it either: it rejects the empty text, and for
    any other text it returns the cells of the only line as headers, with
    no data. *)
Theorem fallback_gives_no_rows (csvText message : string) :
  parseCSV csvText = Throw message ->
  (csvText = "" /\ serverParse csvText = Throw "No CSV content provided") \/
  (exists r, serverParse csvText = Ok r /\
     serverHeaders r = serverCells (trim csvText) /\
     serverData r = [] /\ serverRowCount r = 0%nat).
Proof.
  intros Hthrow. rewrite serverParse_cases.
  destruct csvText as [|c t]; [left; now split|]. right.
  cbn [is_empty]. eexists. split; [reflexivity|].
  cbn [serverHeaders serverData serverRowCount].
  assert (Hone : textLines (String c t) = [trim (String c t)]).
  { unfold parseCSV in Hthrow. rewrite length_zero_empty in Hthrow.
    cbn [is_empty orb] in Hthrow.
    destruct (is_empty (trim (String c t))) eqn:He.
    - apply is_empty_true in He. unfold textLines. rewrite He. reflexivity.
    - destruct (Nat.ltb_spec (length (textLines (String c t))) 2) as [Hlt|Hge].
      + unfold textLines in *.
        pose proof (length_split "010"%char (trim (String c t))) as E.
        assert (Hc : countChar "010"%char (trim (String c t)) = 0%nat) by lia.
        clear -Hc. induction (trim (String c t)) as [|d u IH]; [reflexivity|].
        rewrite split_cons. cbn [countChar] in Hc.
        destruct (Ascii.eqb d "010"); [discriminate|].
        cbn in Hc. rewrite (IH Hc). reflexivity.
      + exfalso.
        destruct (detectCompoundFormat _ _); [|discriminate].
        destruct (parseCompoundCSV_two_lines _ Hge) as (r & E & _).
        rewrite E in Hthrow. discriminate. }
  rewrite Hone. cbn [hd tl map length]. auto.
Qed.

Lemma fallback_gives_no_rows_witness :
  exists r, serverParse "a,b" = Ok r /\
            serverHeaders r = ["a"; "b"] /\ serverData r = [].
Proof.
  destruct (fallback_gives_no_rows "a,b" InsufficientRowsError eq_refl)
    as [[Hempty _]|(r & Hr & Hh & Hd & _)]; [discriminate|].
  exists r. split; [exact Hr|]. split; [exact Hh|exact Hd].
Defined.

(** * [Number] and [parseFloat] on the same text *)

Section number_texts.

Lemma span_digit_ws w :
  all_chars is_ws w = true -> span is_digit w = ("", w).
Proof.
  destruct w as [|c w]; [reflexivity|]. cbn [all_chars span].
  intros [Hc _]%andb_prop. now rewrite (ws_not_digit _ Hc).
Qed.

Lemma span_app_stop p a w :
  span p w = ("", w) ->
  span p (a +:+ w) = (fst (span p a), snd (span p a) +:+ w).
Proof.
  intros Hw. induction a as [|c a IH]; [rewrite append_nil; exact Hw|].
  rewrite append_cons. cbn [span]. destruct (p c); [|reflexivity].
  rewrite IH. now destruct (span p a).
Qed.

Lemma sign_app t w :
  t <> "" -> sign (t +:+ w) = (fst (sign t), snd (sign t) +:+ w).
Proof.
  destruct t as [|c r]; [congruence|]. intros _. rewrite append_cons.
  destruct c as [[] [] [] [] [] [] [] []]; reflexivity.
Qed.

Lemma fractionPart_app s2 w :
  all_chars is_ws w = true ->
  fractionPart (s2 +:+ w) =
    (fst (fractionPart s2), snd (fractionPart s2) +:+ w).
Proof.
  intros Hw. destruct s2 as [|c r].
  - rewrite append_nil. destruct w as [|d w]; [reflexivity|].
    cbn [all_chars] in Hw. apply andb_prop in Hw as [Hd _].
    destruct d as [[] [] [] [] [] [] [] []]; try discriminate; reflexivity.
  - rewrite append_cons.
    destruct (Ascii.eqb_spec c ".") as [->|Hne].
    + cbn [fractionPart]. apply span_app_stop. now apply span_digit_ws.
    + destruct c as [[] [] [] [] [] [] [] []]; try reflexivity.
      now elim Hne.
Qed.

Lemma exponentAll_prefix s3 w e :
  all_chars is_ws w = true ->
  exponentAll s3 = Some e -> exponent (s3 +:+ w) = e.
Proof.
  intros Hw. destruct s3 as [|c r].
  - intros [= <-]. rewrite append_nil. destruct w as [|d w]; [reflexivity|].
    cbn [all_chars] in Hw. apply andb_prop in Hw as [Hd _].
    destruct d as [[] [] [] [] [] [] [] []]; try discriminate; reflexivity.
  - rewrite append_cons. cbn [exponentAll exponent].
    destruct (Ascii.eqb c "e" || Ascii.eqb c "E"); [|discriminate].
    destruct r as [|d r].
    { cbn. discriminate. }
    rewrite sign_app by discriminate.
    destruct (sign (String d r)) as [neg r1]. cbn [fst snd].
    rewrite span_app_stop by now apply span_digit_ws.
    destruct (span is_digit r1) as [ds rest]. cbn [fst snd].
    destruct (is_empty ds); [discriminate|].
    destruct (is_empty rest); [|discriminate]. now intros [= <-].
Qed.

Lemma parseFloat_eq s :
  parseFloat s =
    let '(neg, s1) := sign (trimStart s) in
    match prefix_of "Infinity" s1 with
    | Some _ => NInf neg
    | None =>
        let '(ip, s2) := span is_digit s1 in
        let '(fp, s3) := fractionPart s2 in
        if is_empty ip && is_empty fp then NNaN
        else
          roundDouble
            (scale10 (if neg then (- digits_val 0 (ip +:+ fp))%Z
                      else digits_val 0 (ip +:+ fp))
               (exponent s3 - Z.of_nat (String.length fp)))
    end.
Proof. reflexivity. Qed.

Lemma decimalLiteral_eq s :
  decimalLiteral s =
    let '(neg, s1) := sign s in
    if String.eqb s1 "Infinity" then NInf neg
    else
      let '(ip, s2) := span is_digit s1 in
      let '(fp, s3) := fractionPart s2 in
      if is_empty ip && is_empty fp then NNaN
      else
        match exponentAll s3 with
        | Some e =>
            roundDouble
              (scale10 (if neg then (- digits_val 0 (ip +:+ fp))%Z
                        else digits_val 0 (ip +:+ fp))
                 (e - Z.of_nat (String.length fp)))
        | None => NNaN
        end.
Proof. reflexivity. Qed.

Lemma no_Infinity_prefix s1 w :
  is_empty (fst (span is_digit s1)) &&
    is_empty (fst (fractionPart (snd (span is_digit s1)))) = false ->
  prefix_of "Infinity" (s1 +:+ w) = None.
Proof.
  destruct s1 as [|c r]; [discriminate|]. rewrite append_cons.
  intros H. cbn [prefix_of].
  destruct (Ascii.eqb_spec "I" c) as [<-|]; [discriminate H|reflexivity].
Qed.

Lemma decimalLiteral_prefix t w :
  all_chars is_ws w = true -> trimStart t = t ->
  decimalLiteral t <> NNaN -> parseFloat (t +:+ w) = decimalLiteral t.
Proof.
  intros Hw Ht Hn.
  assert (Hne : t <> "") by (intros ->; now apply Hn).
  assert (Hstart : trimStart (t +:+ w) = t +:+ w).
  { destruct t as [|c r]; [congruence|]. rewrite append_cons.
    cbn [trimStart] in *. destruct (is_ws c); [|reflexivity].
    exfalso. apply (f_equal String.length) in Ht.
    assert (Hlen : forall u, (String.length (trimStart u) <= String.length u)%nat).
    { induction u as [|d u IH]; simpl; [lia|].
      destruct (is_ws d); simpl; lia. }
    pose proof (Hlen r). simpl in Ht. lia. }
  revert Hn. rewrite parseFloat_eq, Hstart, decimalLiteral_eq.
  rewrite sign_app by exact Hne.
  destruct (sign t) as [neg s1]. cbn [fst snd]. intros Hn.
  destruct (String.eqb s1 "Infinity") eqn:Hinf.
  { apply String.eqb_eq in Hinf. subst s1. now rewrite prefix_of_app. }
  rewrite span_app_stop by now apply span_digit_ws.
  pose proof (no_Infinity_prefix s1 w) as Hpre.
  destruct (span is_digit s1) as [ip s2]. cbn [fst snd] in *.
  rewrite fractionPart_app by exact Hw.
  destruct (fractionPart s2) as [fp s3]. cbn [fst snd] in *.
  destruct (is_empty ip && is_empty fp); [now elim Hn|].
  rewrite Hpre by reflexivity.
  destruct (exponentAll s3) as [e|] eqn:He; [|now elim Hn].
  now rewrite (exponentAll_prefix _ _ _ Hw He).
Qed.

Lemma trimStart_decomp s :
  exists w, all_chars is_ws w = true /\ trimStart s = trim s +:+ w.
Proof. unfold trim. apply trimEnd_decomp. Qed.

Lemma parseFloat_trimStart s : parseFloat (trimStart s) = parseFloat s.
Proof. rewrite !parseFloat_eq. now rewrite trimStart_idem. Qed.

Lemma parseFloat_of_decimal s :
  decimalLiteral (trim s) <> NNaN -> parseFloat s = decimalLiteral (trim s).
Proof.
  intros Hn. destruct (trimStart_decomp s) as (w & Hw & E).
  rewrite <- parseFloat_trimStart, E.
  apply decimalLiteral_prefix; [exact Hw| |exact Hn].
  apply trim_trimStart_fixed.
Qed.

Lemma parseFloat_of_prefixed s m :
  nonDecimalLiteral (trim s) = Some m -> parseFloat s = jsZero.
Proof.
  intros Hm. destruct (trimStart_decomp s) as (w & Hw & E).
  rewrite <- parseFloat_trimStart, E.
  destruct (trim s) as [|z [|p r]]; try discriminate.
  { destruct z as [[] [] [] [] [] [] [] []]; discriminate. }
  destruct (Ascii.eqb_spec z "0") as [->|Hz];
    [|destruct z as [[] [] [] [] [] [] [] []]; try discriminate; now elim Hz].
  rewrite !append_cons.
  destruct p as [[] [] [] [] [] [] [] []]; try discriminate; reflexivity.
Qed.

Lemma parseFloat_blank s : trim s = "" -> parseFloat s = NNaN.
Proof.
  intros E. apply trim_empty_iff in E. rewrite parseFloat_eq.
  now rewrite (trimStart_all_ws _ E).
Qed.

End number_texts.

(** X27.  Where the typing rule of the fallback parser reads a decimal
    numeral, the rule of the client parser reads the same number: a text
    that is not blank and has no [0x], [0o] or [0b] prefix, and that the
    first stores as a number, is stored as that number by the second. *)
Theorem typing_rules_agree (value : string) (n : JsNumber) :
  trim value <> "" -> nonDecimalLiteral (trim value) = None ->
  serverCoerce value = VNum n -> coerce value = VNum n.
Proof.
  intros Hne Hdec. unfold serverCoerce, coerce, toNumber.
  destruct (is_empty (trim value)) eqn:He;
    [apply is_empty_true in He; contradiction|].
  rewrite Hdec.
  destruct (decimalLiteral (trim value)) as [q|b|] eqn:Hd; cbn [isNaN];
    [| |discriminate]; intros [= <-];
    rewrite parseFloat_of_decimal, Hd by (rewrite Hd; discriminate);
    reflexivity.
Qed.

Lemma typing_rules_agree_witness :
  coerce " -12e1 " = VNum (NFin (Q2Qc (-120))).
Proof.
  apply typing_rules_agree.
  - vm_compute. discriminate.
  - reflexivity.
  - unfold serverCoerce. vm_compute. reflexivity.
Defined.

(** X28.  The two typing rules part on the other texts: a blank text is the
    number 0 for the fallback parser and is kept as text by the client
    parser; a text with a [0x], [0o] or [0b] prefix is the number 0 for the
    client parser, whatever the fallback parser reads in it. *)
Theorem typing_rules_differ (value : string) :
  (trim value = "" ->
     serverCoerce value = VNum jsZero /\ coerce value = VStr value) /\
  (forall m, nonDecimalLiteral (trim value) = Some m ->
     coerce value = VNum jsZero /\
     serverCoerce value = if isNaN m then VStr value else VNum m).
Proof.
  split.
  - intros E. unfold serverCoerce, coerce, toNumber.
    rewrite E, (parseFloat_blank _ E). now split.
  - intros m Hm. unfold serverCoerce, coerce, toNumber.
    rewrite (parseFloat_of_prefixed _ _ Hm), Hm. split; [reflexivity|].
    destruct (is_empty (trim value)) eqn:He; [|reflexivity].
    apply is_empty_true in He. rewrite He in Hm. discriminate.
Qed.

Lemma typing_rules_differ_witness :
  (serverCoerce " " = VNum jsZero /\ coerce " " = VStr " ") /\
  (coerce "0x1F" = VNum jsZero /\
   serverCoerce "0x1F" = VNum (NFin (Q2Qc 31))).
Proof.
  split.
  - apply (typing_rules_differ " "). reflexivity.
  - apply (proj2 (typing_rules_differ "0x1F") (NFin (Q2Qc 31))). reflexivity.
Defined.

(** * Properties of the table search *)

Lemma includesStr_eq needle s :
  includesStr needle s =
    match prefix_of needle s with
    | Some _ => true
    | None => match s with
              | "" => false
              | String _ r => includesStr needle r
              end
    end.
Proof. destruct s; reflexivity. Qed.

Lemma includesStr_iff needle s :
  includesStr needle s = true <-> exists p q, s = p +:+ needle +:+ q.
Proof.
  split.
  - induction s as [|c r IH]; rewrite includesStr_eq.
    + destruct (prefix_of needle "") as [q|] eqn:E; [|discriminate].
      intros _. exists "", q. rewrite append_nil.
        now apply prefix_of_Some.
    + destruct (prefix_of needle (String c r)) as [q|] eqn:E.
      * intros _. exists "", q. rewrite append_nil.
        now apply prefix_of_Some.
      * intros (p & q & ->)%IH. exists (String c p), q.
        now rewrite append_cons.
  - intros (p & q & ->). induction p as [|c p IH].
    + rewrite append_nil, includesStr_eq. now rewrite prefix_of_app.
    + rewrite append_cons, includesStr_eq.
      destruct (prefix_of needle _); [reflexivity|exact IH].
Qed.

Lemma includesStr_trans a b c :
  includesStr a b = true -> includesStr b c = true -> includesStr a c = true.
Proof.
  intros (p1 & q1 & ->)%includesStr_iff (p2 & q2 & ->)%includesStr_iff.
  apply includesStr_iff. exists (p2 +:+ p1), (q1 +:+ q2).
  now rewrite !append_assoc.
Qed.

Lemma existsb_always {A} (f : A -> bool) (l : list A) :
  (forall x, f x = true) -> existsb f l = (0 <? length l)%nat.
Proof. intros Hf. destruct l as [|x l]; [reflexivity|]. cbn. now rewrite Hf. Qed.

Lemma filteredData_empty_term numberToString data :
  filteredData numberToString data "" = List.filter hasKeys data.
Proof.
  unfold filteredData. apply List.filter_ext. intros row.
  unfold hasKeys. rewrite <- length_map_to_list.
  rewrite <- (length_map snd). apply existsb_always.
  intros value. cbn [toLowerCase].
  rewrite includesStr_eq. now destruct (toLowerCase _).
Qed.

Lemma filter_all_hasKeys (rows : list (gmap string JsValue)) :
  List.Forall (fun row => hasKeys row = true) rows ->
  List.filter hasKeys rows = rows.
Proof.
  induction 1 as [|row rows Hk _ IH]; [reflexivity|].
  cbn [List.filter]. now rewrite Hk, IH.
Qed.

Lemma compoundData_hasKeys hs lines :
  List.Forall (fun row => hasKeys row = true) (compoundData hs lines).
Proof.
  induction lines as [|l rest IH]; [constructor|]. cbn [compoundData].
  destruct (is_empty (trim l)); [exact IH|].
  destruct (hasKeys _) eqn:Hk; [|exact IH]. now constructor.
Qed.

Lemma parseCSV_rows_hasKeys csvText r :
  parseCSV csvText = Ok r ->
  List.Forall (fun row => hasKeys row = true) (data r).
Proof.
  rewrite parseCSV_cases.
  destruct (isBlank csvText); [discriminate|].
  destruct (nonBlankLines csvText <? 2)%nat; [discriminate|].
  destruct (detectCompoundFormat _ _).
  - unfold parseCompoundCSV.
    destruct (length (textLines csvText) <? 2)%nat; [discriminate|].
    intros [= <-]. cbn [data]. apply compoundData_hasKeys.
  - intros [= <-]. unfold parseStandardCSV. cbn [data].
    apply List.Forall_forall. intros row Hin.
    now apply List.filter_In in Hin as [_ Hk].
Qed.

Lemma serverParse_rows_hasKeys csvContent r :
  serverParse csvContent = Ok r ->
  (exists h, In h (serverHeaders r) /\ h <> "__proto__") ->
  List.Forall (fun row => hasKeys row = true) (serverData r).
Proof.
  rewrite serverParse_cases. destruct (is_empty csvContent); [discriminate|].
  intros [= <-]. cbn [serverData serverHeaders]. intros (h & Hin & Hp).
  apply List.Forall_forall.
  intros row (line & <- & _)%in_map_iff.
  apply (hasKeys_is_Some _ h).
  apply serverRow_loop_keys. left. now split.
Qed.

(** X29.  With an empty search term the table shows the rows that have an
    entry.  These are all the rows of a client parse; of a fallback parse
    they are all the rows when some header is not the reserved name
    [__proto__] (otherwise the rows of the fallback parser are empty and
    none is shown). *)
Theorem empty_search_shows_all (numberToString : JsNumber -> string)
    (text : string) :
  (forall r, parseCSV text = Ok r ->
     filteredData numberToString (data r) "" = data r) /\
  (forall r, serverParse text = Ok r ->
     filteredData numberToString (serverData r) ""
       = List.filter hasKeys (serverData r) /\
     ((exists h, In h (serverHeaders r) /\ h <> "__proto__") ->
      filteredData numberToString (serverData r) "" = serverData r)).
Proof.
  split; intros r Hr; rewrite filteredData_empty_term.
  - apply filter_all_hasKeys. now apply (parseCSV_rows_hasKeys text).
  - split; [reflexivity|]. intros Hh.
    apply filter_all_hasKeys. now apply (serverParse_rows_hasKeys text).
Qed.

Lemma empty_search_shows_all_witness :
  (exists r, parseCSV ("a,b" +:+ nl +:+ "1,x" +:+ nl +:+ "2,y") = Ok r /\
     length (filteredData (fun _ => "0") (data r) "") = 2%nat) /\
  (exists r, serverParse ("a,b" +:+ nl +:+ "1,x" +:+ nl +:+ "2,y") = Ok r /\
     length (filteredData (fun _ => "0") (serverData r) "") = 2%nat) /\
  (exists r, serverParse ("__proto__" +:+ nl +:+ "1") = Ok r /\
     length (serverData r) = 1%nat /\
     filteredData (fun _ => "0") (serverData r) "" = []).
Proof.
  split; [|split].
  - eexists. split; [reflexivity|].
    rewrite (proj1 (empty_search_shows_all (fun _ => "0")
                      ("a,b" +:+ nl +:+ "1,x" +:+ nl +:+ "2,y")) _ eq_refl).
    reflexivity.
  - eexists. split; [reflexivity|].
    rewrite (proj2 (proj2 (empty_search_shows_all (fun _ => "0")
                      ("a,b" +:+ nl +:+ "1,x" +:+ nl +:+ "2,y")) _ eq_refl)).
    + reflexivity.
    + exists "a". split; [now left|discriminate].
  - eexists. split; [reflexivity|]. split; [reflexivity|].
    rewrite (proj1 (proj2 (empty_search_shows_all (fun _ => "0")
                      ("__proto__" +:+ nl +:+ "1")) _ eq_refl)).
    reflexivity.
Defined.

Lemma filter_refines {A} (p q : A -> bool) (l : list A) :
  (forall x, q x = true -> p x = true) ->
  List.filter q l = List.filter q (List.filter p l).
Proof.
  intros Hqp. induction l as [|x l IH]; [reflexivity|]. cbn [List.filter].
  destruct (q x) eqn:Hq.
  - rewrite (Hqp _ Hq). cbn [List.filter]. now rewrite Hq, IH.
  - destruct (p x); [|exact IH]. cbn [List.filter]. now rewrite Hq.
Qed.

(** X30.  Refining a search term amounts to searching in the rows already
    shown: when the lower-cased term [t1] occurs in the lower-cased term
    [t2], the rows shown for [t2] are the rows that the search for [t2]
    keeps among those shown for [t1]. *)
Theorem search_narrows (numberToString : JsNumber -> string)
    (data : list (gmap string JsValue)) (t1 t2 : string) :
  includesStr (toLowerCase t1) (toLowerCase t2) = true ->
  filteredData numberToString data t2 =
    filteredData numberToString (filteredData numberToString data t1) t2.
Proof.
  intros Hsub. unfold filteredData. apply filter_refines.
  intros row (value & Hin & Hv)%existsb_exists.
  apply existsb_exists. exists value. split; [exact Hin|].
  exact (includesStr_trans _ _ _ Hsub Hv).
Qed.

Lemma search_narrows_witness :
  let rows : list (gmap string JsValue) :=
    [ {[ "name" := VStr "Pump A" ]}; {[ "name" := VStr "Valve" ]} ] in
  filteredData (fun _ => "0") rows "pump" =
  filteredData (fun _ => "0") (filteredData (fun _ => "0") rows "P") "pump".
Proof.
  intros rows. apply search_narrows. reflexivity.
Defined.

